(** * RunTracker: the workout lifecycle, the HR-wait coordinator, the offline
      event buffer and the protocol codec, embedded from the C sources.

    Fixed-width C integers are [Z] values kept in range by explicit
    wrap-around ([wrap8], [wrap16], [wrap32]); C arrays are lists accessed with
    stdpp's lookup and insert; file-scope statics become record fields that
    are passed explicitly. *)

From Stdlib Require Import ZArith String Ascii Lia.
From stdpp Require Import base list.

Local Open Scope Z_scope.

(** ** Machine integers *)

Definition wrap8 (z : Z) : Z := z mod 2 ^ 8.
Definition wrap16 (z : Z) : Z := z mod 2 ^ 16.
Definition wrap32 (z : Z) : Z := z mod 2 ^ 32.

(** ** utils/time_utils.c (second file of src/utils/time_utils.h) *)

(** [Time_GetMs] returns [xTaskGetTickCount() * portTICK_PERIOD_MS] as a
    [uint32_t].  The argument [T] is the uptime in milliseconds at the moment
    of the call, as a mathematical integer; the value read wraps at 2^32. *)
Definition Time_GetMs (T : Z) : Z := wrap32 T.

(** ** workout/workout_types.h (src/workout/workout_types.h) *)

Definition MAX_LAPS : nat := 8.

Inductive WorkoutMode_t : Type :=
  | MODE_4x500M
  | MODE_5x1000M
  | MODE_2x2000M
  | MODE_1x4000M.

Inductive WorkoutState_t : Type :=
  | STATE_IDLE
  | STATE_RUNNING
  | STATE_REST
  | STATE_PAUSED
  | STATE_COMPLETED.

Record WorkoutConfig_t : Type := mkConfig {
  mode : WorkoutMode_t;
  total_laps : Z;        (* uint8_t  *)
  lap_distance_m : Z;    (* uint16_t *)
  rest_time_sec : Z      (* uint16_t *)
}.

Record LapRecord_t : Type := mkLap {
  lap_number : Z;        (* uint8_t  *)
  lap_time_ms : Z;       (* uint32_t *)
  split_time_ms : Z      (* uint32_t *)
}.

Record WorkoutSession_t : Type := mkSession {
  config : WorkoutConfig_t;
  state : WorkoutState_t;
  current_lap : Z;       (* uint8_t  *)
  workout_start_ms : Z;  (* uint32_t *)
  lap_start_ms : Z;      (* uint32_t *)
  laps : list LapRecord_t (* LapRecord_t laps[MAX_LAPS] *)
}.

Inductive EventType_t : Type :=
  | EVENT_WORKOUT_START
  | EVENT_WORKOUT_STOP
  | EVENT_LAP_COMPLETE
  | EVENT_WORKOUT_DONE
  | EVENT_STATUS_UPDATE.

Record WorkoutEvent_t : Type := mkEvent {
  type : EventType_t;
  timestamp_ms : Z;      (* uint32_t *)
  ev_current_lap : Z;    (* uint8_t current_lap *)
  lap_data : LapRecord_t
}.

#[global] Instance WorkoutMode_eq_dec : EqDecision WorkoutMode_t.
Proof. solve_decision. Defined.
#[global] Instance WorkoutState_eq_dec : EqDecision WorkoutState_t.
Proof. solve_decision. Defined.
#[global] Instance EventType_eq_dec : EqDecision EventType_t.
Proof. solve_decision. Defined.

(** The all-zero values a [memset(.., 0, ..)] or [= {0}] leaves behind. *)
Definition lap_zero : LapRecord_t := mkLap 0 0 0.
Definition config_zero : WorkoutConfig_t := mkConfig MODE_4x500M 0 0 0.
Definition session_zero : WorkoutSession_t :=
  mkSession config_zero STATE_IDLE 0 0 0 (replicate MAX_LAPS lap_zero).
Definition event_zero : WorkoutEvent_t :=
  mkEvent EVENT_WORKOUT_START 0 0 lap_zero.

(** ** workout/workout_state.c (src/workout/workout_state.c) *)

Module Lifecycle.

(** The three file-scope statics of workout_state.c. *)
Record Workout : Type := mkWorkout {
  s_session : WorkoutSession_t;
  s_pauseStartMs : Z;    (* uint32_t *)
  s_totalPausedMs : Z    (* uint32_t *)
}.

Definition set_state (st : WorkoutState_t) (s : WorkoutSession_t) : WorkoutSession_t :=
  mkSession (config s) st (current_lap s) (workout_start_ms s) (lap_start_ms s) (laps s).

Definition set_config (c : WorkoutConfig_t) (s : WorkoutSession_t) : WorkoutSession_t :=
  mkSession c (state s) (current_lap s) (workout_start_ms s) (lap_start_ms s) (laps s).

(** The [default:] branches of the switches over [WorkoutMode_t],
    [WorkoutState_t] and [EventType_t] have no counterpart here: the
    inductive types have the declared enumerators and no others.  The
    [default] of [Workout_Start] is the branch of the unused [STATE_REST]. *)
Definition setModeConfig (m : WorkoutMode_t) (s : WorkoutSession_t) : WorkoutSession_t :=
  match m with
  | MODE_4x500M => set_config (mkConfig m 4 500 60) s
  | MODE_5x1000M => set_config (mkConfig m 5 1000 90) s
  | MODE_2x2000M => set_config (mkConfig m 2 2000 120) s
  | MODE_1x4000M => set_config (mkConfig m 1 4000 0) s
  end.

Definition Workout_Init : Workout :=
  mkWorkout (setModeConfig MODE_4x500M (set_state STATE_IDLE session_zero)) 0 0.

Definition Workout_GetSession (w : Workout) : WorkoutSession_t := s_session w.

Definition Workout_GetState (w : Workout) : WorkoutState_t := state (s_session w).

Definition Workout_SetMode (m : WorkoutMode_t) (w : Workout) : bool * Workout :=
  if decide (state (s_session w) <> STATE_IDLE) then (false, w)
  else (true, mkWorkout (setModeConfig m (s_session w)) (s_pauseStartMs w) (s_totalPausedMs w)).

(** The enumerators of [WorkoutMode_t] as C integers, for [(mode + 1) % 4]. *)
Definition mode_to_Z (m : WorkoutMode_t) : Z :=
  match m with
  | MODE_4x500M => 0
  | MODE_5x1000M => 1
  | MODE_2x2000M => 2
  | MODE_1x4000M => 3
  end.

Definition mode_of_Z (z : Z) : WorkoutMode_t :=
  match z with
  | 0 => MODE_4x500M
  | 1 => MODE_5x1000M
  | 2 => MODE_2x2000M
  | _ => MODE_1x4000M
  end.

Definition Workout_CycleMode (w : Workout) : bool * Workout :=
  if decide (state (s_session w) <> STATE_IDLE) then (false, w)
  else
    let newMode := mode_of_Z ((mode_to_Z (mode (config (s_session w))) + 1) mod 4) in
    (true, mkWorkout (setModeConfig newMode (s_session w)) (s_pauseStartMs w) (s_totalPausedMs w)).

Definition Workout_Start (T : Z) (w : Workout) : bool * Workout :=
  let now := Time_GetMs T in
  let s := s_session w in
  match state s with
  | STATE_IDLE =>
      (true, mkWorkout (mkSession (config s) STATE_RUNNING 1 now now (laps s))
                       (s_pauseStartMs w) 0)
  | STATE_PAUSED =>
      (true, mkWorkout (set_state STATE_RUNNING s)
                       (s_pauseStartMs w)
                       (wrap32 (s_totalPausedMs w + wrap32 (now - s_pauseStartMs w))))
  | STATE_RUNNING => (false, w)
  | STATE_COMPLETED => (false, w)
  | STATE_REST => (false, w)
  end.

(** [Workout_RecordLap(&lap)]: [Some lap] stands for the result [true] with
    [*lap_out = lap]; [None] for [false], [*lap_out] left alone. *)
Definition Workout_RecordLap (T : Z) (w : Workout) : option LapRecord_t * Workout :=
  let s := s_session w in
  if decide (state s <> STATE_RUNNING) then (None, w)
  else
    let now := Time_GetMs T in
    let lapIndex := wrap8 (current_lap s - 1) in
    let lap := mkLap (current_lap s)
                     (wrap32 (now - lap_start_ms s))
                     (wrap32 (wrap32 (now - workout_start_ms s) - s_totalPausedMs w)) in
    let laps' := <[Z.to_nat lapIndex := lap]> (laps s) in
    if current_lap s >=? total_laps (config s) then
      (Some lap,
       mkWorkout (mkSession (config s) STATE_COMPLETED (current_lap s)
                            (workout_start_ms s) (lap_start_ms s) laps')
                 (s_pauseStartMs w) (s_totalPausedMs w))
    else
      (Some lap,
       mkWorkout (mkSession (config s) (state s) (wrap8 (current_lap s + 1))
                            (workout_start_ms s) now laps')
                 (s_pauseStartMs w) (s_totalPausedMs w)).

Definition Workout_Pause (T : Z) (w : Workout) : bool * Workout :=
  if decide (state (s_session w) <> STATE_RUNNING) then (false, w)
  else (true, mkWorkout (set_state STATE_PAUSED (s_session w))
                        (Time_GetMs T) (s_totalPausedMs w)).

Definition Workout_Stop (w : Workout) : bool * Workout :=
  if decide (state (s_session w) = STATE_IDLE \/ state (s_session w) = STATE_COMPLETED)
  then (false, w)
  else (true, mkWorkout (set_state STATE_COMPLETED (s_session w))
                        (s_pauseStartMs w) (s_totalPausedMs w)).

Definition Workout_Reset (w : Workout) : Workout :=
  let currentMode := mode (config (s_session w)) in
  mkWorkout (setModeConfig currentMode (set_state STATE_IDLE session_zero)) 0 0.

(** [Workout_GetElapsedMs] reads the clock once for the running total and a
    second time, in the [STATE_PAUSED] branch, for the pause in progress;
    [T1] and [T2] are the uptimes at those two reads. *)
Definition Workout_GetElapsedMs (T1 T2 : Z) (w : Workout) : Z :=
  let s := s_session w in
  if decide (state s = STATE_IDLE) then 0
  else
    let elapsed := wrap32 (wrap32 (Time_GetMs T1 - workout_start_ms s) - s_totalPausedMs w) in
    if decide (state s = STATE_PAUSED)
    then wrap32 (elapsed - wrap32 (Time_GetMs T2 - s_pauseStartMs w))
    else elapsed.

Definition Workout_GetCurrentLapMs (T : Z) (w : Workout) : Z :=
  if decide (state (s_session w) <> STATE_RUNNING) then 0
  else wrap32 (Time_GetMs T - lap_start_ms (s_session w)).

Definition Workout_StateToString (st : WorkoutState_t) : string :=
  match st with
  | STATE_IDLE => "IDLE"
  | STATE_RUNNING => "RUNNING"
  | STATE_REST => "REST"
  | STATE_PAUSED => "PAUSED"
  | STATE_COMPLETED => "COMPLETED"
  end.

Definition Workout_ModeToString (m : WorkoutMode_t) : string :=
  match m with
  | MODE_4x500M => "4x500m"
  | MODE_5x1000M => "5x1000m"
  | MODE_2x2000M => "2x2000m"
  | MODE_1x4000M => "1x4000m"
  end.

(** *** The mutators as one operation alphabet *)

Inductive Op : Type :=
  | OpSetMode (m : WorkoutMode_t)
  | OpCycleMode
  | OpStart
  | OpRecordLap
  | OpPause
  | OpStop
  | OpReset.

(** [exec o T w]: call the mutator [o] at uptime [T]; the boolean is the
    C return value ([Workout_Reset] is [void]: reported as [true]). *)
Definition exec (o : Op) (T : Z) (w : Workout) : bool * Workout :=
  match o with
  | OpSetMode m => Workout_SetMode m w
  | OpCycleMode => Workout_CycleMode w
  | OpStart => Workout_Start T w
  | OpRecordLap =>
      let r := Workout_RecordLap T w in
      (match fst r with Some _ => true | None => false end, snd r)
  | OpPause => Workout_Pause T w
  | OpStop => Workout_Stop w
  | OpReset => (true, Workout_Reset w)
  end.

(** Run a timed script of operations, left to right. *)
Fixpoint run (tr : list (Z * Op)) (w : Workout) : Workout :=
  match tr with
  | [] => w
  | (T, o) :: tr' => run tr' (snd (exec o T w))
  end.

(** States the module can be in after boot. *)
Inductive reachable : Workout -> Prop :=
  | reach_init : reachable Workout_Init
  | reach_step o T w : reachable w -> reachable (snd (exec o T w)).

End Lifecycle.

(** ** storage/buffer.c (last file of src/workout/workout_types.h) *)

Module Buffer.

Definition BUFFER_MAX_EVENTS : Z := 16.

(** The statics [s_buffer], [s_head], [s_tail], [s_count] (all [uint8_t]
    indices). *)
Record Ring : Type := mkRing {
  s_buffer : list WorkoutEvent_t;
  s_head : Z;
  s_tail : Z;
  s_count : Z
}.

Definition Buffer_Init : Ring :=
  mkRing (replicate (Z.to_nat BUFFER_MAX_EVENTS) event_zero) 0 0 0.

(** [pEvent] is [None] for a [NULL] pointer. *)
Definition Buffer_Push (pEvent : option WorkoutEvent_t) (b : Ring) : bool * Ring :=
  match pEvent with
  | None => (false, b)
  | Some e =>
      let overflow := s_count b >=? BUFFER_MAX_EVENTS in
      let tail' := if overflow then wrap8 ((s_tail b + 1) mod BUFFER_MAX_EVENTS) else s_tail b in
      let count' := if overflow then s_count b else wrap8 (s_count b + 1) in
      let buffer' := <[Z.to_nat (s_head b) := e]> (s_buffer b) in
      let head' := wrap8 ((s_head b + 1) mod BUFFER_MAX_EVENTS) in
      (negb overflow, mkRing buffer' head' tail' count')
  end.

(** [Buffer_Pop(&event)] with a non-[NULL] destination, as at its call site in
    [BleTx_FlushBuffer]: [Some e] is the result [true] with the event copied
    out, [None] the result [false]. *)
Definition Buffer_Pop (b : Ring) : option WorkoutEvent_t * Ring :=
  if s_count b =? 0 then (None, b)
  else
    let e := default event_zero (s_buffer b !! Z.to_nat (s_tail b)) in
    (Some e,
     mkRing (s_buffer b) (s_head b)
            (wrap8 ((s_tail b + 1) mod BUFFER_MAX_EVENTS))
            (wrap8 (s_count b - 1))).

Definition Buffer_GetCount (b : Ring) : Z := s_count b.

Definition Buffer_IsEmpty (b : Ring) : bool := s_count b =? 0.

Definition Buffer_Clear (b : Ring) : Ring := mkRing (s_buffer b) 0 0 0.

(** Push a batch of events, oldest first. *)
Fixpoint push_all (es : list WorkoutEvent_t) (b : Ring) : Ring :=
  match es with
  | [] => b
  | e :: es' => push_all es' (snd (Buffer_Push (Some e) b))
  end.

(** Call [Buffer_Pop] up to [n] times, as the [while (Buffer_Pop(&event))]
    loop of [BleTx_FlushBuffer] does, collecting what comes out. *)
Fixpoint pop_n (n : nat) (b : Ring) : list WorkoutEvent_t * Ring :=
  match n with
  | O => ([], b)
  | S n' =>
      match Buffer_Pop b with
      | (Some e, b') => let r := pop_n n' b' in (e :: fst r, snd r)
      | (None, b') => ([], b')
      end
  end.

End Buffer.

(** ** comms/protocol.c (second file of src/unnamed/part_002) *)

Module Protocol.

Import Lifecycle.

Local Open Scope string_scope.

Definition PROTOCOL_MAX_MSG_LEN : Z := 128.

(** *** The part of [snprintf] the codec uses *)

(** Decimal digits of a non-negative number, least significant first,
    prepended to [acc]; [fuel] bounds the number of digits produced. *)
Fixpoint utoa_rec (fuel : nat) (n : Z) (acc : string) : string :=
  match fuel with
  | O => acc
  | S fuel' =>
      let acc' := String (ascii_of_nat (48 + Z.to_nat (n mod 10))) acc in
      if (n / 10 =? 0)%Z then acc' else utoa_rec fuel' (n / 10) acc'
  end.

(** A number below [2^k] has at most [k] decimal digits, so the fuel never
    runs out. *)
Definition utoa (n : Z) : string :=
  utoa_rec (S (Z.to_nat (Z.log2 n))) n EmptyString.

(** The variadic arguments, tagged with the conversion that consumes them. *)
Inductive printf_arg : Type :=
  | ArgS (s : string)   (* %s  : const char *   *)
  | ArgD (z : Z)        (* %d  : int            *)
  | ArgLU (z : Z).      (* %lu : unsigned long  *)

Definition print_d (z : Z) : string :=
  if (z <? 0)%Z then String "-" (utoa (- z)) else utoa z.

(** [unsigned long] is 32 bits wide on the Cortex-M4 target. *)
Definition print_lu (z : Z) : string := utoa (wrap32 z).

(** Expansion of a format string with the conversions [%s], [%d] and [%lu]. *)
Fixpoint format (fmt : string) (args : list printf_arg) : string :=
  match fmt with
  | EmptyString => EmptyString
  | String "%" (String "s" rest) =>
      match args with
      | ArgS s :: args' => s ++ format rest args'
      | _ => EmptyString
      end
  | String "%" (String "d" rest) =>
      match args with
      | ArgD z :: args' => print_d z ++ format rest args'
      | _ => EmptyString
      end
  | String "%" (String "l" (String "u" rest)) =>
      match args with
      | ArgLU z :: args' => print_lu z ++ format rest args'
      | _ => EmptyString
      end
  | String c rest => String c (format rest args)
  end.

(** [snprintf(buf, size, fmt, ...)]: the value returned is the length of the
    full expansion; the buffer receives at most [size - 1] characters of it. *)
Definition snprintf (size : Z) (fmt : string) (args : list printf_arg) : Z * string :=
  let out := format fmt args in
  (Z.of_nat (String.length out), substring 0 (Z.to_nat (size - 1)) out).

(** C string literals are written here with an apostrophe wherever the source
    has an escaped double quote; [q] puts the double quotes back. *)
Fixpoint q (s : string) : string :=
  match s with
  | EmptyString => EmptyString
  | String c rest => String (if Ascii.eqb c "'" then ascii_of_nat 34 else c) (q rest)
  end.

Definition Protocol_EventTypeToString (t : EventType_t) : string :=
  match t with
  | EVENT_WORKOUT_START => "start"
  | EVENT_WORKOUT_STOP => "stop"
  | EVENT_LAP_COMPLETE => "lap"
  | EVENT_WORKOUT_DONE => "done"
  | EVENT_STATUS_UPDATE => "status"
  end.

(** [Protocol_SerializeEvent(pEvent, pBuffer, bufLen)].
    [pEvent] is [None] for [NULL]; [pBuffer] is [None] for [NULL] and otherwise
    holds the text in the caller's buffer.  [w] is the workout module's state,
    reached through [Workout_GetSession()] and [Workout_GetElapsedMs()];
    [T1], [T2] are the uptimes at the clock reads of the latter.  The result
    is the returned length and the buffer after the call. *)
Definition Protocol_SerializeEvent (w : Workout) (T1 T2 : Z)
    (pEvent : option WorkoutEvent_t) (pBuffer : option string) (bufLen : Z)
    : Z * option string :=
  let session := Workout_GetSession w in
  match pEvent, pBuffer with
  | Some e, Some _ =>
      if (bufLen <? 50)%Z then (0, pBuffer)
      else
        let r :=
          match type e with
          | EVENT_WORKOUT_START =>
              snprintf bufLen (q "{'event':'start','mode':'%s','laps':%d,'ts':%lu}")
                [ArgS (Workout_ModeToString (mode (config session)));
                 ArgD (total_laps (config session));
                 ArgLU (timestamp_ms e)]
          | EVENT_LAP_COMPLETE =>
              snprintf bufLen (q "{'event':'lap','lap':%d,'lap_ms':%lu,'split_ms':%lu,'ts':%lu}")
                [ArgD (lap_number (lap_data e));
                 ArgLU (lap_time_ms (lap_data e));
                 ArgLU (split_time_ms (lap_data e));
                 ArgLU (timestamp_ms e)]
          | EVENT_WORKOUT_STOP =>
              snprintf bufLen (q "{'event':'stop','laps':%d,'total_ms':%lu,'ts':%lu}")
                [ArgD (ev_current_lap e);
                 ArgLU (wrap32 (timestamp_ms e - workout_start_ms session));
                 ArgLU (timestamp_ms e)]
          | EVENT_WORKOUT_DONE =>
              snprintf bufLen (q "{'event':'done','laps':%d,'total_ms':%lu,'ts':%lu}")
                [ArgD (total_laps (config session));
                 ArgLU (split_time_ms (lap_data e));
                 ArgLU (timestamp_ms e)]
          | EVENT_STATUS_UPDATE =>
              snprintf bufLen (q "{'event':'status','state':'%s','lap':%d,'elapsed_ms':%lu}")
                [ArgS (Workout_StateToString (state session));
                 ArgD (ev_current_lap e);
                 ArgLU (Workout_GetElapsedMs T1 T2 w)]
          end in
        let len := fst r in
        if (len <? 0)%Z || (len >=? bufLen)%Z then (0, Some (snd r))
        else (wrap16 len, Some (snd r))
  | _, _ => (0, pBuffer)
  end.

End Protocol.

(** ** comms/ble_tx.c (src/unnamed/part_003): the producer side of the
       transmission queue *)

Module BleTx.

Definition EVENT_QUEUE_LENGTH : nat := 4.

(** [g_eventQueue] is [None] while the handle is [NULL], otherwise the events
    waiting in the FreeRTOS queue, oldest first. *)
Definition EventQueue : Type := option (list WorkoutEvent_t).

(** [xQueueSend(g_eventQueue, pEvent, 0)] fails at once on a full queue. *)
Definition BleTx_SendEvent (pEvent : option WorkoutEvent_t) (g_eventQueue : EventQueue)
    : bool * EventQueue :=
  match g_eventQueue, pEvent with
  | Some items, Some e =>
      if decide (length items < EVENT_QUEUE_LENGTH)%nat
      then (true, Some (items ++ [e]))
      else (false, g_eventQueue)
  | _, _ => (false, g_eventQueue)
  end.

End BleTx.

(** ** rtos/control_task.c (second file of src/project.mk): the coordinator
       with the HR-confirmation wait *)

Module Control.

Import Lifecycle BleTx.

Definition QUEUE_POLL_TIMEOUT_MS : Z := 10.
Definition HR_CONFIRM_TIMEOUT_MS : Z := 5000.

Inductive CtrlState_t : Type :=
  | CTRL_STATE_IDLE
  | CTRL_STATE_RUNNING
  | CTRL_STATE_HR_MEASUREMENT.

Inductive BleCtrlEventType_t : Type :=
  | BLE_CTRL_EVT_NONE
  | BLE_CTRL_EVT_HR_DONE
  | BLE_CTRL_EVT_CONNECTED
  | BLE_CTRL_EVT_DISCONNECTED.

Record BleCtrlEvent_t : Type := mkBleCtrlEvent {
  ble_type : BleCtrlEventType_t;
  ble_timestamp_ms : Z
}.

Inductive ButtonEventType_t : Type :=
  | BTN_NONE
  | BTN_START
  | BTN_LAP
  | BTN_STOP
  | BTN_MODE_NEXT
  | BTN_STATUS.

Record ButtonEvent_t : Type := mkButtonEvent {
  btn_type : ButtonEventType_t;
  btn_timestamp_ms : Z
}.

#[global] Instance CtrlState_eq_dec : EqDecision CtrlState_t.
Proof. solve_decision. Defined.
#[global] Instance BleCtrlEventType_eq_dec : EqDecision BleCtrlEventType_t.
Proof. solve_decision. Defined.
#[global] Instance ButtonEventType_eq_dec : EqDecision ButtonEventType_t.
Proof. solve_decision. Defined.

(** The anonymous struct [s_hrWait]. *)
Record HrWait : Type := mkHrWait {
  startMs : Z;   (* uint32_t *)
  active : bool
}.

(** Everything the control task reads or writes: the workout module's
    statics, its own statics, the transmission queue and the messages handed
    to [DataSend]. *)
Record Ctrl : Type := mkCtrl {
  workout : Workout;
  s_currentState : CtrlState_t;
  s_hrWait : HrWait;
  g_eventQueue : EventQueue;
  ble_sent : list string
}.

(** What the surroundings present to one handler invocation: [uptime k] is the
    uptime at the handler's [k]-th call site of [Time_GetMs], in program order,
    and [connected] the answer of [BLE_IsConnected()]. *)
Record Env : Type := mkEnv {
  uptime : nat -> Z;
  connected : bool
}.

Definition set_workout (w : Workout) (c : Ctrl) : Ctrl :=
  mkCtrl w (s_currentState c) (s_hrWait c) (g_eventQueue c) (ble_sent c).

Definition set_ctrl_state (st : CtrlState_t) (c : Ctrl) : Ctrl :=
  mkCtrl (workout c) st (s_hrWait c) (g_eventQueue c) (ble_sent c).

Definition set_hrWait (h : HrWait) (c : Ctrl) : Ctrl :=
  mkCtrl (workout c) (s_currentState c) h (g_eventQueue c) (ble_sent c).

Definition set_queue (qu : EventQueue) (c : Ctrl) : Ctrl :=
  mkCtrl (workout c) (s_currentState c) (s_hrWait c) qu (ble_sent c).

(** The statics as the loader leaves them, with the transmission queue as
    [BleTx_Init] created it (or not). *)
Definition boot (qu : EventQueue) : Ctrl :=
  mkCtrl (mkWorkout session_zero 0 0) CTRL_STATE_IDLE (mkHrWait 0 false) qu [].

(** [created] tells whether [xQueueCreateStatic] returned a handle. *)
Definition ControlTask_Init (created : bool) (c : Ctrl) : bool * Ctrl :=
  if created
  then (true, set_hrWait (mkHrWait 0 false) (set_workout Workout_Init c))
  else (false, c).

Definition ControlTask_GetState (c : Ctrl) : CtrlState_t := s_currentState c.

Definition ControlTask_IsHrMeasurementActive (c : Ctrl) : bool :=
  bool_decide (s_currentState c = CTRL_STATE_HR_MEASUREMENT).

Definition sendHrRequest (env : Env) (c : Ctrl) : Ctrl :=
  if connected env
  then mkCtrl (workout c) (s_currentState c) (s_hrWait c) (g_eventQueue c)
              (ble_sent c ++ [Protocol.q "{'cmd':'hr_req'}"])
  else c.

(** Clock call sites: 0 in [Workout_Pause], 1 for [s_hrWait.startMs]. *)
Definition enterHrWaitState (env : Env) (c : Ctrl) : Ctrl :=
  let c1 := set_workout (snd (Workout_Pause (uptime env 0) (workout c))) c in
  let c2 := set_hrWait (mkHrWait (Time_GetMs (uptime env 1)) true) c1 in
  let c3 := set_ctrl_state CTRL_STATE_HR_MEASUREMENT c2 in
  sendHrRequest env c3.

(** Clock call sites: 0 in [Workout_RecordLap], 1 for [evt.timestamp_ms],
    2 in [Workout_Start]. *)
Definition exitHrWaitState (env : Env) (confirmed : bool) (c : Ctrl) : Ctrl :=
  let c1 := set_hrWait (mkHrWait (startMs (s_hrWait c)) false) c in
  let r := Workout_RecordLap (uptime env 0) (workout c1) in
  let c2 := set_workout (snd r) c1 in
  let c3 :=
    match fst r with
    | Some lap =>
        let evt :=
          mkEvent (if decide (Workout_GetState (workout c2) = STATE_COMPLETED)
                   then EVENT_WORKOUT_DONE else EVENT_LAP_COMPLETE)
                  (Time_GetMs (uptime env 1))
                  (ev_current_lap event_zero)
                  lap in
        set_queue (snd (BleTx_SendEvent (Some evt) (g_eventQueue c2))) c2
    | None => c2
    end in
  if decide (Workout_GetState (workout c3) <> STATE_COMPLETED)
  then set_ctrl_state CTRL_STATE_RUNNING
         (set_workout (snd (Workout_Start (uptime env 2) (workout c3))) c3)
  else set_ctrl_state CTRL_STATE_IDLE c3.

Definition handleButtonEvent (env : Env) (evt : ButtonEvent_t) (c : Ctrl) : Ctrl :=
  match s_currentState c with
  | CTRL_STATE_IDLE =>
      if decide (btn_type evt = BTN_START) then
        let r := Workout_Start (uptime env 0) (workout c) in
        if fst r then set_ctrl_state CTRL_STATE_RUNNING (set_workout (snd r) c)
        else set_workout (snd r) c
      else c
  | CTRL_STATE_RUNNING =>
      if decide (btn_type evt = BTN_LAP) then enterHrWaitState env c
      else if decide (btn_type evt = BTN_STOP)
           then set_workout (snd (Workout_Pause (uptime env 0) (workout c))) c
           else c
  | CTRL_STATE_HR_MEASUREMENT =>
      if decide (btn_type evt = BTN_STOP) then exitHrWaitState env false c else c
  end.

Definition handleBleCtrlEvent (env : Env) (evt : BleCtrlEvent_t) (c : Ctrl) : Ctrl :=
  if bool_decide (ble_type evt = BLE_CTRL_EVT_HR_DONE)
     && bool_decide (s_currentState c = CTRL_STATE_HR_MEASUREMENT)
     && active (s_hrWait c)
  then exitHrWaitState env true c
  else c.

(** What one pass through the body of [while (1)] meets: the outcome of the
    two [xQueueReceive] calls ([None]: nothing received), the surroundings
    of each handler, and the uptime at the deadline check. *)
Record Iteration : Type := mkIteration {
  btn : option ButtonEvent_t;
  btn_env : Env;
  ble : option BleCtrlEvent_t;
  ble_env : Env;
  check_uptime : Z;
  timeout_env : Env
}.

(** The body of the loop in [ControlTask_Run]. *)
Definition ControlTask_iteration (it : Iteration) (c : Ctrl) : Ctrl :=
  let c1 := match btn it with
            | Some e => handleButtonEvent (btn_env it) e c
            | None => c
            end in
  let c2 := match ble it with
            | Some e => handleBleCtrlEvent (ble_env it) e c1
            | None => c1
            end in
  if bool_decide (s_currentState c2 = CTRL_STATE_HR_MEASUREMENT) && active (s_hrWait c2)
  then
    if wrap32 (Time_GetMs (check_uptime it) - startMs (s_hrWait c2)) >? HR_CONFIRM_TIMEOUT_MS
    then exitHrWaitState (timeout_env it) false c2
    else c2
  else c2.

(** A finite prefix of the endless loop of [ControlTask_Run]. *)
Fixpoint ControlTask_Run (its : list Iteration) (c : Ctrl) : Ctrl :=
  match its with
  | [] => c
  | it :: its' => ControlTask_Run its' (ControlTask_iteration it c)
  end.

(** States of the control task after [ControlTask_Init] succeeded; the
    transmit task may take the oldest event off the queue at any time. *)
Inductive reachable : Ctrl -> Prop :=
  | ctrl_init qu : reachable (snd (ControlTask_Init true (boot qu)))
  | ctrl_iteration it c : reachable c -> reachable (ControlTask_iteration it c)
  | ctrl_dequeue c e items :
      reachable c -> g_eventQueue c = Some (e :: items) ->
      reachable (set_queue (Some items) c).

End Control.

(** ** utils/time_utils.c (second file of src/utils/time_utils.h): elapsed
       time and the MM:SS.mmm format *)

Module TimeUtils.

Import Protocol.

Local Open Scope string_scope.

(** [Time_ElapsedMs(start_ms)], the clock read at uptime [T]. *)
Definition Time_ElapsedMs (T : Z) (start_ms : Z) : Z :=
  let now := Time_GetMs T in
  if (now >=? start_ms)%Z then wrap32 (now - start_ms)
  else wrap32 (wrap32 (wrap32 (4294967295 - start_ms) + now) + 1).

Fixpoint zeros (n : nat) : string :=
  match n with
  | O => EmptyString
  | S n' => String "0" (zeros n')
  end.

(** The conversion [%0<width>lu]: the numeral of [%lu], padded on the left
    with zeros to at least [width] characters. *)
Definition print_0lu (width : nat) (z : Z) : string :=
  let s := print_lu z in
  zeros (width - String.length s) ++ s.

(** Expansion of a format string whose conversions are all of the form
    [%0<digit>lu]. *)
Fixpoint format_0lu (fmt : string) (args : list Z) : string :=
  match fmt with
  | EmptyString => EmptyString
  | String "%" (String "0" (String d (String "l" (String "u" rest)))) =>
      match args with
      | z :: args' => print_0lu (nat_of_ascii d - 48) z ++ format_0lu rest args'
      | [] => EmptyString
      end
  | String c rest => String c (format_0lu rest args)
  end.

(** [Time_FormatMmSsMsss(ms, buffer, buf_len)]: [buffer] is the text the
    caller's array held, the result the text it holds afterwards ([snprintf]
    with a size of 0 writes nothing). *)
Definition Time_FormatMmSsMsss (ms : Z) (buffer : string) (buf_len : Z) : string :=
  let total_seconds := (ms / 1000)%Z in
  let minutes := (total_seconds / 60)%Z in
  let seconds := (total_seconds mod 60)%Z in
  let millis := (ms mod 1000)%Z in
  let out := format_0lu "%02lu:%02lu.%03lu" [minutes; seconds; millis] in
  if (buf_len =? 0)%Z then buffer else substring 0 (Z.to_nat (buf_len - 1)) out.

End TimeUtils.

(** ** input/buttons.c (src/input/buttons.c): the button event queue *)

Module Buttons.

Import Control.

Definition BUTTON_QUEUE_LENGTH : nat := 8.

(** [g_buttonQueue] is [None] while the handle is [NULL], otherwise the
    events waiting in the FreeRTOS queue, oldest first. *)
Definition ButtonQueue : Type := option (list ButtonEvent_t).

(** [Button_SendEvent(type)] at uptime [T]; [xQueueSend(.., 0)] fails at once
    on a full queue. *)
Definition Button_SendEvent (t : ButtonEventType_t) (T : Z) (g_buttonQueue : ButtonQueue)
    : bool * ButtonQueue :=
  match g_buttonQueue with
  | None => (false, g_buttonQueue)
  | Some items =>
      let event := mkButtonEvent t (Time_GetMs T) in
      if decide (length items < BUTTON_QUEUE_LENGTH)%nat
      then (true, Some (items ++ [event]))
      else (false, g_buttonQueue)
  end.

End Buttons.

(** ** input/max7325.c (src/input/max7325.c): the I/O expander's buttons *)

Module Max7325.

Import Control Buttons.

Definition MAX7325_SW1_MASK : Z := Z.shiftl 1 0.
Definition MAX7325_SW2_MASK : Z := Z.shiftl 1 1.
Definition MAX7325_SW3_MASK : Z := Z.shiftl 1 2.

Definition DEBOUNCE_COUNT : Z := 2.

(** The statics [s_i2c] ([true]: not [NULL]) and [s_initialized]. *)
Record Driver : Type := mkDriver {
  s_i2c : bool;
  s_initialized : bool
}.

Record Max7325ButtonState_t : Type := mkButtonState {
  sw1_start : bool;
  sw2_lap : bool;
  sw3_stop : bool;
  raw : Z                (* uint8_t *)
}.

(** [i2c] is the outcome of [MXC_I2C_MasterTransaction]: [Some levels] for
    [E_NO_ERROR] with the port levels read into [raw[0]], [None] for an
    error. *)
Definition Max7325_ReadRaw (d : Driver) (i2c : option Z) : Z :=
  if negb (s_initialized d) || negb (s_i2c d) then 255
  else
    match i2c with
    | None => 255
    | Some levels => levels
    end.

(** [Max7325_ReadButtons(&state)] with a non-[NULL] destination: [None] is
    the result [false]. *)
Definition Max7325_ReadButtons (d : Driver) (i2c : option Z) : option Max7325ButtonState_t :=
  if negb (s_initialized d) then None
  else
    let raw := Max7325_ReadRaw d i2c in
    Some (mkButtonState (Z.land raw MAX7325_SW1_MASK =? 0)
                        (Z.land raw MAX7325_SW2_MASK =? 0)
                        (Z.land raw MAX7325_SW3_MASK =? 0)
                        raw).

Definition Max7325_IsButtonPressed (mask : Z) (d : Driver) (i2c : option Z) : bool :=
  Z.land (Max7325_ReadRaw d i2c) mask =? 0.

(** [processButtonChange(current, previous)]; [clk k] is the uptime at the
    [k]-th call site of [Button_SendEvent], in program order. *)
Definition processButtonChange (current previous : Z) (clk : nat -> Z) (qu : ButtonQueue)
    : ButtonQueue :=
  let q1 :=
    if negb (Z.land previous MAX7325_SW1_MASK =? 0) && (Z.land current MAX7325_SW1_MASK =? 0)
    then snd (Button_SendEvent BTN_START (clk 0%nat) qu) else qu in
  let q2 :=
    if negb (Z.land previous MAX7325_SW2_MASK =? 0) && (Z.land current MAX7325_SW2_MASK =? 0)
    then snd (Button_SendEvent BTN_LAP (clk 1%nat) q1) else q1 in
  if negb (Z.land previous MAX7325_SW3_MASK =? 0) && (Z.land current MAX7325_SW3_MASK =? 0)
  then snd (Button_SendEvent BTN_STOP (clk 2%nat) q2) else q2.

(** The locals of [pollingTask] that live across iterations. *)
Record Poll : Type := mkPoll {
  stableState : Z;       (* uint8_t *)
  readCount : Z;         (* uint8_t *)
  lastRead : Z           (* uint8_t *)
}.

Definition poll_start : Poll := mkPoll 255 0 255.

(** One pass through the body of [while (1)] in [pollingTask], where
    [Max7325_ReadRaw()] returned [currentState]. *)
Definition pollingTask_iteration (currentState : Z) (clk : nat -> Z) (p : Poll)
    (qu : ButtonQueue) : Poll * ButtonQueue :=
  if currentState =? lastRead p then
    let readCount1 := wrap8 (readCount p + 1) in
    if readCount1 >=? DEBOUNCE_COUNT then
      if negb (currentState =? stableState p)
      then (mkPoll currentState DEBOUNCE_COUNT currentState,
            processButtonChange currentState (stableState p) clk qu)
      else (mkPoll (stableState p) DEBOUNCE_COUNT currentState, qu)
    else (mkPoll (stableState p) readCount1 currentState, qu)
  else (mkPoll (stableState p) 0 currentState, qu).

(** A finite prefix of the polling loop: each element is the value read and
    the clock of that pass. *)
Fixpoint pollingTask (reads : list (Z * (nat -> Z))) (p : Poll) (qu : ButtonQueue)
    : Poll * ButtonQueue :=
  match reads with
  | [] => (p, qu)
  | (currentState, clk) :: reads' =>
      let r := pollingTask_iteration currentState clk p qu in
      pollingTask reads' (fst r) (snd r)
  end.

End Max7325.

(** ** workout/workout_control.c (second file of src/workout/workout_types.h):
       the control task that the firmware starts *)

Module WorkoutControl.

Import Lifecycle BleTx Control.

(** What the task reads and writes: the workout module's statics and the
    transmission queue. *)
Record Sys : Type := mkSys {
  wk : Workout;
  tx_queue : EventQueue
}.

(** [sendWorkoutEvent(type, lapData)] at uptime [T]; [lapData] is [None] for
    [NULL]. *)
Definition sendWorkoutEvent (t : EventType_t) (lapData : option LapRecord_t) (T : Z)
    (s : Sys) : Sys :=
  let session := Workout_GetSession (wk s) in
  let event :=
    mkEvent t (Time_GetMs T) (current_lap session)
            (match lapData with
             | Some l => l
             | None => lap_data event_zero
             end) in
  mkSys (wk s) (snd (BleTx_SendEvent (Some event) (tx_queue s))).

(** The body of the loop of [ControlTask] for a received button event.
    [clk k] is the uptime at the [k]-th clock read that reaches the state, in
    program order: in the lifecycle call first, then in [sendWorkoutEvent].
    The reads made only to print a time are left out. *)
Definition ControlTask_handle (btn : ButtonEvent_t) (clk : nat -> Z) (s : Sys) : Sys :=
  let currentState := Workout_GetState (wk s) in
  match btn_type btn with
  | BTN_START =>
      let s1 := if decide (currentState = STATE_COMPLETED)
                then mkSys (Workout_Reset (wk s)) (tx_queue s) else s in
      let r := Workout_Start (clk 0%nat) (wk s1) in
      let s2 := mkSys (snd r) (tx_queue s1) in
      if fst r then sendWorkoutEvent EVENT_WORKOUT_START None (clk 1%nat) s2 else s2
  | BTN_LAP =>
      if decide (currentState = STATE_RUNNING) then
        let r := Workout_RecordLap (clk 0%nat) (wk s) in
        let s1 := mkSys (snd r) (tx_queue s) in
        match fst r with
        | Some lapData =>
            if decide (Workout_GetState (wk s1) = STATE_COMPLETED)
            then sendWorkoutEvent EVENT_WORKOUT_DONE (Some lapData) (clk 1%nat) s1
            else sendWorkoutEvent EVENT_LAP_COMPLETE (Some lapData) (clk 1%nat) s1
        | None => s1
        end
      else s
  | BTN_STOP =>
      if decide (currentState = STATE_RUNNING)
      then mkSys (snd (Workout_Pause (clk 0%nat) (wk s))) (tx_queue s)
      else if decide (currentState = STATE_PAUSED) then
        let r := Workout_Stop (wk s) in
        let s1 := mkSys (snd r) (tx_queue s) in
        if fst r then sendWorkoutEvent EVENT_WORKOUT_STOP None (clk 0%nat) s1 else s1
      else s
  | BTN_MODE_NEXT =>
      if decide (currentState = STATE_IDLE \/ currentState = STATE_COMPLETED) then
        let s1 := if decide (currentState = STATE_COMPLETED)
                  then mkSys (Workout_Reset (wk s)) (tx_queue s) else s in
        mkSys (snd (Workout_CycleMode (wk s1))) (tx_queue s1)
      else s
  | BTN_STATUS => sendWorkoutEvent EVENT_STATUS_UPDATE None (clk 0%nat) s
  | BTN_NONE => s
  end.

(** A finite prefix of the loop of [ControlTask]: the button events received,
    each with the clock of its handling. *)
Fixpoint ControlTask (btns : list (ButtonEvent_t * (nat -> Z))) (s : Sys) : Sys :=
  match btns with
  | [] => s
  | (btn, clk) :: btns' => ControlTask btns' (ControlTask_handle btn clk s)
  end.

End WorkoutControl.

(** ** comms/ble_manager.c (src/unnamed/part_005): the link to the ESP32 *)

Module BleManager.

Import Control.

Definition CUSTOM_MAX_DATA_LEN : Z := 128.

(** [CUSTOM_RX_HDL] of the handle enumeration in svc_custom.h, which starts
    at [CUSTOM_SVC_HDL = 0x0100]. *)
Definition CUSTOM_RX_HDL : Z := 261.

(** [DM_CONN_ID_NONE] of the Cordio stack. *)
Definition DM_CONN_ID_NONE : Z := 0.

Definition BLE_CTRL_QUEUE_LENGTH : nat := 8.

(** The fields of [bleCb] the application reads. *)
Record BleCb : Type := mkBleCb {
  bleCb_connId : Z;
  bleCb_connected : bool
}.

Definition BLE_IsConnected (cb : BleCb) : bool := bleCb_connected cb.

(** [DataSend(pData, len)]: [pData] holds the bytes at the pointer, [ccc] is
    the answer of [AttsCccEnabled].  The second component is the value handed
    to [AttsHandleValueNtf], if any. *)
Definition DataSend (pData : string) (len : Z) (cb : BleCb) (ccc : bool)
    : bool * option string :=
  if negb (bleCb_connected cb) || (bleCb_connId cb =? DM_CONN_ID_NONE)%Z then (false, None)
  else if negb ccc then (false, None)
  else
    let len' := if (len >? CUSTOM_MAX_DATA_LEN)%Z then CUSTOM_MAX_DATA_LEN else len in
    (true, Some (substring 0 (Z.to_nat len') pData)).

(** [g_bleCtrlQueue] of rtos/control_task.c: [None] while the handle is
    [NULL]. *)
Definition BleCtrlQueue : Type := option (list BleCtrlEvent_t).

(** [ControlTask_SendBleEvent(type)] of rtos/control_task.c at uptime [T]. *)
Definition ControlTask_SendBleEvent (t : BleCtrlEventType_t) (T : Z)
    (g_bleCtrlQueue : BleCtrlQueue) : bool * BleCtrlQueue :=
  match g_bleCtrlQueue with
  | None => (false, g_bleCtrlQueue)
  | Some items =>
      let evt := mkBleCtrlEvent t (Time_GetMs T) in
      if decide (length items < BLE_CTRL_QUEUE_LENGTH)%nat
      then (true, Some (items ++ [evt]))
      else (false, g_bleCtrlQueue)
  end.

(** A character array read as a C string: the characters before the first
    NUL. *)
Fixpoint c_string (s : string) : string :=
  match s with
  | EmptyString => EmptyString
  | String c r => if Ascii.eqb c zero then EmptyString else String c (c_string r)
  end.

(** [strstr(haystack, needle) != NULL]. *)
Definition strstr_found (haystack needle : string) : bool :=
  match String.index 0 needle haystack with
  | Some _ => true
  | None => false
  end.

(** [customWriteCback(connId, handle, operation, offset, len, pValue, pAttr)]
    at uptime [T]: [pValue] holds the bytes written by the peer.  The return
    value is always [ATT_SUCCESS]; the result here is the control queue
    afterwards. *)
Definition customWriteCback (handle : Z) (len : Z) (pValue : string) (T : Z)
    (qu : BleCtrlQueue) : BleCtrlQueue :=
  if (handle =? CUSTOM_RX_HDL)%Z then
    if (len >? 0)%Z && (len <? CUSTOM_MAX_DATA_LEN)%Z then
      let tempBuf := c_string (substring 0 (Z.to_nat len) pValue) in
      if strstr_found tempBuf (Protocol.q "'cmd':'hr_done'"%string)
      then snd (ControlTask_SendBleEvent BLE_CTRL_EVT_HR_DONE T qu)
      else qu
    else qu
  else qu.

End BleManager.

(** ** comms/ble_tx.c (src/unnamed/part_003): the transmit task *)

Module BleTxTask.

Import Lifecycle Buffer Protocol BleManager.

(** The statics the task works on: the offline ring of storage/buffer.c,
    [s_wasConnected], [s_msgBuf], and the values notified so far. *)
Record Tx : Type := mkTx {
  ring : Ring;
  s_wasConnected : bool;
  s_msgBuf : string;
  notified : list string
}.

(** What one serialise-and-send meets: the workout module's state and the
    uptimes of the clock reads of [Protocol_SerializeEvent], the link and the
    answer of [AttsCccEnabled] at [DataSend]. *)
Record TxEnv : Type := mkTxEnv {
  tx_workout : Workout;
  tx_T1 : Z;
  tx_T2 : Z;
  tx_cb : BleCb;
  tx_ccc : bool
}.

(** [Protocol_SerializeEvent(&event, s_msgBuf, sizeof(s_msgBuf))]: the length
    returned and [s_msgBuf] afterwards. *)
Definition serialize (env : TxEnv) (event : WorkoutEvent_t) (msgBuf : string) : Z * string :=
  let r := Protocol_SerializeEvent (tx_workout env) (tx_T1 env) (tx_T2 env)
                                   (Some event) (Some msgBuf) PROTOCOL_MAX_MSG_LEN in
  (fst r, default msgBuf (snd r)).

(** [DataSend] on [s_msgBuf] and [len], the value notified appended to the
    log. *)
Definition send (env : TxEnv) (msgBuf : string) (len : Z) (log : list string)
    : bool * list string :=
  let d := DataSend msgBuf len (tx_cb env) (tx_ccc env) in
  (fst d, match snd d with Some v => log ++ [v] | None => log end).

(** The loop of [BleTx_FlushBuffer]; [envs k] is what the [k]-th pass
    meets, [fuel] bounds the number of passes. *)
Fixpoint flush_loop (fuel : nat) (envs : nat -> TxEnv) (k : nat) (count : Z) (tx : Tx)
    : Z * Tx :=
  match fuel with
  | O => (count, tx)
  | S fuel' =>
      match Buffer_Pop (ring tx) with
      | (None, b') => (count, mkTx b' (s_wasConnected tx) (s_msgBuf tx) (notified tx))
      | (Some event, b') =>
          let r := serialize (envs k) event (s_msgBuf tx) in
          let len := fst r in
          if len >? 0 then
            let d := send (envs k) (snd r) len (notified tx) in
            flush_loop fuel' envs (S k)
                       (if fst d then wrap8 (count + 1) else count)
                       (mkTx b' (s_wasConnected tx) (snd r) (snd d))
          else
            flush_loop fuel' envs (S k) count
                       (mkTx b' (s_wasConnected tx) (snd r) (notified tx))
      end
  end.

(** Every pass but the last pops an event, and the ring holds [s_count]
    of them. *)
Definition BleTx_FlushBuffer (envs : nat -> TxEnv) (tx : Tx) : Z * Tx :=
  flush_loop (S (Z.to_nat (s_count (ring tx)))) envs 0 0 tx.

(** The body of the loop of [BleTxTask] for a received event.  [connected]
    is the answer of [BLE_IsConnected()], [flush_envs] what the passes of a
    flush meet, [env] what the event's own serialise-and-send meets. *)
Definition BleTxTask_handle (event : WorkoutEvent_t) (connected : bool)
    (flush_envs : nat -> TxEnv) (env : TxEnv) (tx : Tx) : Tx :=
  let tx1 := if connected && negb (s_wasConnected tx)
             then snd (BleTx_FlushBuffer flush_envs tx) else tx in
  let tx2 := mkTx (ring tx1) connected (s_msgBuf tx1) (notified tx1) in
  let r := serialize env event (s_msgBuf tx2) in
  let len := fst r in
  let tx3 := mkTx (ring tx2) (s_wasConnected tx2) (snd r) (notified tx2) in
  if len >? 0 then
    if connected then
      let d := send env (snd r) len (notified tx3) in
      if fst d
      then mkTx (ring tx3) (s_wasConnected tx3) (s_msgBuf tx3) (snd d)
      else mkTx (snd (Buffer_Push (Some event) (ring tx3)))
                (s_wasConnected tx3) (s_msgBuf tx3) (snd d)
    else mkTx (snd (Buffer_Push (Some event) (ring tx3)))
              (s_wasConnected tx3) (s_msgBuf tx3) (notified tx3)
  else tx3.

(** The statics when the loop of [BleTxTask] is entered, [Tasks_Init] having
    called [Buffer_Init]. *)
Definition tx_start : Tx := mkTx Buffer_Init true EmptyString [].

End BleTxTask.

(** ** input/sensor_task.c (src/input/sensor_task.c): the simulated
       heart-rate samples ([SENSOR_SIMULATE_DATA] is 1) *)

Module SensorTask.

(** The fields [sensorSimulateSample] assigns.  The rate and the confidence
    it stores are at most 94 and fit every integer type, so no wrap-around
    is involved whatever widths the structure declares. *)
Record HrSample_t : Type := mkHrSample {
  bpm : Z;
  confidence : Z;
  valid : bool;
  hr_timestamp_ms : Z
}.

(** The statics [s_measurementActive] and [s_simSampleCount] ([uint8_t]). *)
Record Sensor : Type := mkSensor {
  s_measurementActive : bool;
  s_simSampleCount : Z
}.

Definition SensorTask_StartHrMeasurement (s : Sensor) : Sensor := mkSensor true 0.

(** [sensorSimulateSample(&sample)] at uptime [T]. *)
Definition sensorSimulateSample (T : Z) (s : Sensor) : HrSample_t * Sensor :=
  let count := wrap8 (s_simSampleCount s + 1) in
  let baseHr := 72 in
  let variation := count mod 7 - 3 in
  let sample :=
    if count mod 8 =? 0
    then mkHrSample (baseHr + variation) 45 false (Time_GetMs T)
    else mkHrSample (baseHr + variation) (85 + count mod 10) true (Time_GetMs T) in
  (sample, mkSensor (s_measurementActive s) count).

(** The samples of consecutive passes of the sampling loop of
    [SensorTask_Run], taken at the given uptimes. *)
Fixpoint samples (Ts : list Z) (s : Sensor) : list HrSample_t :=
  match Ts with
  | [] => []
  | T :: Ts' =>
      let r := sensorSimulateSample T s in
      fst r :: samples Ts' (snd r)
  end.

End SensorTask.

(** * Specification vocabulary *)

Module LifecycleSpec.

Import Lifecycle.

(** The (operation, state) pairs the lifecycle rejects. *)
Definition invalid_in (o : Op) (st : WorkoutState_t) : Prop :=
  match o with
  | OpSetMode _ | OpCycleMode => st <> STATE_IDLE
  | OpStart => st = STATE_RUNNING \/ st = STATE_COMPLETED
  | OpRecordLap | OpPause => st <> STATE_RUNNING
  | OpStop => st = STATE_IDLE \/ st = STATE_COMPLETED
  | OpReset => False
  end.

(** A slot of [laps] is populated once [Workout_RecordLap] has written it:
    lap numbers are 1-based, and [memset] leaves 0. *)
Definition populated (l : LapRecord_t) : Prop := lap_number l <> 0.

(** Exactly the slots with index below [n] are populated. *)
Definition populated_below (n : Z) (ls : list LapRecord_t) : Prop :=
  forall (i : nat) (l : LapRecord_t),
    ls !! i = Some l -> (populated l <-> Z.of_nat i < n).

(** The session layout as the data model words it. *)
Definition claimed_layout (w : Workout) : Prop :=
  let s := s_session w in
  (state s = STATE_RUNNING \/ state s = STATE_PAUSED ->
   1 <= current_lap s <= total_laps (config s)) /\
  populated_below
    (if decide (state s = STATE_COMPLETED) then total_laps (config s)
     else current_lap s - 1)
    (laps s).

(** The layout the code maintains: a session ended by [Workout_Stop] is
    [STATE_COMPLETED] with the lap in progress never recorded. *)
Definition lap_layout (w : Workout) : Prop :=
  let s := s_session w in
  length (laps s) = MAX_LAPS /\
  1 <= total_laps (config s) <= Z.of_nat MAX_LAPS /\
  match state s with
  | STATE_IDLE => current_lap s = 0 /\ populated_below 0 (laps s)
  | STATE_RUNNING | STATE_PAUSED =>
      1 <= current_lap s <= total_laps (config s) /\
      populated_below (current_lap s - 1) (laps s)
  | STATE_COMPLETED =>
      1 <= current_lap s <= total_laps (config s) /\
      (populated_below (current_lap s - 1) (laps s) \/
       (current_lap s = total_laps (config s) /\
        populated_below (total_laps (config s)) (laps s)))
  | STATE_REST => False
  end.

(** The slot [Workout_RecordLap] writes lies inside [laps]. *)
Definition write_in_bounds (w : Workout) : Prop :=
  wrap8 (current_lap (s_session w) - 1) = current_lap (s_session w) - 1 /\
  (Z.to_nat (wrap8 (current_lap (s_session w) - 1)) < length (laps (s_session w)))%nat.

(** A script that records one lap at each of the given uptimes. *)
Definition lap_script (Ts : list Z) : list (Z * Op) :=
  map (fun T => (T, OpRecordLap)) Ts.

(** The calls that can be made within one session: every call but
    [Workout_Reset], which discards the session. *)
Definition within_session (o : Op) : Prop := o <> OpReset.

(** The uptimes of the [Workout_RecordLap] calls of a script that are made
    while the session is [STATE_RUNNING]. *)
Fixpoint laps_while_running (tr : list (Z * Op)) (w : Workout) : list Z :=
  match tr with
  | [] => []
  | (T, o) :: tr' =>
      let rest := laps_while_running tr' (snd (exec o T w)) in
      match o with
      | OpRecordLap =>
          if decide (Workout_GetState w = STATE_RUNNING) then T :: rest else rest
      | _ => rest
      end
  end.

(** Split times of the laps of the configured mode, in lap order. *)
Definition splits (w : Workout) : list Z :=
  map split_time_ms
      (take (Z.to_nat (total_laps (config (s_session w)))) (laps (s_session w))).

(** Non-decreasing sequences. *)
Fixpoint nondecreasing (l : list Z) : Prop :=
  match l with
  | [] => True
  | x :: l' => match l' with [] => True | y :: _ => x <= y end /\ nondecreasing l'
  end.

(** The scripts of the elapsed-time properties use these three calls only. *)
Definition start_pause_stop (o : Op) : Prop :=
  o = OpStart \/ o = OpPause \/ o = OpStop.

(** The uptime of the first [Workout_Start] of a script; from boot, that is
    the call which begins the session. *)
Fixpoint first_start (tr : list (Z * Op)) : option Z :=
  match tr with
  | [] => None
  | (T, OpStart) :: _ => Some T
  | _ :: tr' => first_start tr'
  end.

(** *** The stopwatch of section 4.1, over unbounded integers

    The lifecycle's timing as the design words it, without wrap-around:
    the uptime at which the session started, the cumulative paused time and
    the uptime at which the pause in progress began. *)
Record Stopwatch : Type := mkStopwatch {
  sw_state : WorkoutState_t;
  sw_start : Z;
  sw_paused : Z;
  sw_pause_at : Z
}.

Definition sw_init : Stopwatch := mkStopwatch STATE_IDLE 0 0 0.

Definition sw_step (o : Op) (T : Z) (g : Stopwatch) : Stopwatch :=
  match o, sw_state g with
  | OpStart, STATE_IDLE => mkStopwatch STATE_RUNNING T 0 (sw_pause_at g)
  | OpStart, STATE_PAUSED =>
      mkStopwatch STATE_RUNNING (sw_start g) (sw_paused g + (T - sw_pause_at g)) (sw_pause_at g)
  | OpPause, STATE_RUNNING => mkStopwatch STATE_PAUSED (sw_start g) (sw_paused g) T
  | OpStop, STATE_RUNNING | OpStop, STATE_PAUSED =>
      mkStopwatch STATE_COMPLETED (sw_start g) (sw_paused g) (sw_pause_at g)
  | _, _ => g
  end.

Fixpoint sw_run (tr : list (Z * Op)) (g : Stopwatch) : Stopwatch :=
  match tr with
  | [] => g
  | (T, o) :: tr' => sw_run tr' (sw_step o T g)
  end.

(** Elapsed workout time: [0] if idle, else [now - start - paused], further
    reduced by the pause in progress. *)
Definition sw_elapsed (T : Z) (g : Stopwatch) : Z :=
  match sw_state g with
  | STATE_IDLE => 0
  | STATE_PAUSED => (T - sw_start g - sw_paused g) - (T - sw_pause_at g)
  | _ => T - sw_start g - sw_paused g
  end.

(** The module state [w] holds the stopwatch [g], reduced modulo 2^32; the
    unused [STATE_REST] is not a stopwatch state. *)
Definition refines (g : Stopwatch) (w : Workout) : Prop :=
  sw_state g = state (s_session w) /\
  sw_state g <> STATE_REST /\
  workout_start_ms (s_session w) = wrap32 (sw_start g) /\
  s_totalPausedMs w = wrap32 (sw_paused g) /\
  s_pauseStartMs w = wrap32 (sw_pause_at g).

(** What holds of the stopwatch when its last call was made no later than
    uptime [Tl]. *)
Definition sw_ok (Tl : Z) (g : Stopwatch) : Prop :=
  match sw_state g with
  | STATE_RUNNING => 0 <= sw_paused g /\ sw_start g + sw_paused g <= Tl
  | STATE_PAUSED =>
      0 <= sw_paused g /\ sw_start g + sw_paused g <= sw_pause_at g <= Tl
  | _ => True
  end.

Definition sw_active (g : Stopwatch) : Prop :=
  sw_state g = STATE_RUNNING \/ sw_state g = STATE_PAUSED.

End LifecycleSpec.

Module BufferSpec.

Import Buffer.

(** The slot of the ring at index [i]. *)
Definition slot (b : Ring) (i : Z) : WorkoutEvent_t :=
  default event_zero (s_buffer b !! Z.to_nat i).

(** The events a ring holds, oldest first: [s_count] slots starting at
    [s_tail], wrapping around the end of the array. *)
Definition contents (b : Ring) : list WorkoutEvent_t :=
  map (fun k : nat => slot b ((s_tail b + Z.of_nat k) mod BUFFER_MAX_EVENTS))
      (seq 0 (Z.to_nat (s_count b))).

(** The indices stay inside the array and [s_head] runs [s_count] slots ahead
    of [s_tail]. *)
Definition ring_ok (b : Ring) : Prop :=
  length (s_buffer b) = Z.to_nat BUFFER_MAX_EVENTS /\
  0 <= s_tail b < BUFFER_MAX_EVENTS /\
  0 <= s_count b <= BUFFER_MAX_EVENTS /\
  s_head b = (s_tail b + s_count b) mod BUFFER_MAX_EVENTS.

(** The last [n] elements of a list (all of it if it is shorter). *)
Definition keep_last {A : Type} (n : nat) (l : list A) : list A :=
  drop (length l - n) l.

(** Rings the transmit task can meet after [Buffer_Init]. *)
Inductive reachable : Ring -> Prop :=
  | ring_init : reachable Buffer_Init
  | ring_push e b : reachable b -> reachable (snd (Buffer_Push (Some e) b))
  | ring_pop b : reachable b -> reachable (snd (Buffer_Pop b))
  | ring_clear b : reachable b -> reachable (Buffer_Clear b).

End BufferSpec.

Module BufferExamples.

(** The events numbered [1..n], told apart by their timestamps. *)
Definition numbered_events (n : nat) : list WorkoutEvent_t :=
  map (fun i : nat => mkEvent EVENT_STATUS_UPDATE (Z.of_nat i) 0 lap_zero) (seq 1 n).

End BufferExamples.

Module ControlSpec.

Import Lifecycle BleTx Control.

(** How the coordinator's state and the lifecycle's state go together. *)
Definition ctrl_inv (c : Ctrl) : Prop :=
  match s_currentState c with
  | CTRL_STATE_IDLE => Workout_GetState (workout c) = STATE_IDLE
  | CTRL_STATE_RUNNING =>
      Workout_GetState (workout c) = STATE_RUNNING \/
      Workout_GetState (workout c) = STATE_PAUSED
  | CTRL_STATE_HR_MEASUREMENT =>
      Workout_GetState (workout c) = STATE_PAUSED /\ active (s_hrWait c) = true
  end.

(** Surroundings in which every clock read of a handler happens at uptime
    [T] and the link is up. *)
Definition at_time (T : Z) : Env := mkEnv (fun _ => T) true.

(** A pass of the loop at uptime [T] that receives the given events. *)
Definition pass (T : Z) (b : option ButtonEventType_t) (l : option BleCtrlEventType_t)
    : Iteration :=
  mkIteration (option_map (fun t => mkButtonEvent t T) b) (at_time T)
              (option_map (fun t => mkBleCtrlEvent t T) l) (at_time T)
              T (at_time T).

(** The coordinator after a successful boot with an empty transmission
    queue. *)
Definition booted : Ctrl := snd (ControlTask_Init true (boot (Some []))).

(** Boot, [Start] button at 0 ms, [Lap] button at 1000 ms: the coordinator
    waits for the heart-rate confirmation. *)
Definition lap_pressed : Ctrl :=
  ControlTask_Run [pass 0 (Some BTN_START) None; pass 1000 (Some BTN_LAP) None] booted.

(** The number of events waiting in the transmission queue. *)
Definition queued (c : Ctrl) : nat :=
  match g_eventQueue c with
  | Some items => length items
  | None => 0%nat
  end.

End ControlSpec.

Module ProtocolSpec.

Import Lifecycle Protocol.

Local Open Scope string_scope.

(** *** Decimal notation *)

Definition is_digit (c : ascii) : Prop := (48 <= nat_of_ascii c <= 57)%nat.

Fixpoint all_digits (s : string) : Prop :=
  match s with
  | EmptyString => True
  | String c r => is_digit c /\ all_digits r
  end.

(** The number a string of digits denotes in base 10. *)
Fixpoint dec_value (s : string) : Z :=
  match s with
  | EmptyString => 0
  | String c r =>
      (Z.of_nat (nat_of_ascii c) - 48) * 10 ^ Z.of_nat (String.length r) + dec_value r
  end.

(** No zero padding: the only numeral that starts with the digit 0 is the
    numeral 0 itself. *)
Definition unpadded (s : string) : Prop :=
  s = "0" \/ exists c r, s = String c r /\ c <> "0"%char.

(** [s] is the plain base-10 numeral of the non-negative number [n]. *)
Definition decimal_of (n : Z) (s : string) : Prop :=
  0 <= n /\ all_digits s /\ unpadded s /\ dec_value s = n.

(** *** Wire records of section 6 *)

Inductive Field : Type :=
  | FText (s : string)
  | FNumber (n : Z).

Definition dq : string := String (ascii_of_nat 34) EmptyString.

Definition render_field (f : Field) : string :=
  match f with
  | FText s => dq ++ s ++ dq
  | FNumber n => utoa n
  end.

Definition render_member (m : string * Field) : string :=
  dq ++ fst m ++ dq ++ ":" ++ render_field (snd m).

Fixpoint render_members (ms : list (string * Field)) : string :=
  match ms with
  | [] => EmptyString
  | m :: ms' =>
      match ms' with
      | [] => render_member m
      | _ :: _ => render_member m ++ "," ++ render_members ms'
      end
  end.

(** A record on the wire: the members in order, comma-separated, in braces. *)
Definition render (ms : list (string * Field)) : string :=
  "{" ++ render_members ms ++ "}".

Definition mode_name (m : WorkoutMode_t) : string :=
  match m with
  | MODE_4x500M => "4x500m"
  | MODE_5x1000M => "5x1000m"
  | MODE_2x2000M => "2x2000m"
  | MODE_1x4000M => "1x4000m"
  end.

Definition state_name (st : WorkoutState_t) : string :=
  match st with
  | STATE_IDLE => "IDLE"
  | STATE_RUNNING => "RUNNING"
  | STATE_REST => "REST"
  | STATE_PAUSED => "PAUSED"
  | STATE_COMPLETED => "COMPLETED"
  end.

Definition u32 (n : Z) : Prop := 0 <= n < 2 ^ 32.

(** The record section 6 prescribes for an event, given the session the
    mode, the lap total and the state name are taken from.  The [Stop]
    record's [total_ms] and the [StatusUpdate] record's [elapsed_ms] are
    only required to be 32-bit values. *)
Inductive wire_record (s : WorkoutSession_t) (e : WorkoutEvent_t)
    : list (string * Field) -> Prop :=
  | wire_start :
      type e = EVENT_WORKOUT_START ->
      wire_record s e
        [("event", FText "start"); ("mode", FText (mode_name (mode (config s))));
         ("laps", FNumber (total_laps (config s))); ("ts", FNumber (timestamp_ms e))]
  | wire_lap :
      type e = EVENT_LAP_COMPLETE ->
      wire_record s e
        [("event", FText "lap"); ("lap", FNumber (lap_number (lap_data e)));
         ("lap_ms", FNumber (lap_time_ms (lap_data e)));
         ("split_ms", FNumber (split_time_ms (lap_data e)));
         ("ts", FNumber (timestamp_ms e))]
  | wire_stop total :
      type e = EVENT_WORKOUT_STOP -> u32 total ->
      wire_record s e
        [("event", FText "stop"); ("laps", FNumber (ev_current_lap e));
         ("total_ms", FNumber total); ("ts", FNumber (timestamp_ms e))]
  | wire_done :
      type e = EVENT_WORKOUT_DONE ->
      wire_record s e
        [("event", FText "done"); ("laps", FNumber (total_laps (config s)));
         ("total_ms", FNumber (split_time_ms (lap_data e)));
         ("ts", FNumber (timestamp_ms e))]
  | wire_status elapsed :
      type e = EVENT_STATUS_UPDATE -> u32 elapsed ->
      wire_record s e
        [("event", FText "status"); ("state", FText (state_name (state s)));
         ("lap", FNumber (ev_current_lap e)); ("elapsed_ms", FNumber elapsed)].

(** Every number of a record is written as its plain base-10 numeral. *)
Definition numbers_plain (ms : list (string * Field)) : Prop :=
  Forall (fun m => match snd m with
                   | FNumber n => decimal_of n (render_field (FNumber n))
                   | FText _ => True
                   end) ms.

(** The fields of an event hold values of their C types. *)
Definition event_in_range (e : WorkoutEvent_t) : Prop :=
  u32 (timestamp_ms e) /\
  0 <= ev_current_lap e < 2 ^ 8 /\
  0 <= lap_number (lap_data e) < 2 ^ 8 /\
  u32 (lap_time_ms (lap_data e)) /\
  u32 (split_time_ms (lap_data e)).

(** What [Protocol_SerializeEvent] reads of the workout module for an event
    of kind [t]: two module states, each with the uptimes of its clock reads,
    agree on it. *)
Definition agree_for (t : EventType_t)
    (w1 : Workout) (T1 T2 : Z) (w2 : Workout) (T1' T2' : Z) : Prop :=
  match t with
  | EVENT_LAP_COMPLETE => True
  | EVENT_WORKOUT_START =>
      mode (config (s_session w1)) = mode (config (s_session w2)) /\
      total_laps (config (s_session w1)) = total_laps (config (s_session w2))
  | EVENT_WORKOUT_DONE =>
      total_laps (config (s_session w1)) = total_laps (config (s_session w2))
  | EVENT_WORKOUT_STOP =>
      workout_start_ms (s_session w1) = workout_start_ms (s_session w2)
  | EVENT_STATUS_UPDATE =>
      state (s_session w1) = state (s_session w2) /\
      Workout_GetElapsedMs T1 T2 w1 = Workout_GetElapsedMs T1' T2' w2
  end.

(** Scenario A's last lap as a [LapComplete] event, and a [Start] event. *)
Definition lap_event : WorkoutEvent_t :=
  mkEvent EVENT_LAP_COMPLETE 5200 4 (mkLap 4 1200 5200).

Definition start_event : WorkoutEvent_t :=
  mkEvent EVENT_WORKOUT_START 0 1 lap_zero.

End ProtocolSpec.

(** * Vocabulary for the remaining modules *)

Module CodecSpec.

Import Lifecycle Protocol.

Local Open Scope string_scope.

(** The text [Protocol_SerializeEvent] hands to [snprintf] for an event. *)
Definition expansion (w : Workout) (T1 T2 : Z) (e : WorkoutEvent_t) : string :=
  let session := Workout_GetSession w in
  match type e with
  | EVENT_WORKOUT_START =>
      format (q "{'event':'start','mode':'%s','laps':%d,'ts':%lu}")
        [ArgS (Workout_ModeToString (mode (config session)));
         ArgD (total_laps (config session));
         ArgLU (timestamp_ms e)]
  | EVENT_LAP_COMPLETE =>
      format (q "{'event':'lap','lap':%d,'lap_ms':%lu,'split_ms':%lu,'ts':%lu}")
        [ArgD (lap_number (lap_data e));
         ArgLU (lap_time_ms (lap_data e));
         ArgLU (split_time_ms (lap_data e));
         ArgLU (timestamp_ms e)]
  | EVENT_WORKOUT_STOP =>
      format (q "{'event':'stop','laps':%d,'total_ms':%lu,'ts':%lu}")
        [ArgD (ev_current_lap e);
         ArgLU (wrap32 (timestamp_ms e - workout_start_ms session));
         ArgLU (timestamp_ms e)]
  | EVENT_WORKOUT_DONE =>
      format (q "{'event':'done','laps':%d,'total_ms':%lu,'ts':%lu}")
        [ArgD (total_laps (config session));
         ArgLU (split_time_ms (lap_data e));
         ArgLU (timestamp_ms e)]
  | EVENT_STATUS_UPDATE =>
      format (q "{'event':'status','state':'%s','lap':%d,'elapsed_ms':%lu}")
        [ArgS (Workout_StateToString (state session));
         ArgD (ev_current_lap e);
         ArgLU (Workout_GetElapsedMs T1 T2 w)]
  end.

End CodecSpec.

Module RingSpec.

Import Buffer BufferSpec.

(** The calls of the buffer's interface and what they return. *)
Inductive RingCall : Type :=
  | CallPush (e : WorkoutEvent_t)
  | CallPushNull
  | CallPop
  | CallGetCount
  | CallIsEmpty
  | CallClear.

Inductive RingResult : Type :=
  | RetBool (r : bool)
  | RetEvent (r : option WorkoutEvent_t)
  | RetCount (n : Z)
  | RetVoid.

Definition call (c : RingCall) (b : Ring) : RingResult * Ring :=
  match c with
  | CallPush e => let r := Buffer_Push (Some e) b in (RetBool (fst r), snd r)
  | CallPushNull => let r := Buffer_Push None b in (RetBool (fst r), snd r)
  | CallPop => let r := Buffer_Pop b in (RetEvent (fst r), snd r)
  | CallGetCount => (RetCount (Buffer_GetCount b), b)
  | CallIsEmpty => (RetBool (Buffer_IsEmpty b), b)
  | CallClear => (RetVoid, Buffer_Clear b)
  end.

(** The results of a sequence of calls, and the ring they leave. *)
Fixpoint calls (cs : list RingCall) (b : Ring) : list RingResult * Ring :=
  match cs with
  | [] => ([], b)
  | c :: cs' =>
      let r := call c b in
      let rs := calls cs' (snd r) in
      (fst r :: fst rs, snd rs)
  end.

(** The same interface on a plain list, oldest event first: a queue of at
    most [BUFFER_MAX_EVENTS] events that gives up its oldest event to a push
    when full. *)
Definition queue_call (c : RingCall) (l : list WorkoutEvent_t)
    : RingResult * list WorkoutEvent_t :=
  match c with
  | CallPush e =>
      (RetBool (bool_decide (length l < Z.to_nat BUFFER_MAX_EVENTS)%nat),
       keep_last (Z.to_nat BUFFER_MAX_EVENTS) (l ++ [e]))
  | CallPushNull => (RetBool false, l)
  | CallPop => (RetEvent (head l), tail l)
  | CallGetCount => (RetCount (Z.of_nat (length l)), l)
  | CallIsEmpty => (RetBool (match l with [] => true | _ :: _ => false end), l)
  | CallClear => (RetVoid, [])
  end.

Fixpoint queue_calls (cs : list RingCall) (l : list WorkoutEvent_t)
    : list RingResult * list WorkoutEvent_t :=
  match cs with
  | [] => ([], l)
  | c :: cs' =>
      let r := queue_call c l in
      let rs := queue_calls cs' (snd r) in
      (fst r :: fst rs, snd rs)
  end.

End RingSpec.

Module LedgerSpec.

Import Lifecycle.

(** The laps completed so far in a session that is in progress: the slots
    below the current lap. *)
Definition recorded (w : Workout) : list LapRecord_t :=
  take (Z.to_nat (current_lap (s_session w) - 1)) (laps (s_session w)).

Definition sum_lap_times (ls : list LapRecord_t) : Z :=
  foldr (fun l acc => lap_time_ms l + acc) 0 ls.

(** Lap numbers count from 1 in array order. *)
Definition numbered_from_one (ls : list LapRecord_t) : Prop :=
  forall (i : nat) (l : LapRecord_t), ls !! i = Some l -> lap_number l = Z.of_nat i + 1.

(** While a session is in progress, the time from the start of the workout
    to the start of the current lap is the sum of the lap times recorded,
    modulo 2^32. *)
Definition lap_ledger (w : Workout) : Prop :=
  let s := s_session w in
  match state s with
  | STATE_RUNNING | STATE_PAUSED =>
      wrap32 (lap_start_ms s - workout_start_ms s) = wrap32 (sum_lap_times (recorded w)) /\
      numbered_from_one (recorded w)
  | _ => True
  end.

(** The configuration [setModeConfig] installs for a mode. *)
Definition config_of_mode (m : WorkoutMode_t) : WorkoutConfig_t :=
  config (setModeConfig m session_zero).

(** The mode [k] presses of the mode button after [m]. *)
Definition mode_after (k : nat) (m : WorkoutMode_t) : WorkoutMode_t :=
  mode_of_Z ((mode_to_Z m + Z.of_nat k) mod 4).

(** A script that cycles the mode at each of the given uptimes. *)
Definition cycle_script (Ts : list Z) : list (Z * Op) :=
  map (fun T => (T, OpCycleMode)) Ts.

End LedgerSpec.

Module CoordinatorSpec.

Import Lifecycle BleTx Control.

(** The wait flag is set exactly in the measurement state, and the lifecycle
    has no lap on record and is not completed. *)
Definition nothing_recorded (c : Ctrl) : Prop :=
  (active (s_hrWait c) = true <-> s_currentState c = CTRL_STATE_HR_MEASUREMENT) /\
  laps (s_session (workout c)) = replicate MAX_LAPS lap_zero /\
  current_lap (s_session (workout c)) <= 1 /\
  Workout_GetState (workout c) <> STATE_COMPLETED.

(** A step from [c] to [c'] that keeps [nothing_recorded], leaves the
    transmission queue alone and does not return to the idle state. *)
Definition quiet_step (c c' : Ctrl) : Prop :=
  (nothing_recorded c -> nothing_recorded c') /\
  g_eventQueue c' = g_eventQueue c /\
  (s_currentState c <> CTRL_STATE_IDLE -> s_currentState c' <> CTRL_STATE_IDLE).

End CoordinatorSpec.

Module SessionSpec.

Import Lifecycle BleTx Control WorkoutControl.

(** The control task with the transmit task keeping up: what the handling
    of a button event queued is taken off the queue before the next button
    event is handled.  The result lists the events taken off, in order. *)
Fixpoint ControlTask_drained (btns : list (ButtonEvent_t * (nat -> Z))) (s : Sys)
    : list WorkoutEvent_t * Sys :=
  match btns with
  | [] => ([], s)
  | (btn, clk) :: btns' =>
      let s1 := ControlTask_handle btn clk s in
      let r := ControlTask_drained btns' (mkSys (wk s1) (Some [])) in
      (default [] (tx_queue s1) ++ fst r, snd r)
  end.

(** A button pressed and handled at uptime [T]. *)
Definition press (t : ButtonEventType_t) (T : Z) : ButtonEvent_t * (nat -> Z) :=
  (mkButtonEvent t (Time_GetMs T), fun _ => T).

Definition lap_presses (Ts : list Z) : list (ButtonEvent_t * (nat -> Z)) :=
  map (press BTN_LAP) Ts.

End SessionSpec.

Module LinkSpec.

Import Control BleManager.

(** The text [customWriteCback] looks for. *)
Definition hr_done_marker : string := Protocol.q "'cmd':'hr_done'"%string.

(** [needle] occurs in [s] at some position. *)
Definition occurs (needle s : string) : Prop :=
  exists m : nat, substring m (String.length needle) s = needle.

(** The link accepts a notification: connected, with a connection id, and
    notifications enabled by the peer. *)
Definition link_up (cb : BleCb) (ccc : bool) : bool :=
  bleCb_connected cb && negb (bleCb_connId cb =? DM_CONN_ID_NONE) && ccc.

End LinkSpec.

Module TxSpec.

Import Lifecycle Buffer Protocol BleManager BleTxTask CodecSpec LinkSpec.

(** The record of an event as the serializer writes it in the surroundings
    [env]. *)
Definition wire_text (env : TxEnv) (e : WorkoutEvent_t) : string :=
  expansion (tx_workout env) (tx_T1 env) (tx_T2 env) e.

(** The record fits [s_msgBuf]. *)
Definition fits (env : TxEnv) (e : WorkoutEvent_t) : bool :=
  Z.of_nat (String.length (wire_text env e)) <? PROTOCOL_MAX_MSG_LEN.

(** The record fits and the link takes it. *)
Definition accepted (env : TxEnv) (e : WorkoutEvent_t) : bool :=
  fits env e && link_up (tx_cb env) (tx_ccc env).

(** What a flush of the events [es] notifies, pass [k] being the first. *)
Fixpoint flush_sent (envs : nat -> TxEnv) (k : nat) (es : list WorkoutEvent_t)
    : list string :=
  match es with
  | [] => []
  | e :: es' =>
      (if accepted (envs k) e then [wire_text (envs k) e] else [])
      ++ flush_sent envs (S k) es'
  end.

End TxSpec.

Module TxTaskSpec.

Import Buffer BleTxTask.

(** The task's statics once the reconnection flush of [BleTxTask], if one is
    due, is done. *)
Definition after_flush (connected : bool) (flush_envs : nat -> TxEnv) (tx : Tx) : Tx :=
  if connected && negb (s_wasConnected tx)
  then snd (BleTx_FlushBuffer flush_envs tx) else tx.

End TxTaskSpec.

Module ButtonSpec.

Import Control Buttons Max7325.

(** The button on port line [bit] went from released (level 1) to pressed
    (level 0). *)
Definition newly_pressed (bit : Z) (current previous : Z) : bool :=
  Z.testbit previous bit && negb (Z.testbit current bit).

(** The events of the buttons newly pressed: START on line 0, LAP on line 1,
    STOP on line 2, in this order, each stamped with its own clock read. *)
Definition press_events (current previous : Z) (clk : nat -> Z) : list ButtonEvent_t :=
  (if newly_pressed 0 current previous
   then [mkButtonEvent BTN_START (Time_GetMs (clk 0%nat))] else [])
  ++ (if newly_pressed 1 current previous
      then [mkButtonEvent BTN_LAP (Time_GetMs (clk 1%nat))] else [])
  ++ (if newly_pressed 2 current previous
      then [mkButtonEvent BTN_STOP (Time_GetMs (clk 2%nat))] else []).

(** The polling state once the level [x] is accepted as stable. *)
Definition settled (x : Z) : Poll := mkPoll x DEBOUNCE_COUNT x.

(** Polls that all read the level [x]. *)
Definition steady (x : Z) (clks : list (nat -> Z)) : list (Z * (nat -> Z)) :=
  map (fun clk => (x, clk)) clks.

End ButtonSpec.

(** * Machine integers *)

Lemma wrap32_range z : 0 <= wrap32 z < 2 ^ 32.
Proof. unfold wrap32. apply Z.mod_pos_bound. lia. Qed.

Lemma wrap32_small z : 0 <= z < 2 ^ 32 -> wrap32 z = z.
Proof. intros H. unfold wrap32. apply Z.mod_small. exact H. Qed.

Lemma wrap8_small z : 0 <= z < 2 ^ 8 -> wrap8 z = z.
Proof. intros H. unfold wrap8. apply Z.mod_small. exact H. Qed.

Lemma wrap32_idem z : wrap32 (wrap32 z) = wrap32 z.
Proof. unfold wrap32. apply Z.mod_mod. lia. Qed.

Lemma wrap32_sub_l a b : wrap32 (wrap32 a - b) = wrap32 (a - b).
Proof. unfold wrap32. apply Zminus_mod_idemp_l. Qed.

Lemma wrap32_sub_r a b : wrap32 (a - wrap32 b) = wrap32 (a - b).
Proof. unfold wrap32. apply Zminus_mod_idemp_r. Qed.

Lemma wrap32_add_l a b : wrap32 (wrap32 a + b) = wrap32 (a + b).
Proof. unfold wrap32. apply Zplus_mod_idemp_l. Qed.

Lemma wrap32_add_r a b : wrap32 (a + wrap32 b) = wrap32 (a + b).
Proof. unfold wrap32. apply Zplus_mod_idemp_r. Qed.

(** Split the conjunctions of a goal without unfolding any definition. *)
Ltac split_ands := repeat match goal with |- _ /\ _ => split end.

(** Goals that compare nested reductions modulo 2^32: name every quotient
    and remainder and leave the rest to linear arithmetic. *)
Ltac wrap32_lia :=
  unfold Time_GetMs, wrap32; Z.div_mod_to_equations; lia.

(** * The workout lifecycle *)

Module LifecycleFacts.

Import Lifecycle LifecycleSpec.

(** ** Rejected calls *)

(** C4.  Every lifecycle call made in a state where it is invalid ([SetMode]
    or [CycleMode] outside [STATE_IDLE], [Start] while running or completed,
    [RecordLap] or [Pause] outside [STATE_RUNNING], [Stop] while idle or
    completed) returns [false] and leaves the session and both pause
    accumulators exactly as they were. *)
Theorem invalid_call_changes_nothing (o : Op) (T : Z) (w : Workout) :
  invalid_in o (Workout_GetState w) -> exec o T w = (false, w).
Proof.
  unfold Workout_GetState.
  destruct o; simpl; intros Hbad.
  - unfold Workout_SetMode. destruct (decide _) as [_ | Hn]; [reflexivity | contradiction].
  - unfold Workout_CycleMode. destruct (decide _) as [_ | Hn]; [reflexivity | contradiction].
  - unfold Workout_Start. destruct Hbad as [-> | ->]; reflexivity.
  - unfold Workout_RecordLap. destruct (decide _) as [_ | Hn]; [reflexivity | contradiction].
  - unfold Workout_Pause. destruct (decide _) as [_ | Hn]; [reflexivity | contradiction].
  - unfold Workout_Stop. destruct (decide _) as [_ | Hn]; [reflexivity | contradiction].
  - contradiction.
Qed.

Lemma invalid_call_changes_nothing_witness :
  invalid_in OpRecordLap
    (Workout_GetState (snd (Workout_Pause 1500 (snd (Workout_Start 1000 Workout_Init))))) /\
  exec OpRecordLap 2000 (snd (Workout_Pause 1500 (snd (Workout_Start 1000 Workout_Init))))
  = (false, snd (Workout_Pause 1500 (snd (Workout_Start 1000 Workout_Init)))).
Proof.
  split.
  - simpl. discriminate.
  - apply invalid_call_changes_nothing. simpl. discriminate.
Defined.

(** ** The layout of [laps] *)

Lemma populated_below_replicate n :
  populated_below 0 (replicate n lap_zero).
Proof.
  intros i l Hl. apply lookup_replicate in Hl as [-> _].
  unfold populated; simpl. split; [congruence | lia].
Qed.

Lemma populated_below_insert (c : Z) (l : LapRecord_t) (ls : list LapRecord_t) :
  1 <= c -> (Z.to_nat (c - 1) < length ls)%nat -> populated l ->
  populated_below (c - 1) ls ->
  populated_below c (<[Z.to_nat (c - 1) := l]> ls).
Proof.
  intros Hc Hlen Hl Hbelow i l' Hi.
  destruct (decide (i = Z.to_nat (c - 1))) as [-> | Hne].
  - rewrite list_lookup_insert_eq in Hi by exact Hlen.
    injection Hi as <-. split; [lia | auto].
  - rewrite list_lookup_insert_ne in Hi by congruence.
    rewrite (Hbelow i l' Hi). lia.
Qed.

Lemma setModeConfig_fields m s :
  state (setModeConfig m s) = state s /\
  current_lap (setModeConfig m s) = current_lap s /\
  laps (setModeConfig m s) = laps s /\
  mode (config (setModeConfig m s)) = m /\
  1 <= total_laps (config (setModeConfig m s)) <= Z.of_nat MAX_LAPS.
Proof. destruct m; simpl; unfold MAX_LAPS; repeat split; lia. Qed.

Lemma lap_layout_init : lap_layout Workout_Init.
Proof.
  unfold lap_layout. cbn [Workout_Init s_session].
  split; [reflexivity |]. split; [simpl; unfold MAX_LAPS; lia |].
  split; [reflexivity |]. apply (populated_below_replicate MAX_LAPS).
Qed.

Lemma lap_layout_reset w : lap_layout (Workout_Reset w).
Proof.
  unfold lap_layout, Workout_Reset. cbn [s_session].
  destruct (setModeConfig_fields (mode (config (s_session w)))
              (set_state STATE_IDLE session_zero)) as (-> & -> & -> & _ & Htl).
  split; [reflexivity |]. split; [exact Htl |].
  split; [reflexivity |]. apply (populated_below_replicate MAX_LAPS).
Qed.

Lemma lap_layout_setmode m w :
  lap_layout w -> lap_layout (snd (Workout_SetMode m w)).
Proof.
  intros Hw. unfold Workout_SetMode.
  destruct (decide _) as [Hn | Hidle]; [exact Hw |].
  apply dec_stable in Hidle.
  revert Hw. unfold lap_layout. cbn [snd s_session].
  destruct (setModeConfig_fields m (s_session w)) as (-> & -> & -> & _ & Htl).
  rewrite Hidle. intuition.
Qed.

Lemma lap_layout_cyclemode w :
  lap_layout w -> lap_layout (snd (Workout_CycleMode w)).
Proof.
  intros Hw. unfold Workout_CycleMode.
  destruct (decide _) as [Hn | Hidle]; [exact Hw |].
  apply dec_stable in Hidle.
  revert Hw. unfold lap_layout. cbn [snd s_session].
  destruct (setModeConfig_fields
              (mode_of_Z ((mode_to_Z (mode (config (s_session w))) + 1) mod 4))
              (s_session w)) as (-> & -> & -> & _ & Htl).
  rewrite Hidle. intuition.
Qed.

Lemma lap_layout_start T w :
  lap_layout w -> lap_layout (snd (Workout_Start T w)).
Proof.
  unfold lap_layout, Workout_Start.
  destruct (state (s_session w)) eqn:Hst; simpl; rewrite ?Hst; try tauto.
  intros (Hlen & Htl & Hcur & Hpop). split_ands; try lia.
  replace (1 - 1) with 0 by lia. exact Hpop.
Qed.

Lemma lap_layout_pause T w :
  lap_layout w -> lap_layout (snd (Workout_Pause T w)).
Proof.
  intros Hw. unfold Workout_Pause.
  destruct (decide _) as [Hn | Hrun]; [exact Hw |].
  apply dec_stable in Hrun.
  revert Hw. unfold lap_layout. simpl. rewrite Hrun. tauto.
Qed.

Lemma lap_layout_stop w :
  lap_layout w -> lap_layout (snd (Workout_Stop w)).
Proof.
  intros Hw. unfold Workout_Stop.
  destruct (decide _) as [Hn | Hact]; [exact Hw |].
  revert Hw. unfold lap_layout. simpl.
  destruct (state (s_session w)); try tauto.
Qed.

(** While running, the index [current_lap - 1] is a slot of [laps]. *)
Lemma running_write_in_bounds w :
  lap_layout w -> state (s_session w) = STATE_RUNNING -> write_in_bounds w.
Proof.
  unfold lap_layout, write_in_bounds, MAX_LAPS.
  intros (Hlen & Htl & Hst) Hrun. rewrite Hrun in Hst. destruct Hst as [Hcur _].
  assert (Hw8 : wrap8 (current_lap (s_session w) - 1) = current_lap (s_session w) - 1)
    by (apply wrap8_small; lia).
  split; [exact Hw8 |]. rewrite Hw8, Hlen. lia.
Qed.

Lemma lap_layout_recordlap T w :
  lap_layout w -> lap_layout (snd (Workout_RecordLap T w)).
Proof.
  intros Hw. unfold Workout_RecordLap.
  destruct (decide _) as [Hn | Hrun]; [exact Hw |].
  apply dec_stable in Hrun.
  destruct (running_write_in_bounds w Hw Hrun) as [Hw8 Hidx].
  destruct Hw as (Hlen & Htl & Hst). rewrite Hrun in Hst.
  destruct Hst as [Hcur Hpop]. unfold MAX_LAPS in *.
  set (lap := mkLap _ _ _).
  assert (Hnew : populated_below (current_lap (s_session w))
                   (<[Z.to_nat (wrap8 (current_lap (s_session w) - 1)) := lap]>
                      (laps (s_session w)))).
  { rewrite Hw8. apply populated_below_insert; try lia.
    - unfold populated, lap; simpl. lia.
    - exact Hpop. }
  destruct (current_lap (s_session w) >=? total_laps (config (s_session w))) eqn:Hlast.
  - unfold lap_layout, MAX_LAPS; simpl. rewrite length_insert.
    split_ands; try lia. right. split; [lia |].
    replace (total_laps (config (s_session w))) with (current_lap (s_session w)) by lia.
    exact Hnew.
  - unfold lap_layout, MAX_LAPS; simpl. rewrite length_insert, Hrun.
    rewrite (wrap8_small (current_lap (s_session w) + 1)) by lia.
    split_ands; try lia.
    replace (current_lap (s_session w) + 1 - 1) with (current_lap (s_session w)) by lia.
    exact Hnew.
Qed.

Lemma lap_layout_exec o T w : lap_layout w -> lap_layout (snd (exec o T w)).
Proof.
  destruct o; simpl.
  - apply lap_layout_setmode.
  - apply lap_layout_cyclemode.
  - apply lap_layout_start.
  - apply lap_layout_recordlap.
  - apply lap_layout_pause.
  - apply lap_layout_stop.
  - intros _. apply lap_layout_reset.
Qed.

Lemma reachable_lap_layout w : reachable w -> lap_layout w.
Proof.
  induction 1 as [| o T w _ IH]; [apply lap_layout_init | apply lap_layout_exec, IH].
Qed.

Lemma reachable_run tr w : reachable w -> reachable (run tr w).
Proof.
  revert w. induction tr as [| [T o] tr IH]; intros w Hw; simpl; [exact Hw |].
  apply IH. constructor. exact Hw.
Qed.

(** C8.  In every state reachable from [Workout_Init] by lifecycle calls:
    [current_lap] lies in [1, total_laps] while running or paused (and stays
    there once completed); while idle, running or paused, [laps[i]] is
    populated iff [i < current_lap - 1]; every write of [Workout_RecordLap]
    goes to a slot inside the [MAX_LAPS]-element array; recording the final
    lap completes the session with [laps[i]] populated iff [i < total_laps];
    [Workout_Stop] completes it with [laps[i]] populated iff
    [i < current_lap - 1], the lap in progress staying unrecorded. *)
Theorem reachable_session_layout (w : Workout) :
  reachable w ->
  lap_layout w /\
  (Workout_GetState w = STATE_RUNNING -> write_in_bounds w) /\
  (forall T,
      Workout_GetState w = STATE_RUNNING ->
      current_lap (s_session w) = total_laps (config (s_session w)) ->
      Workout_GetState (snd (Workout_RecordLap T w)) = STATE_COMPLETED /\
      populated_below (total_laps (config (s_session w)))
                      (laps (s_session (snd (Workout_RecordLap T w))))) /\
  (Workout_GetState w = STATE_RUNNING \/ Workout_GetState w = STATE_PAUSED ->
   Workout_GetState (snd (Workout_Stop w)) = STATE_COMPLETED /\
   populated_below (current_lap (s_session w) - 1)
                   (laps (s_session (snd (Workout_Stop w))))).
Proof.
  intros Hreach. pose proof (reachable_lap_layout w Hreach) as Hlay.
  unfold Workout_GetState. split_ands.
  - exact Hlay.
  - apply running_write_in_bounds, Hlay.
  - intros T Hrun Hlast.
    destruct (running_write_in_bounds w Hlay Hrun) as [Hw8 Hidx].
    destruct Hlay as (Hlen & Htl & Hst). rewrite Hrun in Hst. destruct Hst as [Hcur Hpop].
    unfold Workout_RecordLap.
    destruct (decide _) as [Hn | _]; [contradiction |].
    replace (current_lap (s_session w) >=? total_laps (config (s_session w))) with true by lia.
    simpl. split; [reflexivity |].
    rewrite Hw8, <- Hlast. apply populated_below_insert; try lia.
    + unfold populated; simpl. lia.
    + exact Hpop.
  - intros Hact. unfold Workout_Stop.
    destruct (decide _) as [Hn | _].
    + destruct Hact as [H | H], Hn as [H' | H']; congruence.
    + simpl. split; [reflexivity |].
      destruct Hlay as (_ & _ & Hst).
      destruct Hact as [H | H]; rewrite H in Hst; apply Hst.
Qed.

Lemma reachable_session_layout_witness :
  lap_layout (run [(0, OpStart); (1000, OpRecordLap)] Workout_Init) /\
  (Workout_GetState (run [(0, OpStart); (1000, OpRecordLap)] Workout_Init) = STATE_RUNNING ->
   write_in_bounds (run [(0, OpStart); (1000, OpRecordLap)] Workout_Init)).
Proof.
  pose proof (reachable_session_layout
                (run [(0, OpStart); (1000, OpRecordLap)] Workout_Init)) as H.
  destruct H as (Hlay & Hwr & _).
  - apply reachable_run. apply reach_init.
  - split; [exact Hlay | exact Hwr].
Defined.

(** C8, as worded, fails on a session ended by [Workout_Stop]: the state is
    [STATE_COMPLETED] and no slot of [laps] is populated, although
    [0 < total_laps]. *)
Lemma stopped_session_breaks_claimed_layout :
  reachable (run [(0, OpStart); (1000, OpStop)] Workout_Init) /\
  Workout_GetState (run [(0, OpStart); (1000, OpStop)] Workout_Init) = STATE_COMPLETED /\
  ~ claimed_layout (run [(0, OpStart); (1000, OpStop)] Workout_Init).
Proof.
  split; [apply reachable_run, reach_init |]. split; [reflexivity |].
  intros [_ Hpop]. simpl in Hpop.
  specialize (Hpop 0%nat lap_zero eq_refl). unfold populated in Hpop; simpl in Hpop.
  destruct Hpop as [_ Hpop]. apply Hpop; [lia | reflexivity].
Qed.

(** ** Starting a session *)

Lemma reachable_idle_start (T0 : Z) (w : Workout) :
  lap_layout w -> state (s_session w) = STATE_IDLE ->
  lap_layout (snd (Workout_Start T0 w)) /\
  state (s_session (snd (Workout_Start T0 w))) = STATE_RUNNING /\
  current_lap (s_session (snd (Workout_Start T0 w))) = 1 /\
  config (s_session (snd (Workout_Start T0 w))) = config (s_session w) /\
  workout_start_ms (s_session (snd (Workout_Start T0 w))) = wrap32 T0 /\
  s_totalPausedMs (snd (Workout_Start T0 w)) = 0.
Proof.
  intros Hlay Hidle. split; [apply lap_layout_start, Hlay |].
  unfold Workout_Start. rewrite Hidle. simpl. tauto.
Qed.


(** ** Elapsed time: the module against the stopwatch *)

Lemma refines_init : refines sw_init Workout_Init.
Proof. unfold refines; simpl. split_ands; try reflexivity. discriminate. Qed.

Ltac refines_cases Hs :=
  unfold refines; simpl; rewrite ?Hs;
  split_ands; try congruence; try reflexivity.

Lemma refines_step (o : Op) (T : Z) (g : Stopwatch) (w : Workout) :
  start_pause_stop o -> refines g w -> refines (sw_step o T g) (snd (exec o T w)).
Proof.
  intros Hsps (Hst & Hrest & Hstart & Hpaused & Hpause).
  rewrite Hst in Hrest.
  destruct Hsps as [-> | [-> | ->]]; simpl.
  - unfold Workout_Start, sw_step. rewrite Hst.
    destruct (state (s_session w)) eqn:Hs; refines_cases Hs.
    rewrite Hpaused, Hpause. wrap32_lia.
  - unfold Workout_Pause, sw_step. rewrite Hst.
    destruct (decide _) as [Hn | Hrun];
      destruct (state (s_session w)) eqn:Hs; refines_cases Hs;
      exfalso; apply Hrun; discriminate.
  - unfold Workout_Stop, sw_step. rewrite Hst.
    destruct (decide _) as [Hn | Hact];
      destruct (state (s_session w)) eqn:Hs; refines_cases Hs;
      try (destruct Hn; discriminate); try (exfalso; apply Hact; auto).
Qed.

Lemma refines_run (tr : list (Z * Op)) :
  forall g w,
    Forall (fun x => start_pause_stop (snd x)) tr ->
    refines g w -> refines (sw_run tr g) (run tr w).
Proof.
  induction tr as [| [T o] tr IH]; intros g w Hsps Href; [exact Href |].
  apply Forall_cons in Hsps as [Ho Hsps]. simpl.
  apply IH; [exact Hsps |]. apply refines_step; assumption.
Qed.

(** A query made while the session is not paused reads the clock once, at
    uptime [T], and returns the stopwatch's elapsed time modulo 2^32. *)
Lemma elapsed_refines (T T' : Z) (g : Stopwatch) (w : Workout) :
  refines g w -> sw_state g <> STATE_PAUSED ->
  Workout_GetElapsedMs T T' w = wrap32 (sw_elapsed T g).
Proof.
  intros (Hst & Hrest & Hstart & Hpaused & Hpause) Hnp.
  unfold Workout_GetElapsedMs, sw_elapsed, Time_GetMs.
  rewrite Hst in Hrest, Hnp |- *. rewrite Hstart, Hpaused.
  destruct (decide (state (s_session w) = STATE_IDLE)) as [-> | Hidle]; [reflexivity |].
  destruct (decide (state (s_session w) = STATE_PAUSED)) as [Hp | Hp]; [contradiction |].
  destruct (state (s_session w)); try contradiction; wrap32_lia.
Qed.

(** A query made while paused reads the clock twice, at uptimes [T] and
    [T']: it returns the elapsed time at the pause, less the time between
    its two reads. *)
Lemma paused_query (T T' : Z) (w : Workout) :
  state (s_session w) = STATE_PAUSED ->
  Workout_GetElapsedMs T T' w
  = wrap32 (s_pauseStartMs w - workout_start_ms (s_session w) - s_totalPausedMs w
            - (T' - T)).
Proof.
  intros Hp. unfold Workout_GetElapsedMs. rewrite Hp.
  destruct (decide _) as [Hn | _]; [discriminate |].
  destruct (decide _) as [_ | Hn]; [| contradiction].
  wrap32_lia.
Qed.

Lemma sw_ok_later (Tl T : Z) (g : Stopwatch) : sw_ok Tl g -> Tl <= T -> sw_ok T g.
Proof. unfold sw_ok. destruct (sw_state g); intros; lia. Qed.

Lemma sw_ok_step (o : Op) (Tl T : Z) (g : Stopwatch) :
  sw_ok Tl g -> Tl <= T -> sw_ok T (sw_step o T g).
Proof.
  unfold sw_ok, sw_step.
  destruct o, (sw_state g) eqn:E; simpl; rewrite ?E; intros; lia.
Qed.

(** A call made at uptime [T] does not change what a query at [T] returns,
    as long as the session stays running or paused. *)
Lemma sw_step_continuous (o : Op) (T : Z) (g : Stopwatch) :
  sw_active g -> sw_active (sw_step o T g) ->
  sw_elapsed T (sw_step o T g) = sw_elapsed T g /\
  sw_start (sw_step o T g) = sw_start g.
Proof.
  unfold sw_active, sw_elapsed, sw_step.
  destruct o, (sw_state g) eqn:E; simpl; rewrite ?E;
    intros [H | H] [H' | H']; try discriminate; split; lia.
Qed.

Lemma sw_elapsed_later (Tl T1 T2 : Z) (g : Stopwatch) :
  sw_active g -> T1 <= T2 -> sw_elapsed T1 g <= sw_elapsed T2 g.
Proof.
  unfold sw_active, sw_elapsed. intros [-> | ->] H; lia.
Qed.

Lemma sw_elapsed_range (Tl T : Z) (g : Stopwatch) :
  sw_active g -> sw_ok Tl g -> Tl <= T -> 0 <= sw_elapsed T g <= T - sw_start g.
Proof.
  unfold sw_active, sw_ok, sw_elapsed. intros [-> | ->] H HT; lia.
Qed.

(** With these three calls, a completed session stays completed. *)
Lemma sw_completed_absorbing (tr : list (Z * Op)) :
  forall g,
    Forall (fun x => start_pause_stop (snd x)) tr ->
    sw_state g = STATE_COMPLETED -> sw_state (sw_run tr g) = STATE_COMPLETED.
Proof.
  induction tr as [| [T o] tr IH]; intros g Hsps Hg; [exact Hg |].
  apply Forall_cons in Hsps as [Ho Hsps]. simpl in Ho |- *. apply IH; [exact Hsps |].
  unfold sw_step. rewrite Hg.
  destruct Ho as [-> | [-> | ->]]; simpl; exact Hg.
Qed.

Lemma sw_step_states (o : Op) (T : Z) (g : Stopwatch) :
  start_pause_stop o -> sw_active g ->
  sw_active (sw_step o T g) \/ sw_state (sw_step o T g) = STATE_COMPLETED.
Proof.
  unfold sw_active, sw_step.
  intros [-> | [-> | ->]] [E | E]; rewrite E; simpl; rewrite ?E; auto.
Qed.

Lemma sw_elapsed_monotone (tr : list (Z * Op)) :
  forall g T1 T2,
    Forall (fun x => start_pause_stop (snd x)) tr ->
    sw_active g -> sw_ok T1 g ->
    nondecreasing (T1 :: map fst tr ++ [T2]) ->
    sw_active (sw_run tr g) ->
    sw_elapsed T1 g <= sw_elapsed T2 (sw_run tr g) /\
    sw_start (sw_run tr g) = sw_start g /\
    sw_ok T2 (sw_run tr g).
Proof.
  induction tr as [| [T o] tr IH]; intros g T1 T2 Hsps Hact Hok Hmono Hend.
  - simpl in *. split_ands.
    + apply (sw_elapsed_later T1); [exact Hact | lia].
    + reflexivity.
    + apply (sw_ok_later T1); [exact Hok | lia].
  - apply Forall_cons in Hsps as [Ho Hsps]. simpl in Ho.
    simpl in Hmono. destruct Hmono as [HT Hmono].
    change (sw_run ((T, o) :: tr) g) with (sw_run tr (sw_step o T g)) in *.
    destruct (sw_step_states o T g Ho Hact) as [Hact1 | Hdone].
    + destruct (sw_step_continuous o T g Hact Hact1) as [Hsame Hstart].
      destruct (IH (sw_step o T g) T T2) as (Hle & Hst & Hok2); try assumption.
      * apply (sw_ok_step o T1); assumption.
      * split_ands; [| congruence | exact Hok2].
        pose proof (sw_elapsed_later T1 T1 T g Hact HT). lia.
    + pose proof (sw_completed_absorbing tr _ Hsps Hdone) as Habs.
      destruct Hend as [H | H]; congruence.
Qed.

Lemma sw_ok_run (tr : list (Z * Op)) :
  forall g Tl T,
    sw_ok Tl g -> nondecreasing (Tl :: map fst tr ++ [T]) -> sw_ok T (sw_run tr g).
Proof.
  induction tr as [| [T' o] tr IH]; intros g Tl T Hok Hmono.
  - simpl in *. apply (sw_ok_later Tl); [exact Hok | lia].
  - simpl in Hmono. destruct Hmono as [HT Hmono]. simpl.
    apply (IH _ T'); [| exact Hmono]. apply (sw_ok_step o Tl); assumption.
Qed.

Lemma nondecreasing_app_inv (l1 l2 : list Z) (x : Z) :
  nondecreasing (l1 ++ x :: l2) ->
  nondecreasing (l1 ++ [x]) /\ nondecreasing (x :: l2).
Proof.
  induction l1 as [| a l1 IH]; intros H.
  - split; [simpl; tauto | exact H].
  - destruct H as [Hhd Htl]. destruct (IH Htl) as [H1 H2].
    split; [| exact H2]. split; [| exact H1].
    destruct l1; simpl in *; exact Hhd.
Qed.

Lemma nondecreasing_self_head (l : list Z) (x : Z) :
  nondecreasing (l ++ [x]) -> exists a, nondecreasing (a :: l ++ [x]).
Proof.
  destruct l as [| a l]; intros H.
  - exists x. simpl. split; [lia | tauto].
  - exists a. split; [simpl; lia | exact H].
Qed.

Lemma run_app (tr1 tr2 : list (Z * Op)) (w : Workout) :
  run (tr1 ++ tr2) w = run tr2 (run tr1 w).
Proof.
  revert w. induction tr1 as [| [T o] tr1 IH]; intros w; [reflexivity |].
  simpl. apply IH.
Qed.

Lemma sw_run_app (tr1 tr2 : list (Z * Op)) (g : Stopwatch) :
  sw_run (tr1 ++ tr2) g = sw_run tr2 (sw_run tr1 g).
Proof.
  revert g. induction tr1 as [| [T o] tr1 IH]; intros g; [reflexivity |].
  simpl. apply IH.
Qed.

(** Once the session has begun, its start is fixed. *)
Lemma sw_start_fixed (tr : list (Z * Op)) :
  forall g, sw_state g <> STATE_IDLE -> sw_start (sw_run tr g) = sw_start g.
Proof.
  induction tr as [| [T o] tr IH]; intros g Hg; [reflexivity |].
  simpl. rewrite IH.
  - unfold sw_step. destruct o, (sw_state g); try reflexivity; contradiction.
  - unfold sw_step. destruct o, (sw_state g) eqn:E; simpl; rewrite ?E; congruence.
Qed.

Lemma sw_start_first_start (tr : list (Z * Op)) (Ts : Z) :
  forall g,
    sw_state g = STATE_IDLE -> first_start tr = Some Ts ->
    sw_start (sw_run tr g) = Ts.
Proof.
  induction tr as [| [T o] tr IH]; intros g Hg Hfirst; [discriminate |].
  destruct o; simpl in Hfirst |- *; rewrite ?Hg; try (apply IH; assumption).
  injection Hfirst as ->.
  rewrite sw_start_fixed; [reflexivity | discriminate].
Qed.

(** While paused, a rejected [Workout_Pause] changes nothing. *)
Lemma run_pauses_while_paused (tr : list (Z * Op)) (w : Workout) :
  Forall (fun x => snd x = OpPause) tr ->
  state (s_session w) = STATE_PAUSED -> run tr w = w.
Proof.
  intros Hall Hp. induction tr as [| [T o] tr IH]; [reflexivity |].
  apply Forall_cons in Hall as [Ho Hall]. simpl in Ho. subst o. simpl.
  unfold Workout_Pause. destruct (decide _) as [_ | Hn]; [apply IH, Hall |].
  exfalso. apply Hn. congruence.
Qed.




(** A pause taken in the millisecond of the start freezes the elapsed time
    at 0; a query whose reads straddle a tick then returns 2^32 - 1. *)
Example paused_query_straddling_a_tick :
  Workout_GetElapsedMs 5 5 (run [(5, OpStart); (5, OpPause)] Workout_Init) = 0 /\
  Workout_GetElapsedMs 5 6 (run [(5, OpStart); (5, OpPause)] Workout_Init) = 4294967295.
Proof. split; reflexivity. Qed.

(** ** Recording every lap of a session *)

Lemma nondecreasing_by_lookup (l : list Z) :
  (forall (i j : nat) (x y : Z),
      (i <= j)%nat -> l !! i = Some x -> l !! j = Some y -> x <= y) ->
  nondecreasing l.
Proof.
  induction l as [| a l IH]; intros H; [exact I |].
  split.
  - destruct l as [| b l]; [exact I |].
    apply (H 0%nat 1%nat); [lia | reflexivity | reflexivity].
  - apply IH. intros i j x y Hij Hi Hj.
    apply (H (S i) (S j)); [lia | exact Hi | exact Hj].
Qed.

(** [s_pauseStartMs] always holds a reading of the 32-bit clock. *)
Lemma reachable_pause_mark (w : Workout) :
  reachable w -> wrap32 (s_pauseStartMs w) = s_pauseStartMs w.
Proof.
  induction 1 as [| o T w _ IH]; [reflexivity |].
  destruct o; simpl.
  - unfold Workout_SetMode. destruct (decide _); exact IH.
  - unfold Workout_CycleMode. destruct (decide _); exact IH.
  - unfold Workout_Start. destruct (state (s_session w)); exact IH.
  - unfold Workout_RecordLap. destruct (decide _); [exact IH |].
    destruct (_ >=? _); exact IH.
  - unfold Workout_Pause. destruct (decide _); [exact IH |].
    simpl. unfold Time_GetMs. apply wrap32_idem.
  - unfold Workout_Stop. destruct (decide _); exact IH.
  - reflexivity.
Qed.

(** What an accepted [Workout_RecordLap] does: it writes slot
    [current_lap - 1]; on the last lap the session completes, otherwise the
    next lap begins.  The timing marks are left alone. *)
Lemma record_lap_effect (T : Z) (w : Workout) :
  lap_layout w -> state (s_session w) = STATE_RUNNING ->
  let w' := snd (Workout_RecordLap T w) in
  config (s_session w') = config (s_session w) /\
  workout_start_ms (s_session w') = workout_start_ms (s_session w) /\
  s_totalPausedMs w' = s_totalPausedMs w /\
  s_pauseStartMs w' = s_pauseStartMs w /\
  (exists lap,
      split_time_ms lap
      = wrap32 (wrap32 (Time_GetMs T - workout_start_ms (s_session w))
                - s_totalPausedMs w) /\
      laps (s_session w')
      = <[Z.to_nat (current_lap (s_session w) - 1) := lap]> (laps (s_session w))) /\
  (Z.to_nat (current_lap (s_session w) - 1) < length (laps (s_session w)))%nat /\
  ((current_lap (s_session w) = total_laps (config (s_session w)) /\
    state (s_session w') = STATE_COMPLETED /\
    current_lap (s_session w') = current_lap (s_session w)) \/
   (current_lap (s_session w) < total_laps (config (s_session w)) /\
    state (s_session w') = STATE_RUNNING /\
    current_lap (s_session w') = current_lap (s_session w) + 1)).
Proof.
  intros Hlay Hrun.
  destruct (running_write_in_bounds w Hlay Hrun) as [Hw8 Hidx].
  destruct Hlay as (Hlen & Htl & Hst). rewrite Hrun in Hst. destruct Hst as [Hcur _].
  unfold Workout_RecordLap.
  destruct (decide _) as [Hn | _]; [contradiction |].
  rewrite Hw8 in Hidx |- *. set (lap := mkLap _ _ _).
  destruct (current_lap (s_session w) >=? total_laps (config (s_session w))) eqn:Hlast;
    cbn [snd s_session s_totalPausedMs s_pauseStartMs config workout_start_ms laps
         state current_lap];
    split_ands; try reflexivity; try exact Hidx.
  - exists lap. split; reflexivity.
  - left. split_ands; [lia | reflexivity | reflexivity].
  - exists lap. split; reflexivity.
  - right. split_ands; [lia | exact Hrun |].
    apply wrap8_small. unfold MAX_LAPS in Htl. lia.
Qed.

(** A pause or a resumption leaves the laps, the lap counter and the
    configuration alone, and a session in progress stays in progress. *)
Lemma pause_resume_keeps_laps (o : Op) (T : Z) (w : Workout) :
  o = OpPause \/ o = OpStart ->
  state (s_session w) = STATE_RUNNING \/ state (s_session w) = STATE_PAUSED ->
  config (s_session (snd (exec o T w))) = config (s_session w) /\
  current_lap (s_session (snd (exec o T w))) = current_lap (s_session w) /\
  laps (s_session (snd (exec o T w))) = laps (s_session w) /\
  (state (s_session (snd (exec o T w))) = STATE_RUNNING \/
   state (s_session (snd (exec o T w))) = STATE_PAUSED).
Proof.
  intros [-> | ->] Hact; simpl.
  - unfold Workout_Pause. destruct (decide _) as [_ | _]; simpl; auto.
  - unfold Workout_Start.
    destruct Hact as [Hs | Hs]; rewrite Hs; simpl; rewrite ?Hs; auto.
Qed.

(** The calls of a session in progress, sorted by what they do to the laps:
    an accepted [Workout_RecordLap]; [Workout_Stop], which completes the
    session; a pause or a resumption; or a call that is rejected or changes
    nothing. *)
Lemma session_step (o : Op) (T : Z) (w : Workout) (tr : list (Z * Op)) :
  within_session o ->
  state (s_session w) = STATE_RUNNING \/ state (s_session w) = STATE_PAUSED ->
  (o = OpRecordLap /\ state (s_session w) = STATE_RUNNING /\
   laps_while_running ((T, o) :: tr) w
   = T :: laps_while_running tr (snd (exec o T w))) \/
  (laps_while_running ((T, o) :: tr) w = laps_while_running tr (snd (exec o T w)) /\
   ((o = OpStop /\ state (s_session (snd (exec o T w))) = STATE_COMPLETED) \/
    (o = OpPause \/ o = OpStart) \/
    (snd (exec o T w) = w /\ forall g, sw_step o T g = g))).
Proof.
  intros Ho Hact. cbn [laps_while_running]. unfold Workout_GetState.
  destruct o.
  - right. split; [reflexivity |]. right. right. split; [| reflexivity].
    simpl. unfold Workout_SetMode.
    destruct (decide _) as [_ | Hn]; [reflexivity |].
    apply dec_stable in Hn. destruct Hact; congruence.
  - right. split; [reflexivity |]. right. right. split; [| reflexivity].
    simpl. unfold Workout_CycleMode.
    destruct (decide _) as [_ | Hn]; [reflexivity |].
    apply dec_stable in Hn. destruct Hact; congruence.
  - right. split; [reflexivity |]. right. left. right. reflexivity.
  - destruct (decide (state (s_session w) = STATE_RUNNING)) as [Hrun | Hnrun].
    + left. split_ands; [reflexivity | exact Hrun | reflexivity].
    + right. split; [reflexivity |]. right. right. split.
      * simpl. unfold Workout_RecordLap.
        destruct (decide _) as [_ | Hn]; [reflexivity |].
        apply dec_stable in Hn. contradiction.
      * intros g. unfold sw_step. destruct (sw_state g); reflexivity.
  - right. split; [reflexivity |]. right. left. left. reflexivity.
  - right. split; [reflexivity |]. left. split; [reflexivity |].
    simpl. unfold Workout_Stop.
    destruct (decide _) as [[Hn | Hn] | _]; [destruct Hact; congruence .. |].
    reflexivity.
  - exfalso. apply Ho. reflexivity.
Qed.

(** Short of [Workout_Reset], a completed session is left as it is, and none
    of the [Workout_RecordLap] calls that follow is made while running. *)
Lemma completed_absorbing (tr : list (Z * Op)) (w : Workout) :
  Forall (fun x => within_session (snd x)) tr ->
  state (s_session w) = STATE_COMPLETED ->
  run tr w = w /\ laps_while_running tr w = [].
Proof.
  intros Hops Hdone. induction tr as [| [T o] tr IH]; [split; reflexivity |].
  apply Forall_cons in Hops as [Ho Hops]. simpl in Ho.
  assert (Hsame : snd (exec o T w) = w).
  { destruct o; simpl.
    - unfold Workout_SetMode.
      destruct (decide _) as [_ | Hn]; [reflexivity |].
      apply dec_stable in Hn. congruence.
    - unfold Workout_CycleMode.
      destruct (decide _) as [_ | Hn]; [reflexivity |].
      apply dec_stable in Hn. congruence.
    - unfold Workout_Start. rewrite Hdone. reflexivity.
    - unfold Workout_RecordLap.
      destruct (decide _) as [_ | Hn]; [reflexivity |].
      apply dec_stable in Hn. congruence.
    - unfold Workout_Pause.
      destruct (decide _) as [_ | Hn]; [reflexivity |].
      apply dec_stable in Hn. congruence.
    - unfold Workout_Stop.
      destruct (decide _) as [_ | Hn]; [reflexivity |].
      exfalso. apply Hn. right. exact Hdone.
    - exfalso. apply Ho. reflexivity. }
  cbn [run laps_while_running]. rewrite Hsame.
  destruct (IH Hops) as [Hrun Hnone]. split; [exact Hrun |].
  rewrite Hnone. unfold Workout_GetState. rewrite Hdone.
  destruct o; reflexivity.
Qed.

(** From a session in progress, a script in which as many [Workout_RecordLap]
    calls are made while running as there are laps left completes the
    session, whatever the uptimes of its calls. *)
Lemma remaining_laps_complete (tr : list (Z * Op)) :
  forall w : Workout,
    lap_layout w ->
    state (s_session w) = STATE_RUNNING \/ state (s_session w) = STATE_PAUSED ->
    Forall (fun x => within_session (snd x)) tr ->
    Z.of_nat (length (laps_while_running tr w))
    = total_laps (config (s_session w)) - current_lap (s_session w) + 1 ->
    state (s_session (run tr w)) = STATE_COMPLETED /\
    config (s_session (run tr w)) = config (s_session w).
Proof.
  induction tr as [| [T o] tr IH]; intros w Hlay Hact Hops Hcount.
  - exfalso. destruct Hlay as (_ & _ & Hst).
    simpl in Hcount. destruct Hact as [Hs | Hs]; rewrite Hs in Hst; lia.
  - apply Forall_cons in Hops as [Ho Hops]. simpl in Ho.
    pose proof (lap_layout_exec o T w Hlay) as Hlay1.
    assert (Hcur : 1 <= current_lap (s_session w) <= total_laps (config (s_session w))).
    { destruct Hlay as (_ & _ & Hst). destruct Hact as [Hs | Hs]; rewrite Hs in Hst; lia. }
    cbn [run].
    destruct (session_step o T w tr Ho Hact)
      as [(-> & Hrun & Hlaps) | (Hlaps & [(-> & Hdone) | [Hpr | (Hsame & _)]])];
      rewrite Hlaps in Hcount.
    + change (snd (exec OpRecordLap T w)) with (snd (Workout_RecordLap T w)) in *.
      destruct (record_lap_effect T w Hlay Hrun)
        as (Hcfg & _ & _ & _ & _ & _ & [(Hlast & Hdone & Hcur') | (Hmore & Hrun1 & Hcur')]).
      * destruct (completed_absorbing tr _ Hops Hdone) as [-> _].
        split; [exact Hdone | exact Hcfg].
      * destruct (IH _ Hlay1 (or_introl Hrun1) Hops) as [Hfin Hcfg'].
        -- rewrite Hcfg, Hcur'. cbn [length] in Hcount. lia.
        -- split; [exact Hfin | congruence].
    + exfalso. destruct (completed_absorbing tr _ Hops Hdone) as [_ Hnone].
      rewrite Hnone in Hcount. simpl in Hcount. lia.
    + destruct (pause_resume_keeps_laps o T w Hpr Hact) as (Hcfg & Hcur' & _ & Hact1).
      destruct (IH _ Hlay1 Hact1 Hops) as [Hfin Hcfg'].
      * rewrite Hcfg, Hcur'. exact Hcount.
      * split; [exact Hfin | congruence].
    + rewrite Hsame in *. apply IH; assumption.
Qed.

(** The same scripts, made at non-decreasing uptimes less than 2^32 ms after
    the start, against the stopwatch [g] the session holds: the laps already
    recorded are kept, and the split times of the laps recorded from here on
    are non-decreasing and not below the elapsed time at the last call. *)
Lemma remaining_splits_sorted (tr : list (Z * Op)) :
  forall (w : Workout) (g : Stopwatch) (Tl : Z),
    lap_layout w -> refines g w -> sw_active g -> sw_ok Tl g ->
    Forall (fun x => within_session (snd x)) tr ->
    nondecreasing (Tl :: map fst tr) ->
    Forall (fun x => fst x - sw_start g < 2 ^ 32) tr ->
    Z.of_nat (length (laps_while_running tr w))
    = total_laps (config (s_session w)) - current_lap (s_session w) + 1 ->
    (forall i : nat,
        Z.of_nat i < current_lap (s_session w) - 1 ->
        laps (s_session (run tr w)) !! i = laps (s_session w) !! i) /\
    (forall (i : nat) (l : LapRecord_t),
        current_lap (s_session w) - 1 <= Z.of_nat i ->
        Z.of_nat i < total_laps (config (s_session w)) ->
        laps (s_session (run tr w)) !! i = Some l ->
        sw_elapsed Tl g <= split_time_ms l) /\
    (forall (i j : nat) (li lj : LapRecord_t),
        current_lap (s_session w) - 1 <= Z.of_nat i -> (i <= j)%nat ->
        Z.of_nat j < total_laps (config (s_session w)) ->
        laps (s_session (run tr w)) !! i = Some li ->
        laps (s_session (run tr w)) !! j = Some lj ->
        split_time_ms li <= split_time_ms lj).
Proof.
  induction tr as [| [T o] tr IH];
    intros w g Tl Hlay Href Hact Hok Hops Hmono Hbound Hcount.
  - exfalso. destruct Href as (Hst & _). destruct Hlay as (_ & _ & Hlst).
    simpl in Hcount. rewrite <- Hst in Hlst.
    destruct Hact as [Hs | Hs]; rewrite Hs in Hlst; lia.
  - apply Forall_cons in Hops as [Ho Hops]. simpl in Ho.
    apply Forall_cons in Hbound as [HT Hbound]. simpl in HT.
    cbn [map fst] in Hmono. destruct Hmono as [HTl Hmono].
    pose proof (lap_layout_exec o T w Hlay) as Hlay1.
    pose proof (sw_ok_later Tl T g Hok HTl) as HokT.
    pose proof (sw_elapsed_later Tl Tl T g Hact HTl) as Hlater.
    pose proof (sw_elapsed_range T T g Hact HokT ltac:(lia)) as Hrange.
    assert (Hactw : state (s_session w) = STATE_RUNNING \/
                    state (s_session w) = STATE_PAUSED)
      by (destruct Href as (<- & _); exact Hact).
    assert (Hcur : 1 <= current_lap (s_session w) <= total_laps (config (s_session w))).
    { destruct Hlay as (_ & _ & Hst). destruct Hactw as [Hs | Hs]; rewrite Hs in Hst; lia. }
    cbn [run].
    destruct (session_step o T w tr Ho Hactw)
      as [(-> & Hrun & Hlaps) | (Hlaps & [(-> & Hdone) | [Hpr | (Hsame & Hg)]])];
      rewrite Hlaps in Hcount.
    + change (snd (exec OpRecordLap T w)) with (snd (Workout_RecordLap T w)) in *.
      destruct (record_lap_effect T w Hlay Hrun)
        as (Hcfg & Hstart & Hpaused & Hpause & (lap & Hsplit & Hwritten) & Hidx & Hnext).
      assert (Hval : split_time_ms lap = sw_elapsed T g).
      { rewrite Hsplit. destruct Href as (Hst & _ & -> & -> & _).
        rewrite <- (wrap32_small (sw_elapsed T g)) by lia.
        unfold sw_elapsed. rewrite Hst, Hrun. wrap32_lia. }
      destruct Hnext as [(Hlast & Hdone & Hcur') | (Hmore & Hrun1 & Hcur')].
      * destruct (completed_absorbing tr _ Hops Hdone) as [-> _].
        rewrite Hwritten. split_ands.
        -- intros i Hi. apply list_lookup_insert_ne. lia.
        -- intros i l Hlo Hhi Hl.
           assert (i = Z.to_nat (current_lap (s_session w) - 1)) as -> by lia.
           rewrite list_lookup_insert_eq in Hl by exact Hidx.
           injection Hl as <-. lia.
        -- intros i j li lj Hlo Hij Hhi Hi Hj.
           assert (i = Z.to_nat (current_lap (s_session w) - 1)) as -> by lia.
           assert (j = Z.to_nat (current_lap (s_session w) - 1)) as -> by lia.
           rewrite Hi in Hj. injection Hj as <-. lia.
      * assert (Href1 : refines g (snd (Workout_RecordLap T w))).
        { destruct Href as (Hst & Hrest & Hs & Hp & Hps).
          unfold refines. rewrite Hrun1, Hstart, Hpaused, Hpause.
          split_ands; try assumption. congruence. }
        destruct (IH _ g T Hlay1 Href1 Hact HokT Hops Hmono Hbound)
          as (Hkeep & Hlow & Hsorted).
        { rewrite Hcfg, Hcur'. cbn [length] in Hcount. lia. }
        rewrite Hcfg, Hcur' in *.
        assert (Hmine : laps (s_session (run tr (snd (Workout_RecordLap T w))))
                          !! Z.to_nat (current_lap (s_session w) - 1) = Some lap).
        { rewrite Hkeep by lia. rewrite Hwritten.
          apply list_lookup_insert_eq. exact Hidx. }
        split_ands.
        -- intros i Hi. rewrite Hkeep by lia. rewrite Hwritten.
           apply list_lookup_insert_ne. lia.
        -- intros i l Hlo Hhi Hl.
           destruct (decide (i = Z.to_nat (current_lap (s_session w) - 1))) as [-> | Hne].
           ++ rewrite Hmine in Hl. injection Hl as <-. lia.
           ++ specialize (Hlow i l ltac:(lia) Hhi Hl). lia.
        -- intros i j li lj Hlo Hij Hhi Hi Hj.
           destruct (decide (i = Z.to_nat (current_lap (s_session w) - 1))) as [-> | Hne].
           ++ rewrite Hmine in Hi. injection Hi as <-.
              destruct (decide (j = Z.to_nat (current_lap (s_session w) - 1)))
                as [-> | Hnej].
              ** rewrite Hmine in Hj. injection Hj as <-. lia.
              ** specialize (Hlow j lj ltac:(lia) Hhi Hj). lia.
           ++ apply (Hsorted i j li lj); try assumption. lia.
    + exfalso. destruct (completed_absorbing tr _ Hops Hdone) as [_ Hnone].
      rewrite Hnone in Hcount. simpl in Hcount. lia.
    + assert (Hsps : start_pause_stop o)
        by (unfold start_pause_stop; destruct Hpr; auto).
      destruct (pause_resume_keeps_laps o T w Hpr Hactw)
        as (Hcfg & Hcur' & Hsame & Hact1).
      pose proof (refines_step o T g w Hsps Href) as Href1.
      assert (Hactg : sw_active (sw_step o T g))
        by (destruct Href1 as (Hst1 & _); unfold sw_active; rewrite Hst1; exact Hact1).
      destruct (sw_step_continuous o T g Hact Hactg) as [Hcont Hstart].
      destruct (IH _ (sw_step o T g) T Hlay1 Href1 Hactg) as (Hkeep & Hlow & Hsorted).
      * apply (sw_ok_step o Tl); assumption.
      * exact Hops.
      * exact Hmono.
      * rewrite Hstart. exact Hbound.
      * rewrite Hcfg, Hcur'. exact Hcount.
      * rewrite Hcfg, Hcur', Hsame in *.
        split_ands; [exact Hkeep | | exact Hsorted].
        intros i l Hlo Hhi Hl. specialize (Hlow i l Hlo Hhi Hl). lia.
    + rewrite Hsame in *.
      destruct (IH w g T Hlay Href Hact HokT Hops Hmono Hbound Hcount)
        as (Hkeep & Hlow & Hsorted).
      split_ands; [exact Hkeep | | exact Hsorted].
      intros i l Hlo Hhi Hl. specialize (Hlow i l Hlo Hhi Hl). lia.
Qed.



(** A session with a pause between the first and the second lap: the split
    times leave the 300 ms of the pause out. *)
Example paused_session_splits :
  splits
    (run ((0, OpStart) ::
          [(1000, OpRecordLap); (2000, OpPause); (2300, OpStart);
           (2500, OpRecordLap); (3000, OpRecordLap); (4000, OpRecordLap)])
         Workout_Init)
  = [1000; 2200; 2700; 3700].
Proof. reflexivity. Qed.


(** Scenario A: mode 4x500m, laps at 1000, 2500, 4000 and 5200 ms. *)
Example scenario_A_lap_times :
  map lap_time_ms
      (take 4 (laps (s_session
         (run ((0, OpStart) :: lap_script [1000; 2500; 4000; 5200]) Workout_Init))))
  = [1000; 1500; 1500; 1200].
Proof. reflexivity. Qed.

End LifecycleFacts.

(** * The offline event buffer *)

Module BufferFacts.

Import Buffer BufferSpec.

(** Index arithmetic of the ring: modulo its capacity and modulo 2^8. *)
Ltac ring_lia :=
  unfold BUFFER_MAX_EVENTS, wrap8 in *; Z.div_mod_to_equations; lia.

Lemma contents_length (b : Ring) : length (contents b) = Z.to_nat (s_count b).
Proof. unfold contents. rewrite length_map, length_seq. reflexivity. Qed.

Lemma contents_lookup (b : Ring) (k : nat) :
  (k < Z.to_nat (s_count b))%nat ->
  contents b !! k = Some (slot b ((s_tail b + Z.of_nat k) mod BUFFER_MAX_EVENTS)).
Proof.
  intros Hk. unfold contents. rewrite list_lookup_fmap.
  rewrite lookup_seq_lt by exact Hk. reflexivity.
Qed.

Lemma contents_lookup_ge (b : Ring) (k : nat) :
  (Z.to_nat (s_count b) <= k)%nat -> contents b !! k = None.
Proof. intros Hk. apply lookup_ge_None. rewrite contents_length. exact Hk. Qed.

Lemma ring_ok_init : ring_ok Buffer_Init.
Proof. unfold ring_ok, BUFFER_MAX_EVENTS; simpl. repeat split; lia. Qed.

Lemma ring_ok_clear (b : Ring) : ring_ok b -> ring_ok (Buffer_Clear b).
Proof.
  unfold ring_ok, BUFFER_MAX_EVENTS; simpl. intros (Hlen & _). repeat split; lia.
Qed.

(** Reading a slot after an in-range write. *)
Lemma slot_insert (buf : list WorkoutEvent_t) (h i : Z) (e : WorkoutEvent_t) (b' : Ring) :
  s_buffer b' = <[Z.to_nat h := e]> buf ->
  0 <= h -> (Z.to_nat h < length buf)%nat -> 0 <= i ->
  slot b' i = if decide (i = h) then e else default event_zero (buf !! Z.to_nat i).
Proof.
  intros Hbuf Hh Hlen Hi. unfold slot. rewrite Hbuf.
  destruct (decide (i = h)) as [-> | Hne].
  - rewrite list_lookup_insert_eq by exact Hlen. reflexivity.
  - rewrite list_lookup_insert_ne by lia. reflexivity.
Qed.

(** [Buffer_Push] appends the event and, on a full ring, forgets the oldest
    one. *)
Lemma push_contents (e : WorkoutEvent_t) (b : Ring) :
  ring_ok b ->
  ring_ok (snd (Buffer_Push (Some e) b)) /\
  contents (snd (Buffer_Push (Some e) b))
  = keep_last (Z.to_nat BUFFER_MAX_EVENTS) (contents b ++ [e]).
Proof.
  intros (Hlen & Htail & Hcount & Hhead).
  unfold Buffer_Push. cbn [snd].
  unfold BUFFER_MAX_EVENTS in *.
  destruct (s_count b >=? 16) eqn:Hfull.
  - (* full: the oldest event is overwritten *)
    assert (Hc : s_count b = 16) by lia.
    assert (Hh : s_head b = s_tail b)
      by (rewrite Hhead, Hc; ring_lia).
    split.
    + unfold ring_ok, BUFFER_MAX_EVENTS; simpl. rewrite length_insert.
      split_ands; try lia; try exact Hlen;
        ring_lia.
    + apply list_eq. intros k. unfold keep_last.
      rewrite lookup_drop, length_app, contents_length, Hc. simpl length.
      replace (Z.to_nat 16 + 1 - Z.to_nat 16 + k)%nat with (S k) by lia.
      destruct (decide (k < 16)%nat) as [Hk | Hk].
      * rewrite contents_lookup by (simpl; lia). cbn [s_tail s_count].
        erewrite slot_insert; [| reflexivity | lia | lia |
                                 ring_lia].
        destruct (decide (k = 15)%nat) as [-> | Hk15].
        -- rewrite lookup_app_r by (rewrite contents_length; lia).
           rewrite contents_length, Hc. simpl.
           destruct (decide _) as [_ | Hn]; [reflexivity |].
           exfalso. apply Hn. rewrite Hh. ring_lia.
        -- rewrite lookup_app_l by (rewrite contents_length; lia).
           rewrite contents_lookup by lia. unfold slot.
           destruct (decide _) as [Heq | _].
           ++ exfalso. revert Heq. rewrite Hh. ring_lia.
           ++ do 3 f_equal. ring_lia.
      * rewrite contents_lookup_ge by (simpl; lia).
        symmetry. apply lookup_ge_None. rewrite length_app, contents_length. simpl. lia.
  - (* room left: the event is appended *)
    assert (Hc : 0 <= s_count b < 16) by lia.
    assert (Hw : wrap8 (s_count b + 1) = s_count b + 1) by (apply wrap8_small; lia).
    split.
    + unfold ring_ok, BUFFER_MAX_EVENTS; simpl. rewrite length_insert, Hw.
      split_ands; try lia; try exact Hlen.
      rewrite Hhead. ring_lia.
    + apply list_eq. intros k. unfold keep_last.
      rewrite lookup_drop, length_app, contents_length. simpl length.
      replace (Z.to_nat (s_count b) + 1 - Z.to_nat 16 + k)%nat with k by lia.
      destruct (decide (k < Z.to_nat (s_count b) + 1)%nat) as [Hk | Hk].
      * rewrite contents_lookup by (simpl; lia). cbn [s_tail s_count].
        erewrite slot_insert; [| reflexivity | rewrite Hhead; ring_lia
                                | rewrite Hhead, Hlen; ring_lia
                                | ring_lia].
        destruct (decide (k = Z.to_nat (s_count b))) as [-> | Hklt].
        -- rewrite lookup_app_r by (rewrite contents_length; lia).
           rewrite contents_length, Nat.sub_diag. simpl.
           destruct (decide _) as [_ | Hn]; [reflexivity |].
           exfalso. apply Hn. rewrite Hhead. f_equal. lia.
        -- rewrite lookup_app_l by (rewrite contents_length; lia).
           rewrite contents_lookup by lia. unfold slot.
           destruct (decide _) as [Heq | _]; [| reflexivity].
           exfalso. revert Heq. rewrite Hhead. ring_lia.
      * rewrite contents_lookup_ge by (simpl; lia).
        symmetry. apply lookup_ge_None. rewrite length_app, contents_length. simpl. lia.
Qed.

Lemma contents_empty (b : Ring) : s_count b = 0 -> contents b = [].
Proof. intros H. unfold contents. rewrite H. reflexivity. Qed.

(** [Buffer_Pop] hands out the oldest event and keeps the rest in order. *)
Lemma pop_contents (b : Ring) :
  ring_ok b -> 0 < s_count b ->
  fst (Buffer_Pop b) = Some (slot b (s_tail b)) /\
  ring_ok (snd (Buffer_Pop b)) /\
  s_count (snd (Buffer_Pop b)) = s_count b - 1 /\
  contents b = slot b (s_tail b) :: contents (snd (Buffer_Pop b)).
Proof.
  intros (Hlen & Htail & Hcount & Hhead) Hpos.
  unfold Buffer_Pop. replace (s_count b =? 0) with false by lia. cbn [fst snd].
  assert (Hw : wrap8 (s_count b - 1) = s_count b - 1) by (apply wrap8_small; ring_lia).
  split_ands.
  - reflexivity.
  - unfold ring_ok; simpl. rewrite Hw. split_ands; try exact Hlen; ring_lia.
  - simpl. exact Hw.
  - apply list_eq. intros [| k].
    + rewrite contents_lookup by lia. simpl. do 2 f_equal. ring_lia.
    + simpl. destruct (decide (S k < Z.to_nat (s_count b))%nat) as [Hk | Hk].
      * rewrite !contents_lookup by (simpl; lia). unfold slot. simpl.
        do 4 f_equal. ring_lia.
      * rewrite !contents_lookup_ge by (simpl; lia). reflexivity.
Qed.

Lemma pop_empty (b : Ring) : s_count b = 0 -> Buffer_Pop b = (None, b).
Proof. intros H. unfold Buffer_Pop. rewrite H. reflexivity. Qed.

Lemma ring_ok_reachable (b : Ring) : reachable b -> ring_ok b.
Proof.
  induction 1 as [| e b _ IH | b _ IH | b _ IH].
  - apply ring_ok_init.
  - apply push_contents, IH.
  - destruct (decide (s_count b = 0)) as [H0 | Hpos].
    + rewrite pop_empty by exact H0. exact IH.
    + apply pop_contents; [exact IH |]. destruct IH as (_ & _ & Hc & _). lia.
  - apply ring_ok_clear, IH.
Qed.

Lemma keep_last_app {A : Type} (n : nat) (l1 : list A) (x : A) :
  keep_last n (keep_last n l1 ++ [x]) = keep_last n (l1 ++ [x]).
Proof.
  unfold keep_last. rewrite !length_app, length_drop. simpl.
  destruct (decide (length l1 <= n)%nat) as [Hle | Hgt].
  - replace (length l1 - n)%nat with 0%nat by lia. simpl.
    replace (length l1 - 0)%nat with (length l1) by lia. reflexivity.
  - destruct n as [| n].
    + rewrite !drop_ge; [reflexivity | |];
        rewrite length_app, ?length_drop; simpl; lia.
    + rewrite drop_app_le by (rewrite length_drop; lia).
      rewrite drop_drop.
      rewrite (drop_app_le l1) by lia.
      f_equal. f_equal. lia.
Qed.

Lemma keep_last_short {A : Type} (n : nat) (l : list A) :
  (length l <= n)%nat -> keep_last n l = l.
Proof.
  intros H. unfold keep_last. replace (length l - n)%nat with 0%nat by lia.
  reflexivity.
Qed.

Lemma keep_last_app_list {A : Type} (n : nat) (l1 l2 : list A) :
  keep_last n (keep_last n l1 ++ l2) = keep_last n (l1 ++ l2).
Proof.
  induction l2 as [| x l2 IH] using rev_ind.
  - rewrite !app_nil_r. apply keep_last_short.
    unfold keep_last. rewrite length_drop. lia.
  - rewrite !app_assoc.
    rewrite <- (keep_last_app n (keep_last n l1 ++ l2)), IH.
    apply keep_last_app.
Qed.

Lemma push_all_contents (es : list WorkoutEvent_t) :
  forall b,
    ring_ok b ->
    ring_ok (push_all es b) /\
    contents (push_all es b)
    = keep_last (Z.to_nat BUFFER_MAX_EVENTS) (contents b ++ es).
Proof.
  induction es as [| e es IH]; intros b Hb.
  - split; [exact Hb |]. simpl. rewrite app_nil_r. symmetry. apply keep_last_short.
    rewrite contents_length. destruct Hb as (_ & _ & Hc & _). lia.
  - destruct (push_contents e b Hb) as [Hb1 Hc1].
    destruct (IH _ Hb1) as [Hb2 Hc2].
    change (push_all (e :: es) b) with (push_all es (snd (Buffer_Push (Some e) b))).
    split; [exact Hb2 |]. rewrite Hc2, Hc1.
    rewrite keep_last_app_list, <- app_assoc. reflexivity.
Qed.

(** Enough calls of [Buffer_Pop] empty the ring, oldest event first. *)
Lemma pop_n_contents (n : nat) :
  forall b,
    ring_ok b -> (Z.to_nat (s_count b) <= n)%nat ->
    fst (pop_n n b) = contents b /\
    ring_ok (snd (pop_n n b)) /\
    s_count (snd (pop_n n b)) = 0.
Proof.
  induction n as [| n IH]; intros b Hb Hn.
  - assert (H0 : s_count b = 0) by (destruct Hb as (_ & _ & Hc & _); lia).
    simpl. rewrite contents_empty by exact H0. auto.
  - simpl. destruct (decide (s_count b = 0)) as [H0 | Hpos].
    + rewrite pop_empty by exact H0. simpl.
      rewrite contents_empty by exact H0. auto.
    + assert (Hp : 0 < s_count b) by (destruct Hb as (_ & _ & Hc & _); lia).
      destruct (pop_contents b Hb Hp) as (Hfst & Hb' & Hc' & Hcont).
      destruct (Buffer_Pop b) as [[e |] b'] eqn:Hpop; simpl in Hfst; [| discriminate].
      injection Hfst as ->. simpl in Hb', Hc', Hcont.
      destruct (IH b' Hb' ltac:(lia)) as (Hall & Hok & Hzero).
      simpl. rewrite Hall, Hcont. auto.
Qed.

(** C7.  Whatever the capacity-16 buffer held before, pushing [16 + k] events
    leaves exactly the 16 most recent ones stored, and successive calls of
    [Buffer_Pop] return them in the order they were pushed, after which the
    buffer is empty; with 17 events pushed these are the events 2..17, the
    first one being gone. *)
Theorem overflow_keeps_most_recent (b : Ring) (es : list WorkoutEvent_t) (k : nat) :
  reachable b ->
  length es = (Z.to_nat BUFFER_MAX_EVENTS + k)%nat ->
  Buffer_GetCount (push_all es b) = BUFFER_MAX_EVENTS /\
  contents (push_all es b) = drop k es /\
  fst (pop_n (Z.to_nat BUFFER_MAX_EVENTS) (push_all es b)) = drop k es /\
  Buffer_Pop (snd (pop_n (Z.to_nat BUFFER_MAX_EVENTS) (push_all es b)))
  = (None, snd (pop_n (Z.to_nat BUFFER_MAX_EVENTS) (push_all es b))).
Proof.
  intros Hreach Hlen.
  pose proof (ring_ok_reachable b Hreach) as Hb.
  destruct (push_all_contents es b Hb) as [Hb' Hcont].
  assert (Hkeep : contents (push_all es b) = drop k es).
  { rewrite Hcont. unfold keep_last. rewrite length_app, Hlen.
    rewrite drop_app_ge by lia. f_equal. lia. }
  assert (Hcnt : s_count (push_all es b) = BUFFER_MAX_EVENTS).
  { pose proof (contents_length (push_all es b)) as Hl.
    rewrite Hkeep, length_drop, Hlen in Hl.
    destruct Hb' as (_ & _ & Hc & _). unfold BUFFER_MAX_EVENTS in *. lia. }
  destruct (pop_n_contents (Z.to_nat BUFFER_MAX_EVENTS) (push_all es b) Hb')
    as (Hpops & _ & Hzero); [rewrite Hcnt; lia |].
  split_ands.
  - exact Hcnt.
  - exact Hkeep.
  - rewrite Hpops. exact Hkeep.
  - apply pop_empty, Hzero.
Qed.

Lemma overflow_keeps_most_recent_witness :
  fst (pop_n 16 (push_all (BufferExamples.numbered_events 17) Buffer_Init))
  = drop 1 (BufferExamples.numbered_events 17).
Proof.
  destruct (overflow_keeps_most_recent Buffer_Init (BufferExamples.numbered_events 17) 1)
    as (_ & _ & Hpops & _).
  - apply ring_init.
  - reflexivity.
  - exact Hpops.
Defined.

End BufferFacts.

(** * The control coordinator *)

Module ControlFacts.

Import Lifecycle LifecycleSpec BleTx Control ControlSpec.

(** With the lifecycle paused, [exitHrWaitState] records nothing, queues
    nothing and resumes. *)
Lemma exit_while_paused (env : Env) (confirmed : bool) (c : Ctrl) :
  Workout_GetState (workout c) = STATE_PAUSED ->
  exitHrWaitState env confirmed c
  = mkCtrl (snd (Workout_Start (uptime env 2) (workout c)))
           CTRL_STATE_RUNNING
           (mkHrWait (startMs (s_hrWait c)) false)
           (g_eventQueue c) (ble_sent c).
Proof.
  unfold Workout_GetState. intros Hp.
  unfold exitHrWaitState, Workout_RecordLap. cbn [set_hrWait workout].
  destruct (decide (state (s_session (workout c)) <> STATE_RUNNING)) as [_ | Hn];
    [| exfalso; apply Hn; congruence].
  cbn [fst snd set_workout workout].
  destruct (decide _) as [_ | Hn]; [reflexivity |].
  exfalso. apply Hn. unfold Workout_GetState. congruence.
Qed.

Lemma resume_from_pause (T : Z) (w : Workout) :
  Workout_GetState w = STATE_PAUSED ->
  Workout_Start T w
  = (true, mkWorkout (set_state STATE_RUNNING (s_session w)) (s_pauseStartMs w)
                     (wrap32 (s_totalPausedMs w
                              + wrap32 (Time_GetMs T - s_pauseStartMs w)))).
Proof. unfold Workout_GetState, Workout_Start. intros ->. reflexivity. Qed.

(** Entering the wait leaves the lifecycle paused. *)
Lemma enter_pauses (env : Env) (c : Ctrl) :
  Workout_GetState (workout c) = STATE_RUNNING \/
  Workout_GetState (workout c) = STATE_PAUSED ->
  s_currentState (enterHrWaitState env c) = CTRL_STATE_HR_MEASUREMENT /\
  Workout_GetState (workout (enterHrWaitState env c)) = STATE_PAUSED /\
  active (s_hrWait (enterHrWaitState env c)) = true /\
  startMs (s_hrWait (enterHrWaitState env c)) = Time_GetMs (uptime env 1) /\
  g_eventQueue (enterHrWaitState env c) = g_eventQueue c.
Proof.
  unfold Workout_GetState, enterHrWaitState, sendHrRequest, Workout_Pause.
  intros [Hs | Hs]; destruct (decide _) as [Hn | _]; destruct (connected env);
    simpl; rewrite ?Hs; try tauto; exfalso; apply Hn; exact Hs.
Qed.

Lemma ctrl_inv_exit (env : Env) (confirmed : bool) (c : Ctrl) :
  Workout_GetState (workout c) = STATE_PAUSED ->
  ctrl_inv (exitHrWaitState env confirmed c).
Proof.
  intros Hp. rewrite exit_while_paused by exact Hp.
  rewrite resume_from_pause by exact Hp. unfold ctrl_inv; simpl. left. reflexivity.
Qed.

Lemma ctrl_inv_button (env : Env) (evt : ButtonEvent_t) (c : Ctrl) :
  ctrl_inv c -> ctrl_inv (handleButtonEvent env evt c).
Proof.
  unfold ctrl_inv at 1, handleButtonEvent.
  destruct (s_currentState c) eqn:Hst.
  - intros Hidle. destruct (decide _) as [_ | _].
    + unfold Workout_GetState in Hidle. unfold Workout_Start. rewrite Hidle.
      unfold ctrl_inv; simpl. left. reflexivity.
    + unfold ctrl_inv. rewrite Hst. exact Hidle.
  - intros Hact. destruct (decide _) as [_ | _].
    + destruct (enter_pauses env c Hact) as (H1 & H2 & H3 & _).
      unfold ctrl_inv. rewrite H1. auto.
    + destruct (decide _) as [_ | _].
      * unfold ctrl_inv; simpl. rewrite Hst. unfold Workout_GetState in *.
        unfold Workout_Pause. destruct (decide _) as [Hn | _]; simpl; [tauto | auto].
      * unfold ctrl_inv. rewrite Hst. exact Hact.
  - intros [Hp Hactive]. destruct (decide _) as [_ | _].
    + apply ctrl_inv_exit, Hp.
    + unfold ctrl_inv. rewrite Hst. auto.
Qed.

Lemma ctrl_inv_ble (env : Env) (evt : BleCtrlEvent_t) (c : Ctrl) :
  ctrl_inv c -> ctrl_inv (handleBleCtrlEvent env evt c).
Proof.
  intros Hinv. unfold handleBleCtrlEvent.
  destruct (bool_decide (ble_type evt = BLE_CTRL_EVT_HR_DONE)); simpl; [| exact Hinv].
  destruct (bool_decide (s_currentState c = CTRL_STATE_HR_MEASUREMENT)) eqn:Hhr;
    simpl; [| exact Hinv].
  destruct (active (s_hrWait c)); [| exact Hinv].
  apply bool_decide_eq_true in Hhr. unfold ctrl_inv in Hinv. rewrite Hhr in Hinv.
  apply ctrl_inv_exit, Hinv.
Qed.

Lemma ctrl_inv_iteration (it : Iteration) (c : Ctrl) :
  ctrl_inv c -> ctrl_inv (ControlTask_iteration it c).
Proof.
  intros Hinv. unfold ControlTask_iteration.
  set (c1 := match btn it with Some e => _ | None => c end).
  assert (H1 : ctrl_inv c1)
    by (unfold c1; destruct (btn it); [apply ctrl_inv_button |]; exact Hinv).
  set (c2 := match ble it with Some e => _ | None => c1 end).
  assert (H2 : ctrl_inv c2)
    by (unfold c2; destruct (ble it); [apply ctrl_inv_ble |]; exact H1).
  destruct (bool_decide (s_currentState c2 = CTRL_STATE_HR_MEASUREMENT)) eqn:Hhr;
    simpl; [| exact H2].
  destruct (active (s_hrWait c2)); [| exact H2].
  destruct (_ >? _); [| exact H2].
  apply bool_decide_eq_true in Hhr. unfold ctrl_inv in H2. rewrite Hhr in H2.
  apply ctrl_inv_exit, H2.
Qed.

Lemma reachable_ctrl_inv (c : Ctrl) : reachable c -> ctrl_inv c.
Proof.
  induction 1 as [qu | it c _ IH | c e items _ IH Hq].
  - reflexivity.
  - apply ctrl_inv_iteration, IH.
  - exact IH.
Qed.

Lemma reachable_after_run (its : list Iteration) (c : Ctrl) :
  reachable c -> reachable (ControlTask_Run its c).
Proof.
  revert c. induction its as [| it its IH]; intros c Hc; [exact Hc |].
  simpl. apply IH. apply ctrl_iteration, Hc.
Qed.

Lemma reachable_lap_pressed : reachable lap_pressed.
Proof. apply reachable_after_run. apply (ctrl_init (Some [])). Qed.

(** ** Leaving the wait *)

(** From any reachable state that waits for the confirmation, each of the
    three ways out leaves the transmission queue and the lap records as they
    were: the lap the button asked for is neither recorded nor announced. *)
Lemma hr_wait_exit_queues_nothing (env : Env) (confirmed : bool) (c : Ctrl) :
  reachable c ->
  s_currentState c = CTRL_STATE_HR_MEASUREMENT ->
  g_eventQueue (exitHrWaitState env confirmed c) = g_eventQueue c /\
  laps (s_session (workout (exitHrWaitState env confirmed c)))
  = laps (s_session (workout c)) /\
  current_lap (s_session (workout (exitHrWaitState env confirmed c)))
  = current_lap (s_session (workout c)) /\
  s_currentState (exitHrWaitState env confirmed c) = CTRL_STATE_RUNNING.
Proof.
  intros Hreach Hhr. pose proof (reachable_ctrl_inv c Hreach) as Hinv.
  unfold ctrl_inv in Hinv. rewrite Hhr in Hinv. destruct Hinv as [Hp _].
  rewrite exit_while_paused by exact Hp. rewrite resume_from_pause by exact Hp.
  simpl. auto.
Qed.

(** C1, evaluated.  Boot, [Start] button at 0 ms, [Lap] button at 1000 ms;
    the coordinator is in the HR wait.  Whether the wait then ends by the
    confirmation at 2000 ms, by the timeout seen at 6001 ms or by the [Stop]
    button at 2000 ms, the transmission queue stays empty, the coordinator is
    back in [CTRL_STATE_RUNNING] and the lifecycle is still on lap 1 with no
    lap recorded. *)
Theorem hr_wait_exit_emits_no_event :
  s_currentState lap_pressed = CTRL_STATE_HR_MEASUREMENT /\
  queued lap_pressed = 0%nat /\
  (queued (ControlTask_iteration (pass 2000 None (Some BLE_CTRL_EVT_HR_DONE)) lap_pressed)
   = 0%nat /\
   s_currentState
     (ControlTask_iteration (pass 2000 None (Some BLE_CTRL_EVT_HR_DONE)) lap_pressed)
   = CTRL_STATE_RUNNING /\
   current_lap (s_session (workout
     (ControlTask_iteration (pass 2000 None (Some BLE_CTRL_EVT_HR_DONE)) lap_pressed)))
   = 1) /\
  (queued (ControlTask_iteration (pass 6001 None None) lap_pressed) = 0%nat /\
   s_currentState (ControlTask_iteration (pass 6001 None None) lap_pressed)
   = CTRL_STATE_RUNNING /\
   current_lap (s_session (workout
     (ControlTask_iteration (pass 6001 None None) lap_pressed))) = 1) /\
  (queued (ControlTask_iteration (pass 2000 (Some BTN_STOP) None) lap_pressed) = 0%nat /\
   s_currentState (ControlTask_iteration (pass 2000 (Some BTN_STOP) None) lap_pressed)
   = CTRL_STATE_RUNNING /\
   current_lap (s_session (workout
     (ControlTask_iteration (pass 2000 (Some BTN_STOP) None) lap_pressed))) = 1).
Proof. vm_compute. repeat split. Qed.

(** C2.  Let the coordinator be in the HR wait, in any state it can reach.
    A pass of its loop whose deadline check finds more than
    [HR_CONFIRM_TIMEOUT_MS] elapsed since [s_hrWait.startMs] ends with the
    coordinator in [CTRL_STATE_RUNNING], whatever the two queues delivered
    in that pass, and with the paused lifecycle running again, resumed by a
    successful [Workout_Start]. *)
Theorem hr_wait_timeout_resumes (c : Ctrl) (it : Iteration) :
  reachable c ->
  s_currentState c = CTRL_STATE_HR_MEASUREMENT ->
  wrap32 (Time_GetMs (check_uptime it) - startMs (s_hrWait c)) > HR_CONFIRM_TIMEOUT_MS ->
  s_currentState (ControlTask_iteration it c) = CTRL_STATE_RUNNING /\
  Workout_GetState (workout c) = STATE_PAUSED /\
  Workout_GetState (workout (ControlTask_iteration it c)) = STATE_RUNNING /\
  exists T, Workout_Start T (workout c) = (true, workout (ControlTask_iteration it c)).
Proof.
  intros Hreach Hhr Hlate. pose proof (reachable_ctrl_inv c Hreach) as Hinv.
  unfold ctrl_inv in Hinv. rewrite Hhr in Hinv. destruct Hinv as [Hp Hactive].
  assert (Hexit : forall env confirmed,
             s_currentState (exitHrWaitState env confirmed c) = CTRL_STATE_RUNNING /\
             Workout_GetState (workout c) = STATE_PAUSED /\
             Workout_GetState (workout (exitHrWaitState env confirmed c)) = STATE_RUNNING /\
             exists T, Workout_Start T (workout c)
                       = (true, workout (exitHrWaitState env confirmed c))).
  { intros env confirmed. rewrite exit_while_paused by exact Hp.
    cbn [s_currentState workout]. split_ands; try reflexivity; try exact Hp.
    - rewrite resume_from_pause by exact Hp. reflexivity.
    - exists (uptime env 2). rewrite resume_from_pause by exact Hp. reflexivity. }
  unfold ControlTask_iteration.
  assert (Hbtn : forall e, handleButtonEvent (btn_env it) e c = c \/
                           handleButtonEvent (btn_env it) e c
                           = exitHrWaitState (btn_env it) false c).
  { intros e. unfold handleButtonEvent. rewrite Hhr. destruct (decide _); auto. }
  assert (Hout : forall env confirmed (c' : Ctrl),
             c' = exitHrWaitState env confirmed c ->
             bool_decide (s_currentState c' = CTRL_STATE_HR_MEASUREMENT) = false).
  { intros env confirmed c' ->. destruct (Hexit env confirmed) as [-> _]. reflexivity. }
  set (c1 := match btn it with Some e => _ | None => c end).
  assert (H1 : c1 = c \/ c1 = exitHrWaitState (btn_env it) false c)
    by (unfold c1; destruct (btn it); [apply Hbtn | auto]).
  set (c2 := match ble it with Some e => _ | None => c1 end).
  assert (H2 : c2 = c \/ exists env confirmed, c2 = exitHrWaitState env confirmed c).
  { unfold c2. destruct (ble it) as [e |].
    - unfold handleBleCtrlEvent. destruct H1 as [-> | H1].
      + rewrite Hhr, Hactive.
        destruct (bool_decide (ble_type e = BLE_CTRL_EVT_HR_DONE)); simpl; eauto.
      + rewrite (Hout _ _ _ H1), andb_false_r. simpl. eauto.
    - destruct H1 as [-> | H1]; eauto. }
  destruct H2 as [-> | (env & confirmed & H2)].
  - rewrite Hhr, Hactive. simpl.
    replace (_ >? _) with true by (symmetry; apply Z.gtb_lt; lia).
    apply Hexit.
  - rewrite (Hout _ _ _ H2). simpl. rewrite H2. apply Hexit.
Qed.

Lemma hr_wait_timeout_resumes_witness :
  s_currentState (ControlTask_iteration (pass 6001 None None) lap_pressed)
  = CTRL_STATE_RUNNING /\
  Workout_GetState (workout (ControlTask_iteration (pass 6001 None None) lap_pressed))
  = STATE_RUNNING.
Proof.
  destruct (hr_wait_timeout_resumes lap_pressed (pass 6001 None None))
    as (Hctrl & _ & Hrun & _).
  - apply reachable_lap_pressed.
  - reflexivity.
  - reflexivity.
  - split; [exact Hctrl | exact Hrun].
Defined.

(** C3.  Let the lifecycle be running when the coordinator enters the HR
    wait.  After the exit step, which attempts the lap recording and resumes
    in one go, the cumulative paused time has grown by the interval between
    the pause and the resume, once, modulo 2^32; nothing else in the session
    has changed; and every later query of the elapsed time is the value the
    session would have shown without the wait, less that one interval.  The
    query's first clock read is made at [T]; [T'] stands for its second,
    which a running session does not make. *)
Theorem hr_wait_interval_counted_once
    (c : Ctrl) (enter_env exit_env : Env) (confirmed : bool) (T T' : Z) :
  Workout_GetState (workout c) = STATE_RUNNING ->
  s_totalPausedMs (workout (exitHrWaitState exit_env confirmed (enterHrWaitState enter_env c)))
  = wrap32 (s_totalPausedMs (workout c)
            + wrap32 (Time_GetMs (uptime exit_env 2) - Time_GetMs (uptime enter_env 0))) /\
  s_session (workout (exitHrWaitState exit_env confirmed (enterHrWaitState enter_env c)))
  = s_session (workout c) /\
  Workout_GetElapsedMs T T'
    (workout (exitHrWaitState exit_env confirmed (enterHrWaitState enter_env c)))
  = wrap32 (Workout_GetElapsedMs T T' (workout c)
            - wrap32 (Time_GetMs (uptime exit_env 2) - Time_GetMs (uptime enter_env 0))).
Proof.
  intros Hrun.
  destruct (enter_pauses enter_env c (or_introl Hrun)) as (_ & Hp & _).
  rewrite exit_while_paused by exact Hp. rewrite resume_from_pause by exact Hp.
  cbn [snd workout s_totalPausedMs s_session].
  assert (Hw : workout (enterHrWaitState enter_env c)
               = mkWorkout (set_state STATE_PAUSED (s_session (workout c)))
                           (Time_GetMs (uptime enter_env 0))
                           (s_totalPausedMs (workout c))).
  { unfold enterHrWaitState, sendHrRequest, Workout_Pause.
    destruct (decide _) as [Hn | _]; [exfalso; apply Hn; exact Hrun |].
    destruct (connected enter_env); reflexivity. }
  rewrite Hw. cbn [s_totalPausedMs s_pauseStartMs s_session].
  unfold Workout_GetState in Hrun.
  assert (Hsame : set_state STATE_RUNNING (set_state STATE_PAUSED (s_session (workout c)))
                  = s_session (workout c)).
  { destruct (s_session (workout c)); simpl in *. subst. reflexivity. }
  split_ands.
  - reflexivity.
  - exact Hsame.
  - unfold Workout_GetElapsedMs. cbn [s_session s_totalPausedMs].
    rewrite Hsame, Hrun.
    destruct (decide _) as [Hn | _]; [discriminate |].
    destruct (decide _) as [Hn | _]; [discriminate |].
    wrap32_lia.
Qed.

Lemma hr_wait_interval_counted_once_witness :
  s_totalPausedMs
    (workout (exitHrWaitState (at_time 2000) true
                (enterHrWaitState (at_time 1000)
                   (ControlTask_Run [pass 0 (Some BTN_START) None] booted))))
  = 1000 /\
  Workout_GetElapsedMs 3000 3000
    (workout (exitHrWaitState (at_time 2000) true
                (enterHrWaitState (at_time 1000)
                   (ControlTask_Run [pass 0 (Some BTN_START) None] booted))))
  = 2000.
Proof.
  destruct (hr_wait_interval_counted_once
              (ControlTask_Run [pass 0 (Some BTN_START) None] booted)
              (at_time 1000) (at_time 2000) true 3000 3000) as (Hpaused & _ & Helapsed).
  - reflexivity.
  - split; [exact Hpaused | exact Helapsed].
Defined.

End ControlFacts.

(** * The protocol codec *)

Module ProtocolFacts.

Import Lifecycle Protocol ProtocolSpec.

Local Open Scope string_scope.

(** ** Decimal conversion *)

Lemma string_length_app (s1 s2 : string) :
  String.length (s1 ++ s2) = (String.length s1 + String.length s2)%nat.
Proof. induction s1 as [| c s1 IH]; simpl; [reflexivity | rewrite IH; reflexivity]. Qed.

Lemma substring_all (n : nat) (s : string) :
  (String.length s <= n)%nat -> substring 0 n s = s.
Proof.
  revert n. induction s as [| c s IH]; intros [| n] H; simpl in *; try reflexivity; try lia.
  rewrite IH by lia. reflexivity.
Qed.

Lemma digit_char_code (d : Z) :
  0 <= d < 10 -> nat_of_ascii (ascii_of_nat (48 + Z.to_nat d)) = (48 + Z.to_nat d)%nat.
Proof. intros H. apply nat_ascii_embedding. lia. Qed.

Lemma tenth_below (fuel : nat) (n : Z) :
  0 <= n < 2 ^ Z.of_nat (S fuel) -> 0 <= n / 10 < 2 ^ Z.of_nat fuel.
Proof.
  rewrite Nat2Z.inj_succ, Z.pow_succ_r by lia. intros H.
  split; [apply Z.div_pos; lia |].
  apply Z.div_lt_upper_bound; lia.
Qed.

Lemma utoa_rec_value (fuel : nat) :
  forall n acc,
    0 <= n < 2 ^ Z.of_nat fuel ->
    dec_value (utoa_rec fuel n acc)
    = n * 10 ^ Z.of_nat (String.length acc) + dec_value acc.
Proof.
  induction fuel as [| fuel IH]; intros n acc Hn.
  - simpl in *. assert (n = 0) as -> by lia. lia.
  - cbn [utoa_rec]. pose proof (tenth_below fuel n Hn) as Hq.
    assert (Hd : 0 <= n mod 10 < 10) by (apply Z.mod_pos_bound; lia).
    pose proof (Z.div_mod n 10 ltac:(lia)) as Hdm.
    destruct (n / 10 =? 0)%Z eqn:Hz.
    + cbn [dec_value]. rewrite digit_char_code by exact Hd.
      apply Z.eqb_eq in Hz. nia.
    + rewrite IH by exact Hq. cbn [dec_value String.length].
      rewrite digit_char_code by exact Hd.
      rewrite Nat2Z.inj_succ, Z.pow_succ_r by lia. nia.
Qed.

Lemma utoa_rec_digits (fuel : nat) :
  forall n acc, 0 <= n -> all_digits acc -> all_digits (utoa_rec fuel n acc).
Proof.
  induction fuel as [| fuel IH]; intros n acc Hn Hacc; [exact Hacc |].
  cbn [utoa_rec].
  assert (Hd : 0 <= n mod 10 < 10) by (apply Z.mod_pos_bound; lia).
  assert (Hacc' : all_digits (String (ascii_of_nat (48 + Z.to_nat (n mod 10))) acc)).
  { split; [| exact Hacc]. unfold is_digit. rewrite digit_char_code by exact Hd. lia. }
  destruct (n / 10 =? 0)%Z; [exact Hacc' |].
  apply IH; [apply Z.div_pos; lia | exact Hacc'].
Qed.

Lemma digit_char_nonzero (d : Z) :
  0 < d < 10 -> ascii_of_nat (48 + Z.to_nat d) <> "0"%char.
Proof.
  intros Hd Heq. apply (f_equal nat_of_ascii) in Heq.
  rewrite digit_char_code in Heq by lia.
  change (nat_of_ascii "0") with 48%nat in Heq. lia.
Qed.

Lemma utoa_rec_head (fuel : nat) :
  forall n acc,
    0 < n < 2 ^ Z.of_nat fuel ->
    exists c r, utoa_rec fuel n acc = String c r /\ c <> "0"%char.
Proof.
  induction fuel as [| fuel IH]; intros n acc Hn; [simpl in Hn; lia |].
  cbn [utoa_rec]. pose proof (tenth_below fuel n ltac:(lia)) as Hq.
  pose proof (Z.div_mod n 10 ltac:(lia)) as Hdm.
  assert (Hd : 0 <= n mod 10 < 10) by (apply Z.mod_pos_bound; lia).
  destruct (n / 10 =? 0)%Z eqn:Hz.
  - apply Z.eqb_eq in Hz. eexists _, _. split; [reflexivity |].
    apply digit_char_nonzero. lia.
  - apply Z.eqb_neq in Hz. apply IH. lia.
Qed.

Lemma utoa_rec_length (fuel : nat) :
  forall n acc (k : nat),
    0 <= n < 10 ^ Z.of_nat k -> (1 <= k)%nat ->
    (String.length (utoa_rec fuel n acc) <= k + String.length acc)%nat.
Proof.
  induction fuel as [| fuel IH]; intros n acc k Hn Hk; [simpl; lia |].
  cbn [utoa_rec].
  destruct (n / 10 =? 0)%Z eqn:Hz; [simpl; lia |].
  apply Z.eqb_neq in Hz.
  destruct k as [| [| k]]; [lia | |].
  - exfalso. apply Hz. apply Z.div_small. simpl in Hn. lia.
  - specialize (IH (n / 10)
                   (String (ascii_of_nat (48 + Z.to_nat (n mod 10))) acc) (S k)).
    cbn [String.length] in IH.
    assert (Hq : 0 <= n / 10 < 10 ^ Z.of_nat (S k)).
    { split; [apply Z.div_pos; lia |].
      apply Z.div_lt_upper_bound; [lia |].
      rewrite <- Z.pow_succ_r by lia. rewrite <- Nat2Z.inj_succ. lia. }
    specialize (IH Hq ltac:(lia)). lia.
Qed.

Lemma log2_fuel (n : Z) : 0 <= n -> n < 2 ^ Z.of_nat (S (Z.to_nat (Z.log2 n))).
Proof.
  intros Hn. rewrite Nat2Z.inj_succ, Z2Nat.id by apply Z.log2_nonneg.
  destruct (Z.eq_dec n 0) as [-> | Hne]; [reflexivity |].
  apply Z.log2_spec. lia.
Qed.

(** [utoa] writes the plain base-10 numeral of its argument. *)
Lemma utoa_decimal (n : Z) : 0 <= n -> decimal_of n (utoa n).
Proof.
  intros Hn. pose proof (log2_fuel n Hn) as Hfuel. unfold decimal_of, utoa.
  split_ands.
  - exact Hn.
  - apply utoa_rec_digits; [exact Hn | exact I].
  - destruct (Z.eq_dec n 0) as [-> | Hne]; [left; reflexivity |].
    right. apply utoa_rec_head. lia.
  - rewrite utoa_rec_value by lia. simpl. lia.
Qed.

Lemma utoa_length (n : Z) (k : nat) :
  0 <= n < 10 ^ Z.of_nat k -> (1 <= k)%nat -> (String.length (utoa n) <= k)%nat.
Proof.
  intros Hn Hk. unfold utoa.
  pose proof (utoa_rec_length (S (Z.to_nat (Z.log2 n))) n EmptyString k Hn Hk) as H.
  change (String.length EmptyString) with 0%nat in H. lia.
Qed.

(** ** The serializer against the wire records *)

Lemma print_d_nonneg (z : Z) : 0 <= z -> print_d z = utoa z.
Proof. intros H. unfold print_d. replace (z <? 0)%Z with false by lia. reflexivity. Qed.

Lemma print_lu_u32 (z : Z) : u32 z -> print_lu z = utoa z.
Proof. intros H. unfold print_lu. rewrite wrap32_small by exact H. reflexivity. Qed.

Lemma elapsed_u32 (T1 T2 : Z) (w : Workout) : u32 (Workout_GetElapsedMs T1 T2 w).
Proof.
  unfold Workout_GetElapsedMs, u32.
  destruct (decide _); [lia |]. destruct (decide _); apply wrap32_range.
Qed.

Lemma utoa_length_u8 (n : Z) : 0 <= n < 2 ^ 8 -> (String.length (utoa n) <= 3)%nat.
Proof. intros H. apply utoa_length; [simpl; lia | lia]. Qed.

Lemma utoa_length_u32 (n : Z) : u32 n -> (String.length (utoa n) <= 10)%nat.
Proof. unfold u32. intros H. apply utoa_length; [simpl; lia | lia]. Qed.

(** What [Protocol_SerializeEvent] returns once [snprintf] has produced
    [out] and [out] fits the buffer. *)
Lemma snprintf_fits (bufLen : Z) (fmt : string) (args : list printf_arg) (out : string) :
  format fmt args = out ->
  (String.length out < 128)%nat -> PROTOCOL_MAX_MSG_LEN <= bufLen ->
  snprintf bufLen fmt args = (Z.of_nat (String.length out), out) /\
  ((Z.of_nat (String.length out) <? 0)%Z
   || (Z.of_nat (String.length out) >=? bufLen)%Z = false) /\
  wrap16 (Z.of_nat (String.length out)) = Z.of_nat (String.length out).
Proof.
  unfold PROTOCOL_MAX_MSG_LEN. intros Hfmt Hlen Hbuf. unfold snprintf. rewrite Hfmt.
  split_ands.
  - rewrite substring_all by lia. reflexivity.
  - apply orb_false_iff. split; lia.
  - unfold wrap16. apply Z.mod_small. lia.
Qed.

Lemma string_app_assoc (a b c : string) : (a ++ b) ++ c = a ++ (b ++ c).
Proof. induction a as [| x a IH]; simpl; [reflexivity | rewrite IH; reflexivity]. Qed.

(** Normalise both sides of a format-against-record goal to literal
    characters around the numerals, appended to the right. *)
Ltac expand_record :=
  repeat match goal with
         | |- context [q ?s] =>
             let v := eval vm_compute in (q s) in change (q s) with v
         end;
  unfold render, render_members, render_member, render_field, dq;
  (let v := eval vm_compute in (ascii_of_nat 34) in change (ascii_of_nat 34) with v);
  cbn [fst snd format append mode_name state_name Workout_ModeToString
       Workout_StateToString];
  repeat first [rewrite string_app_assoc | progress cbn [append]].

Ltac measure_record :=
  repeat (cbn [String.length] || rewrite string_length_app).

(** C9.  For every event whose fields hold values of their C types, with
    the lap total of the session a byte, and a buffer of at least
    [PROTOCOL_MAX_MSG_LEN] characters, [Protocol_SerializeEvent] returns the
    length of, and leaves in the buffer, exactly the record that section 6
    prescribes for the event's kind: members in the stated order, literal text
    character for character, every number as its plain non-negative base-10
    numeral.  A [LapComplete] event gives the members [event], [lap],
    [lap_ms], [split_ms], [ts]; a [Done] event's [total_ms] is the event's
    [split_time_ms]. *)
Theorem serialize_event_wire_record
    (w : Workout) (T1 T2 : Z) (e : WorkoutEvent_t) (old : string) (bufLen : Z) :
  event_in_range e ->
  0 <= total_laps (config (s_session w)) < 2 ^ 8 ->
  PROTOCOL_MAX_MSG_LEN <= bufLen ->
  exists fields,
    wire_record (s_session w) e fields /\
    numbers_plain fields /\
    (type e = EVENT_LAP_COMPLETE ->
     fields = [("event", FText "lap"); ("lap", FNumber (lap_number (lap_data e)));
               ("lap_ms", FNumber (lap_time_ms (lap_data e)));
               ("split_ms", FNumber (split_time_ms (lap_data e)));
               ("ts", FNumber (timestamp_ms e))]) /\
    (type e = EVENT_WORKOUT_DONE ->
     fields = [("event", FText "done");
               ("laps", FNumber (total_laps (config (s_session w))));
               ("total_ms", FNumber (split_time_ms (lap_data e)));
               ("ts", FNumber (timestamp_ms e))]) /\
    Protocol_SerializeEvent w T1 T2 (Some e) (Some old) bufLen
    = (Z.of_nat (String.length (render fields)), Some (render fields)).
Proof.
  intros (Hts & Hcl & Hln & Hlt & Hsp) Htl Hbuf.
  pose proof (utoa_length_u32 _ Hts) as Lts.
  pose proof (utoa_length_u8 _ Hcl) as Lcl.
  pose proof (utoa_length_u8 _ Hln) as Lln.
  pose proof (utoa_length_u32 _ Hlt) as Llt.
  pose proof (utoa_length_u32 _ Hsp) as Lsp.
  pose proof (utoa_length_u8 _ Htl) as Ltl.
  unfold Protocol_SerializeEvent, Workout_GetSession.
  replace (bufLen <? 50)%Z with false by (unfold PROTOCOL_MAX_MSG_LEN in Hbuf; lia).
  destruct (type e) eqn:Hty.
  - (* Start *)
    eexists. split; [apply wire_start, Hty |].
    split.
    { unfold numbers_plain. repeat (apply Forall_cons; split; [simpl | ]);
        try exact I; try (apply utoa_decimal; unfold u32 in *; lia). constructor. }
    split; [intros H; first [discriminate H | reflexivity] |].
    split; [intros H; first [discriminate H | reflexivity] |].
    match goal with |- context [snprintf bufLen ?f ?a] =>
      destruct (snprintf_fits bufLen f a (render
        [("event", FText "start"); ("mode", FText (mode_name (mode (config (s_session w)))));
         ("laps", FNumber (total_laps (config (s_session w))));
         ("ts", FNumber (timestamp_ms e))])) as (-> & Hok & Hw16)
    end; try exact Hbuf.
    + destruct (mode (config (s_session w))); expand_record;
        rewrite print_d_nonneg, print_lu_u32 by (assumption || lia); reflexivity.
    + destruct (mode (config (s_session w))); expand_record; measure_record; lia.
    + cbn [fst snd]. rewrite Hok, Hw16. reflexivity.
  - (* Stop *)
    pose proof (wrap32_range (timestamp_ms e - workout_start_ms (s_session w))) as Htot.
    pose proof (utoa_length_u32 _ Htot) as Ltot.
    eexists. split; [apply (wire_stop _ _ _ Hty Htot) |].
    split.
    { unfold numbers_plain. repeat (apply Forall_cons; split; [simpl | ]);
        try exact I; try (apply utoa_decimal; unfold u32 in *; lia). constructor. }
    split; [intros H; first [discriminate H | reflexivity] |].
    split; [intros H; first [discriminate H | reflexivity] |].
    match goal with |- context [snprintf bufLen ?f ?a] =>
      destruct (snprintf_fits bufLen f a (render
        [("event", FText "stop"); ("laps", FNumber (ev_current_lap e));
         ("total_ms",
          FNumber (wrap32 (timestamp_ms e - workout_start_ms (s_session w))));
         ("ts", FNumber (timestamp_ms e))])) as (-> & Hok & Hw16)
    end; try exact Hbuf.
    + expand_record.
      rewrite print_d_nonneg, !print_lu_u32 by (assumption || lia); reflexivity.
    + expand_record; measure_record; lia.
    + cbn [fst snd]. rewrite Hok, Hw16. reflexivity.
  - (* LapComplete *)
    eexists. split; [apply wire_lap, Hty |].
    split.
    { unfold numbers_plain. repeat (apply Forall_cons; split; [simpl | ]);
        try exact I; try (apply utoa_decimal; unfold u32 in *; lia). constructor. }
    split; [intros H; first [discriminate H | reflexivity] |].
    split; [intros H; first [discriminate H | reflexivity] |].
    match goal with |- context [snprintf bufLen ?f ?a] =>
      destruct (snprintf_fits bufLen f a (render
        [("event", FText "lap"); ("lap", FNumber (lap_number (lap_data e)));
         ("lap_ms", FNumber (lap_time_ms (lap_data e)));
         ("split_ms", FNumber (split_time_ms (lap_data e)));
         ("ts", FNumber (timestamp_ms e))])) as (-> & Hok & Hw16)
    end; try exact Hbuf.
    + expand_record.
      rewrite print_d_nonneg, !print_lu_u32 by (assumption || lia); reflexivity.
    + expand_record; measure_record; lia.
    + cbn [fst snd]. rewrite Hok, Hw16. reflexivity.
  - (* Done *)
    eexists. split; [apply wire_done, Hty |].
    split.
    { unfold numbers_plain. repeat (apply Forall_cons; split; [simpl | ]);
        try exact I; try (apply utoa_decimal; unfold u32 in *; lia). constructor. }
    split; [intros H; first [discriminate H | reflexivity] |].
    split; [intros H; first [discriminate H | reflexivity] |].
    match goal with |- context [snprintf bufLen ?f ?a] =>
      destruct (snprintf_fits bufLen f a (render
        [("event", FText "done"); ("laps", FNumber (total_laps (config (s_session w))));
         ("total_ms", FNumber (split_time_ms (lap_data e)));
         ("ts", FNumber (timestamp_ms e))])) as (-> & Hok & Hw16)
    end; try exact Hbuf.
    + expand_record.
      rewrite print_d_nonneg, !print_lu_u32 by (assumption || lia); reflexivity.
    + expand_record; measure_record; lia.
    + cbn [fst snd]. rewrite Hok, Hw16. reflexivity.
  - (* StatusUpdate *)
    pose proof (elapsed_u32 T1 T2 w) as Hel.
    pose proof (utoa_length_u32 _ Hel) as Lel.
    eexists. split; [apply (wire_status _ _ _ Hty Hel) |].
    split.
    { unfold numbers_plain. repeat (apply Forall_cons; split; [simpl | ]);
        try exact I; try (apply utoa_decimal; unfold u32 in *; lia). constructor. }
    split; [intros H; first [discriminate H | reflexivity] |].
    split; [intros H; first [discriminate H | reflexivity] |].
    match goal with |- context [snprintf bufLen ?f ?a] =>
      destruct (snprintf_fits bufLen f a (render
        [("event", FText "status"); ("state", FText (state_name (state (s_session w))));
         ("lap", FNumber (ev_current_lap e));
         ("elapsed_ms", FNumber (Workout_GetElapsedMs T1 T2 w))])) as (-> & Hok & Hw16)
    end; try exact Hbuf.
    + destruct (state (s_session w)); expand_record;
        rewrite print_d_nonneg, print_lu_u32 by (assumption || lia); reflexivity.
    + destruct (state (s_session w)); expand_record; measure_record; lia.
    + cbn [fst snd]. rewrite Hok, Hw16. reflexivity.
Qed.

Lemma serialize_event_wire_record_witness :
  Protocol_SerializeEvent Workout_Init 0 0 (Some lap_event) (Some EmptyString) 128
  = (63,
     Some (render [("event", FText "lap"); ("lap", FNumber 4); ("lap_ms", FNumber 1200);
                   ("split_ms", FNumber 5200); ("ts", FNumber 5200)])).
Proof.
  destruct (serialize_event_wire_record Workout_Init 0 0 lap_event EmptyString 128)
    as (fields & _ & _ & Hlap & _ & Heq).
  - unfold event_in_range, u32; simpl. lia.
  - simpl. lia.
  - unfold PROTOCOL_MAX_MSG_LEN. lia.
  - rewrite (Hlap eq_refl) in Heq. exact Heq.
Defined.

(** Scenario A's last lap on the wire. *)
Example serialize_lap_example :
  Protocol_SerializeEvent Workout_Init 0 0 (Some lap_event) (Some EmptyString) 128
  = (63, Some (q "{'event':'lap','lap':4,'lap_ms':1200,'split_ms':5200,'ts':5200}")).
Proof. vm_compute. reflexivity. Qed.

(** ** What the serializer depends on *)

(** C10.  [Protocol_SerializeEvent] returns a length and a buffer content
    and changes nothing else.  Both are determined by the event, the buffer
    and its capacity, and by what the function reads of the workout module
    for the event's kind: the configured mode and lap total for [Start], the
    lap total for [Done], the workout start time for [Stop], the lifecycle
    state and the elapsed time for [StatusUpdate], and nothing at all for
    [LapComplete]. *)
Theorem serialize_reads_only
    (w1 w2 : Workout) (T1 T2 T1' T2' : Z)
    (pEvent : option WorkoutEvent_t) (pBuffer : option string) (bufLen : Z) :
  (forall e, pEvent = Some e -> agree_for (type e) w1 T1 T2 w2 T1' T2') ->
  Protocol_SerializeEvent w1 T1 T2 pEvent pBuffer bufLen
  = Protocol_SerializeEvent w2 T1' T2' pEvent pBuffer bufLen.
Proof.
  intros Hagree. unfold Protocol_SerializeEvent, Workout_GetSession.
  destruct pEvent as [e |]; [| reflexivity].
  destruct pBuffer as [old |]; [| reflexivity].
  destruct (bufLen <? 50)%Z; [reflexivity |].
  specialize (Hagree e eq_refl). unfold agree_for in Hagree.
  destruct (type e).
  - destruct Hagree as [-> ->]. reflexivity.
  - rewrite Hagree. reflexivity.
  - reflexivity.
  - rewrite Hagree. reflexivity.
  - destruct Hagree as [-> ->]. reflexivity.
Qed.

Lemma serialize_reads_only_witness :
  Protocol_SerializeEvent Workout_Init 0 0 (Some lap_event) (Some EmptyString) 128
  = Protocol_SerializeEvent
      (snd (Workout_Start 7000 (snd (Workout_SetMode MODE_5x1000M Workout_Init))))
      9000 9000 (Some lap_event) (Some EmptyString) 128.
Proof.
  apply serialize_reads_only.
  intros e He. injection He as <-. exact I.
Defined.

(** C10, as worded, fails: the same [Start] event serialized into the same
    buffer gives another record once the global session has another mode. *)
Lemma serialize_reads_global_session :
  Protocol_SerializeEvent Workout_Init 0 0 (Some start_event) (Some EmptyString) 128
  = (49, Some (q "{'event':'start','mode':'4x500m','laps':4,'ts':0}")) /\
  Protocol_SerializeEvent (snd (Workout_SetMode MODE_5x1000M Workout_Init)) 0 0
                          (Some start_event) (Some EmptyString) 128
  = (50, Some (q "{'event':'start','mode':'5x1000m','laps':5,'ts':0}")) /\
  Protocol_SerializeEvent Workout_Init 0 0 (Some start_event) (Some EmptyString) 128
  <> Protocol_SerializeEvent (snd (Workout_SetMode MODE_5x1000M Workout_Init)) 0 0
                             (Some start_event) (Some EmptyString) 128.
Proof.
  split; [vm_compute; reflexivity |]. split; [vm_compute; reflexivity |].
  vm_compute. discriminate.
Qed.

End ProtocolFacts.


(** * Time utilities *)

Module TimeFacts.

Import Protocol ProtocolSpec ProtocolFacts TimeUtils.

Local Open Scope string_scope.

Lemma zeros_length (n : nat) : String.length (zeros n) = n.
Proof. induction n as [| n IH]; simpl; [reflexivity | rewrite IH; reflexivity]. Qed.

Lemma zeros_digits (n : nat) (s : string) : all_digits s -> all_digits (zeros n ++ s).
Proof.
  intros Hs. induction n as [| n IH]; simpl; [exact Hs |].
  split; [unfold is_digit; change (nat_of_ascii "0") with 48%nat; lia | exact IH].
Qed.

Lemma zeros_value (n : nat) (s : string) : dec_value (zeros n ++ s) = dec_value s.
Proof.
  induction n as [| n IH]; [reflexivity |].
  cbn [zeros append dec_value]. rewrite IH.
  change (nat_of_ascii "0") with 48%nat. lia.
Qed.

(** What [%0<width>lu] prints for a number below [10 ^ k]. *)
Lemma print_0lu_spec (width k : nat) (z : Z) :
  0 <= z < 10 ^ Z.of_nat k -> z < 2 ^ 32 -> (1 <= k)%nat ->
  all_digits (print_0lu width z) /\
  dec_value (print_0lu width z) = z /\
  (width <= String.length (print_0lu width z) <= Nat.max width k)%nat.
Proof.
  intros Hz H32 Hk. unfold print_0lu.
  rewrite print_lu_u32 by (unfold u32; lia).
  destruct (utoa_decimal z) as (_ & Hd & _ & Hv); [lia |].
  pose proof (utoa_length z k Hz Hk) as Hl.
  split_ands.
  - apply zeros_digits, Hd.
  - rewrite zeros_value. exact Hv.
  - rewrite string_length_app, zeros_length. lia.
  - rewrite string_length_app, zeros_length. lia.
Qed.

(** X1.  [Time_ElapsedMs] returns the true time since the start mark, also
    when the 32-bit clock wrapped around in between, as long as less than
    2^32 ms went by: for a mark taken at uptime [T0] and a query at uptime
    [T], the result is [T - T0]. *)
Theorem elapsed_ms_exact_across_wrap (T0 T : Z) :
  0 <= T - T0 < 2 ^ 32 ->
  Time_ElapsedMs T (Time_GetMs T0) = T - T0.
Proof.
  intros H. unfold Time_ElapsedMs.
  destruct (_ >=? _)%Z; wrap32_lia.
Qed.

Lemma elapsed_ms_exact_across_wrap_witness :
  Time_ElapsedMs 4294967301 (Time_GetMs 4294967290) = 11.
Proof. apply (elapsed_ms_exact_across_wrap 4294967290 4294967301). lia. Defined.

(** X2.  For every 32-bit number of milliseconds and a buffer of at least 13
    characters, [Time_FormatMmSsMsss] leaves the text [M:SS.mmm] in the
    buffer: minutes in at least two digits, seconds below 60 in exactly two,
    milliseconds in exactly three, all zero-padded, and the three numbers
    give the input back.  Below 100 minutes the minutes take exactly two
    digits. *)
Theorem format_mm_ss_msss_decodes (ms : Z) (buffer : string) (buf_len : Z) :
  0 <= ms < 2 ^ 32 -> 13 <= buf_len ->
  exists M S R : string,
    Time_FormatMmSsMsss ms buffer buf_len = M ++ ":" ++ S ++ "." ++ R /\
    all_digits M /\ all_digits S /\ all_digits R /\
    (2 <= String.length M)%nat /\ String.length S = 2%nat /\ String.length R = 3%nat /\
    dec_value S < 60 /\
    dec_value M * 60000 + dec_value S * 1000 + dec_value R = ms /\
    (ms < 6000000 -> String.length M = 2%nat).
Proof.
  intros Hms Hbuf. unfold Time_FormatMmSsMsss.
  replace (buf_len =? 0)%Z with false by lia.
  change (format_0lu "%02lu:%02lu.%03lu" [ms / 1000 / 60; (ms / 1000) mod 60; ms mod 1000]%Z)
    with (print_0lu 2 (ms / 1000 / 60) ++ ":" ++ print_0lu 2 ((ms / 1000) mod 60)
          ++ "." ++ print_0lu 3 (ms mod 1000) ++ "").
  assert (HM : 0 <= ms / 1000 / 60 < 10 ^ Z.of_nat 5)
    by (change (10 ^ Z.of_nat 5) with 100000; Z.div_mod_to_equations; lia).
  assert (HS : 0 <= (ms / 1000) mod 60 < 10 ^ Z.of_nat 2)
    by (change (10 ^ Z.of_nat 2) with 100; Z.div_mod_to_equations; lia).
  assert (HR : 0 <= ms mod 1000 < 10 ^ Z.of_nat 3)
    by (change (10 ^ Z.of_nat 3) with 1000; Z.div_mod_to_equations; lia).
  destruct (print_0lu_spec 2 5 _ HM) as (DM & VM & LM); [Z.div_mod_to_equations; lia | lia |].
  destruct (print_0lu_spec 2 2 _ HS) as (DS & VS & LS); [Z.div_mod_to_equations; lia | lia |].
  destruct (print_0lu_spec 3 3 _ HR) as (DR & VR & LR); [Z.div_mod_to_equations; lia | lia |].
  exists (print_0lu 2 (ms / 1000 / 60)), (print_0lu 2 ((ms / 1000) mod 60)),
         (print_0lu 3 (ms mod 1000)).
  split_ands; try assumption; try lia.
  - rewrite substring_all.
    + f_equal. f_equal. f_equal. f_equal.
      generalize (print_0lu 3 (ms mod 1000)). intros s.
      induction s as [| c s IH]; simpl; [reflexivity | rewrite IH; reflexivity].
    + rewrite !string_length_app. cbn [String.length]. lia.
  - rewrite VS. Z.div_mod_to_equations; lia.
  - rewrite VM, VS, VR. Z.div_mod_to_equations; lia.
  - intros Hlt.
    assert (HM2 : 0 <= ms / 1000 / 60 < 10 ^ Z.of_nat 2)
      by (change (10 ^ Z.of_nat 2) with 100; Z.div_mod_to_equations; lia).
    destruct (print_0lu_spec 2 2 _ HM2) as (_ & _ & LM2); [Z.div_mod_to_equations; lia | lia |].
    lia.
Qed.

Lemma format_mm_ss_msss_decodes_witness :
  exists M S R : string,
    Time_FormatMmSsMsss 83456 EmptyString 16 = M ++ ":" ++ S ++ "." ++ R /\
    dec_value M * 60000 + dec_value S * 1000 + dec_value R = 83456.
Proof.
  destruct (format_mm_ss_msss_decodes 83456 EmptyString 16) as (M & S & R & H); [lia | lia |].
  exists M, S, R. split; [apply H | apply H].
Defined.

End TimeFacts.

(** * The codec's buffer discipline *)

Module CodecFacts.

Import Lifecycle Protocol ProtocolSpec ProtocolFacts CodecSpec.

Local Open Scope string_scope.

Lemma substring_0_length (n : nat) (s : string) :
  String.length (substring 0 n s) = Nat.min n (String.length s).
Proof.
  revert n. induction s as [| c s IH]; intros [| n]; simpl; try reflexivity.
  rewrite IH. reflexivity.
Qed.

Lemma prefix_substring (p s : string) (n : nat) :
  String.prefix p s = true -> (String.length p <= n)%nat ->
  String.prefix p (substring 0 n s) = true.
Proof.
  revert s n. induction p as [| a p IH]; intros s n Hp Hn.
  - destruct (substring 0 n s); reflexivity.
  - destruct s as [| b s]; [discriminate Hp |].
    destruct n as [| n]; [simpl in Hn; lia |].
    simpl in *. destruct (ascii_dec a b); [| discriminate Hp].
    apply IH; [exact Hp | lia].
Qed.

(** What [Protocol_SerializeEvent] does with the expansion [out] that
    [snprintf] computed. *)
Lemma snprintf_result (bufLen : Z) (fmt : string) (args : list printf_arg) :
  snprintf bufLen fmt args
  = (Z.of_nat (String.length (format fmt args)),
     substring 0 (Z.to_nat (bufLen - 1)) (format fmt args)).
Proof. reflexivity. Qed.

Lemma serialize_expansion (w : Workout) (T1 T2 : Z) (e : WorkoutEvent_t) (old : string)
    (bufLen : Z) :
  50 <= bufLen ->
  Protocol_SerializeEvent w T1 T2 (Some e) (Some old) bufLen
  = (if (Z.of_nat (String.length (expansion w T1 T2 e)) >=? bufLen)%Z then 0
     else wrap16 (Z.of_nat (String.length (expansion w T1 T2 e))),
     Some (substring 0 (Z.to_nat (bufLen - 1)) (expansion w T1 T2 e))).
Proof.
  intros Hbuf. unfold Protocol_SerializeEvent, expansion.
  replace (bufLen <? 50)%Z with false by lia.
  destruct (type e); rewrite snprintf_result; cbn [fst snd];
    match goal with |- context [format ?f ?a] => generalize (format f a) end; intros out;
    rewrite (proj2 (Z.ltb_ge (Z.of_nat (String.length out)) 0)) by lia; cbn [orb];
    destruct (_ >=? _)%Z; reflexivity.
Qed.

Lemma expansion_length (w : Workout) (T1 T2 : Z) (e : WorkoutEvent_t) :
  event_in_range e ->
  0 <= total_laps (config (s_session w)) < 2 ^ 8 ->
  (0 < String.length (expansion w T1 T2 e) < 128)%nat.
Proof.
  intros (Hts & Hcl & Hln & Hlt & Hsp) Htl.
  pose proof (utoa_length_u32 _ Hts) as Lts.
  pose proof (utoa_length_u8 _ Hcl) as Lcl.
  pose proof (utoa_length_u8 _ Hln) as Lln.
  pose proof (utoa_length_u32 _ Hlt) as Llt.
  pose proof (utoa_length_u32 _ Hsp) as Lsp.
  pose proof (utoa_length_u8 _ Htl) as Ltl.
  pose proof (elapsed_u32 T1 T2 w) as Hel.
  pose proof (utoa_length_u32 _ Hel) as Lel.
  pose proof (wrap32_range (timestamp_ms e - workout_start_ms (s_session w))) as Htot.
  pose proof (utoa_length_u32 _ Htot) as Ltot.
  unfold expansion, Workout_GetSession.
  destruct (type e);
    try destruct (mode (config (s_session w)));
    try destruct (state (s_session w));
    expand_record;
    rewrite ?print_d_nonneg, ?print_lu_u32 by (assumption || lia);
    measure_record; lia.
Qed.

(** An event with fields of their C types, serialised into a buffer of
    [PROTOCOL_MAX_MSG_LEN] characters, always fits. *)
Lemma serialize_in_range (w : Workout) (T1 T2 : Z) (e : WorkoutEvent_t) (old : string) :
  event_in_range e ->
  0 <= total_laps (config (s_session w)) < 2 ^ 8 ->
  Protocol_SerializeEvent w T1 T2 (Some e) (Some old) PROTOCOL_MAX_MSG_LEN
  = (Z.of_nat (String.length (expansion w T1 T2 e)), Some (expansion w T1 T2 e)) /\
  (0 < String.length (expansion w T1 T2 e) < 128)%nat.
Proof.
  intros He Htl. pose proof (expansion_length w T1 T2 e He Htl) as Hlen.
  split; [| exact Hlen].
  rewrite serialize_expansion by (unfold PROTOCOL_MAX_MSG_LEN; lia).
  unfold PROTOCOL_MAX_MSG_LEN.
  replace (Z.of_nat (String.length (expansion w T1 T2 e)) >=? 128)%Z with false by lia.
  rewrite substring_all by lia.
  unfold wrap16. rewrite Z.mod_small by lia. reflexivity.
Qed.

(** X3.  [Protocol_SerializeEvent] never reports, nor writes, more than the
    buffer holds: for every event, session and buffer ([NULL] included) and
    every 16-bit [bufLen], the result is 0 or lies below [bufLen]; a non-zero
    result is the exact length of the text left in the buffer; and a buffer
    that was written holds fewer than [bufLen] characters. *)
Theorem serialize_never_overruns
    (w : Workout) (T1 T2 : Z) (pEvent : option WorkoutEvent_t) (pBuffer : option string)
    (bufLen : Z) :
  0 <= bufLen < 2 ^ 16 ->
  0 <= fst (Protocol_SerializeEvent w T1 T2 pEvent pBuffer bufLen) /\
  (fst (Protocol_SerializeEvent w T1 T2 pEvent pBuffer bufLen) = 0 \/
   fst (Protocol_SerializeEvent w T1 T2 pEvent pBuffer bufLen) < bufLen) /\
  (0 < fst (Protocol_SerializeEvent w T1 T2 pEvent pBuffer bufLen) ->
   exists text,
     snd (Protocol_SerializeEvent w T1 T2 pEvent pBuffer bufLen) = Some text /\
     Z.of_nat (String.length text)
     = fst (Protocol_SerializeEvent w T1 T2 pEvent pBuffer bufLen)) /\
  (forall text,
      snd (Protocol_SerializeEvent w T1 T2 pEvent pBuffer bufLen) = Some text ->
      snd (Protocol_SerializeEvent w T1 T2 pEvent pBuffer bufLen) = pBuffer \/
      Z.of_nat (String.length text) < bufLen).
Proof.
  intros Hbuf.
  assert (Hnull : Protocol_SerializeEvent w T1 T2 pEvent pBuffer bufLen = (0, pBuffer) \/
                  exists e old, pEvent = Some e /\ pBuffer = Some old /\ 50 <= bufLen).
  { unfold Protocol_SerializeEvent. destruct pEvent as [e |], pBuffer as [old |]; auto.
    destruct (bufLen <? 50)%Z eqn:Hlt; [left; reflexivity |].
    right. exists e, old. split_ands; try reflexivity. lia. }
  destruct Hnull as [-> | (e & old & -> & -> & H50)].
  - cbn [fst snd]. split_ands; auto; lia.
  - rewrite serialize_expansion by exact H50.
    generalize (expansion w T1 T2 e). intros out. cbn [fst snd].
    assert (Hsub : String.length (substring 0 (Z.to_nat (bufLen - 1)) out)
                   = Nat.min (Z.to_nat (bufLen - 1)) (String.length out))
      by apply substring_0_length.
    destruct (Z.of_nat (String.length out) >=? bufLen)%Z eqn:Hge.
    + split_ands; try lia.
      intros text [= <-]. right. lia.
    + assert (Hw : wrap16 (Z.of_nat (String.length out)) = Z.of_nat (String.length out))
        by (unfold wrap16; apply Z.mod_small; lia).
      rewrite Hw. split_ands; try lia.
      * intros _. eexists. split; [reflexivity |]. lia.
      * intros text [= <-]. right. lia.
Qed.

Lemma serialize_never_overruns_witness :
  fst (Protocol_SerializeEvent Workout_Init 0 0 (Some lap_event) (Some EmptyString) 64) = 0 \/
  fst (Protocol_SerializeEvent Workout_Init 0 0 (Some lap_event) (Some EmptyString) 64) < 64.
Proof.
  apply (serialize_never_overruns Workout_Init 0 0 (Some lap_event) (Some EmptyString) 64).
  lia.
Defined.

(** X4.  Whenever [Protocol_SerializeEvent] writes the buffer (event and
    buffer present, [bufLen] at least 50), the text begins with the [event]
    member whose value is the name [Protocol_EventTypeToString] gives the
    event's kind, whatever the event and the session hold. *)
Theorem serialize_starts_with_event_name
    (w : Workout) (T1 T2 : Z) (e : WorkoutEvent_t) (old : string) (bufLen : Z) :
  50 <= bufLen ->
  exists text,
    snd (Protocol_SerializeEvent w T1 T2 (Some e) (Some old) bufLen) = Some text /\
    String.prefix (q "{'event':'" ++ Protocol_EventTypeToString (type e) ++ q "'") text
    = true.
Proof.
  intros Hbuf. rewrite serialize_expansion by exact Hbuf. cbn [snd].
  eexists. split; [reflexivity |].
  apply prefix_substring.
  - unfold expansion. destruct (type e); reflexivity.
  - destruct (type e); simpl; lia.
Qed.

Lemma serialize_starts_with_event_name_witness :
  exists text,
    snd (Protocol_SerializeEvent Workout_Init 0 0 (Some lap_event) (Some EmptyString) 50)
    = Some text /\
    String.prefix (q "{'event':'" ++ Protocol_EventTypeToString (type lap_event) ++ q "'") text
    = true.
Proof.
  apply (serialize_starts_with_event_name Workout_Init 0 0 lap_event EmptyString 50). lia.
Defined.

End CodecFacts.

(** * The ring buffer as a bounded queue *)

Module RingFacts.

Import Buffer BufferSpec BufferFacts RingSpec.

Lemma call_refines (c : RingCall) (b : Ring) :
  ring_ok b ->
  ring_ok (snd (call c b)) /\
  fst (call c b) = fst (queue_call c (contents b)) /\
  contents (snd (call c b)) = snd (queue_call c (contents b)).
Proof.
  intros Hok. pose proof (contents_length b) as Hlen.
  destruct Hok as (Hbuf & Htail & Hcount & Hhead).
  assert (Hok : ring_ok b) by (repeat split; assumption || lia).
  destruct c as [e | | | | |]; cbn [call queue_call fst snd].
  - destruct (push_contents e b Hok) as (Hok' & Hc). split_ands; [exact Hok' | | exact Hc].
    f_equal. unfold Buffer_Push. cbn [fst].
    destruct (s_count b >=? BUFFER_MAX_EVENTS) eqn:Hge; cbn [negb]; symmetry;
      [apply bool_decide_eq_false | apply bool_decide_eq_true]; lia.
  - split_ands; [exact Hok | reflexivity | reflexivity].
  - destruct (decide (s_count b = 0)) as [Hz | Hnz].
    + rewrite (pop_empty b Hz). cbn [fst snd].
      rewrite (contents_empty b Hz). split_ands; [exact Hok | reflexivity | reflexivity].
    + destruct (pop_contents b Hok) as (Hfst & Hok' & _ & Hc); [lia |].
      rewrite Hfst. rewrite Hc. cbn [head tail]. split_ands; [exact Hok' | reflexivity | reflexivity].
  - split_ands; [exact Hok | | reflexivity].
    unfold Buffer_GetCount. f_equal. lia.
  - split_ands; [exact Hok | | reflexivity].
    unfold Buffer_IsEmpty. f_equal.
    destruct (contents b) as [| x l] eqn:Hc; simpl in Hlen; lia.
  - split_ands; [apply ring_ok_clear, Hok | reflexivity |].
    apply contents_empty. reflexivity.
Qed.

Lemma calls_refine (cs : list RingCall) :
  forall b : Ring,
    ring_ok b ->
    ring_ok (snd (calls cs b)) /\
    fst (calls cs b) = fst (queue_calls cs (contents b)) /\
    contents (snd (calls cs b)) = snd (queue_calls cs (contents b)).
Proof.
  induction cs as [| c cs IH]; intros b Hok; cbn [calls queue_calls fst snd].
  - split_ands; [exact Hok | reflexivity | reflexivity].
  - destruct (call_refines c b Hok) as (Hok' & Hr & Hc).
    destruct (IH _ Hok') as (Hok'' & Hrs & Hcs).
    rewrite Hr, Hrs, Hcs, Hc. split_ands; [exact Hok'' | reflexivity | reflexivity].
Qed.

(** X5.  The ring buffer is a bounded first-in-first-out queue: from any ring
    the firmware can reach, every sequence of [Buffer_Push] (also with
    [NULL]), [Buffer_Pop], [Buffer_GetCount], [Buffer_IsEmpty] and
    [Buffer_Clear] returns, call by call, what the same calls return on a
    plain list of at most 16 events, oldest first, where a push onto a full
    list drops the oldest event and reports [false]. *)
Theorem ring_refines_bounded_queue (b : Ring) (cs : list RingCall) :
  reachable b ->
  fst (calls cs b) = fst (queue_calls cs (contents b)) /\
  contents (snd (calls cs b)) = snd (queue_calls cs (contents b)).
Proof.
  intros Hb. apply calls_refine, ring_ok_reachable, Hb.
Qed.

Lemma ring_refines_bounded_queue_witness :
  fst (calls [CallPush event_zero; CallGetCount; CallPop; CallPop; CallIsEmpty] Buffer_Init)
  = fst (queue_calls [CallPush event_zero; CallGetCount; CallPop; CallPop; CallIsEmpty]
                     (contents Buffer_Init)).
Proof.
  apply (ring_refines_bounded_queue Buffer_Init
           [CallPush event_zero; CallGetCount; CallPop; CallPop; CallIsEmpty]).
  apply ring_init.
Defined.

(** X6.  Within capacity nothing is lost or reordered: if the events a
    reachable ring holds and the events pushed number at most 16 together,
    the ring then holds the old events followed by the new ones, that many
    calls of [Buffer_Pop] return them in this order, and the ring is empty
    afterwards. *)
Theorem fifo_round_trip_within_capacity (b : Ring) (es : list WorkoutEvent_t) :
  reachable b ->
  (length (contents b) + length es <= Z.to_nat BUFFER_MAX_EVENTS)%nat ->
  contents (push_all es b) = contents b ++ es /\
  fst (pop_n (length (contents b) + length es) (push_all es b)) = contents b ++ es /\
  Buffer_IsEmpty (snd (pop_n (length (contents b) + length es) (push_all es b))) = true.
Proof.
  intros Hreach Hlen.
  pose proof (ring_ok_reachable b Hreach) as Hb.
  destruct (push_all_contents es b Hb) as [Hb' Hcont].
  rewrite keep_last_short in Hcont by (rewrite length_app; exact Hlen).
  pose proof (contents_length (push_all es b)) as Hl.
  rewrite Hcont, length_app in Hl.
  destruct (pop_n_contents (length (contents b) + length es) (push_all es b) Hb')
    as (Hpops & _ & Hzero); [lia |].
  split_ands.
  - exact Hcont.
  - rewrite Hpops. exact Hcont.
  - unfold Buffer_IsEmpty. rewrite Hzero. reflexivity.
Qed.

Lemma fifo_round_trip_within_capacity_witness :
  fst (pop_n (length (contents Buffer_Init) + length (BufferExamples.numbered_events 5))
             (push_all (BufferExamples.numbered_events 5) Buffer_Init))
  = contents Buffer_Init ++ BufferExamples.numbered_events 5.
Proof.
  destruct (fifo_round_trip_within_capacity Buffer_Init (BufferExamples.numbered_events 5))
    as (_ & Hpops & _).
  - apply ring_init.
  - vm_compute. lia.
  - exact Hpops.
Defined.

(** X7.  [Buffer_Clear] leaves the stale events in the array, yet they are
    never seen again: after clearing any reachable ring, every sequence of
    calls returns what it returns on a freshly initialised ring. *)
Theorem clear_behaves_as_init (b : Ring) (cs : list RingCall) :
  reachable b ->
  fst (calls cs (Buffer_Clear b)) = fst (calls cs Buffer_Init).
Proof.
  intros Hreach.
  pose proof (ring_ok_clear b (ring_ok_reachable b Hreach)) as Hc.
  destruct (calls_refine cs _ Hc) as (_ & -> & _).
  destruct (calls_refine cs _ ring_ok_init) as (_ & -> & _).
  rewrite (contents_empty (Buffer_Clear b)) by reflexivity.
  rewrite (contents_empty Buffer_Init) by reflexivity.
  reflexivity.
Qed.

Lemma clear_behaves_as_init_witness :
  fst (calls [CallPop; CallPush event_zero; CallPop]
             (Buffer_Clear (push_all (BufferExamples.numbered_events 3) Buffer_Init)))
  = fst (calls [CallPop; CallPush event_zero; CallPop] Buffer_Init).
Proof.
  apply (clear_behaves_as_init (push_all (BufferExamples.numbered_events 3) Buffer_Init)
           [CallPop; CallPush event_zero; CallPop]).
  change (push_all (BufferExamples.numbered_events 3) Buffer_Init)
    with (snd (Buffer_Push (Some (mkEvent EVENT_STATUS_UPDATE 3 0 lap_zero))
           (snd (Buffer_Push (Some (mkEvent EVENT_STATUS_UPDATE 2 0 lap_zero))
             (snd (Buffer_Push (Some (mkEvent EVENT_STATUS_UPDATE 1 0 lap_zero))
                Buffer_Init)))))).
  repeat apply ring_push. apply ring_init.
Defined.

End RingFacts.

(** * More of the workout lifecycle *)

Module LedgerFacts.

Import Lifecycle LifecycleSpec LifecycleFacts LedgerSpec.

Lemma sum_lap_times_app (l1 l2 : list LapRecord_t) :
  sum_lap_times (l1 ++ l2) = sum_lap_times l1 + sum_lap_times l2.
Proof.
  unfold sum_lap_times. induction l1 as [| x l1 IH]; simpl; [lia | rewrite IH; lia].
Qed.

Lemma numbered_from_one_snoc (ls : list LapRecord_t) (l : LapRecord_t) :
  numbered_from_one ls -> lap_number l = Z.of_nat (length ls) + 1 ->
  numbered_from_one (ls ++ [l]).
Proof.
  intros Hls Hl i x Hx.
  destruct (decide (i < length ls)%nat) as [Hlt | Hge].
  - rewrite lookup_app_l in Hx by exact Hlt. apply Hls, Hx.
  - rewrite lookup_app_r in Hx by lia.
    destruct (i - length ls)%nat as [| j] eqn:Hj; simpl in Hx; [| discriminate Hx].
    injection Hx as <-. rewrite Hl. f_equal. lia.
Qed.

(** The slots below the current lap after [Workout_RecordLap] wrote the
    current one. *)
Lemma recorded_snoc (c : Z) (lap : LapRecord_t) (ls : list LapRecord_t) :
  1 <= c -> (Z.to_nat (c - 1) < length ls)%nat ->
  take (Z.to_nat c) (<[Z.to_nat (c - 1) := lap]> ls)
  = take (Z.to_nat (c - 1)) ls ++ [lap].
Proof.
  intros Hc Hlen.
  replace (Z.to_nat c) with (S (Z.to_nat (c - 1))) by lia.
  rewrite (take_S_r _ _ lap) by (apply list_lookup_insert_eq; exact Hlen).
  rewrite take_insert_ge by lia. reflexivity.
Qed.

(** [Workout_RecordLap] in a running session of a reachable layout, with the
    byte arithmetic resolved. *)
Lemma record_lap_running (T : Z) (w : Workout) :
  lap_layout w -> state (s_session w) = STATE_RUNNING ->
  1 <= current_lap (s_session w) <= total_laps (config (s_session w)) /\
  (Z.to_nat (current_lap (s_session w) - 1) < length (laps (s_session w)))%nat /\
  Workout_RecordLap T w
  = (Some (mkLap (current_lap (s_session w))
                 (wrap32 (Time_GetMs T - lap_start_ms (s_session w)))
                 (wrap32 (wrap32 (Time_GetMs T - workout_start_ms (s_session w))
                          - s_totalPausedMs w))),
     mkWorkout
       (mkSession (config (s_session w))
          (if current_lap (s_session w) >=? total_laps (config (s_session w))
           then STATE_COMPLETED else STATE_RUNNING)
          (if current_lap (s_session w) >=? total_laps (config (s_session w))
           then current_lap (s_session w) else current_lap (s_session w) + 1)
          (workout_start_ms (s_session w))
          (if current_lap (s_session w) >=? total_laps (config (s_session w))
           then lap_start_ms (s_session w) else Time_GetMs T)
          (<[Z.to_nat (current_lap (s_session w) - 1) :=
               mkLap (current_lap (s_session w))
                     (wrap32 (Time_GetMs T - lap_start_ms (s_session w)))
                     (wrap32 (wrap32 (Time_GetMs T - workout_start_ms (s_session w))
                              - s_totalPausedMs w))]> (laps (s_session w))))
       (s_pauseStartMs w) (s_totalPausedMs w)).
Proof.
  intros Hlay Hrun.
  destruct (running_write_in_bounds w Hlay Hrun) as (Hw8 & Hidx).
  pose proof Hlay as (Hlen & Htl & Hst). rewrite Hrun in Hst. destruct Hst as (Hcur & _).
  rewrite Hw8 in Hidx.
  split_ands; try lia.
  unfold Workout_RecordLap. rewrite Hrun.
  destruct (decide (STATE_RUNNING <> STATE_RUNNING)) as [Hne | _]; [congruence |].
  rewrite Hw8.
  destruct (current_lap (s_session w) >=? total_laps (config (s_session w))) eqn:Hge.
  - reflexivity.
  - rewrite wrap8_small by (unfold MAX_LAPS in Htl; lia). reflexivity.
Qed.

Lemma lap_ledger_recordlap (T : Z) (w : Workout) :
  lap_layout w -> lap_ledger w -> lap_ledger (snd (Workout_RecordLap T w)).
Proof.
  intros Hlay Hled.
  destruct (decide (state (s_session w) = STATE_RUNNING)) as [Hrun | Hnot].
  - destruct (record_lap_running T w Hlay Hrun) as (Hcur & Hidx & ->). cbn [snd].
    revert Hled. unfold lap_ledger, recorded. rewrite Hrun. cbn [s_session state].
    destruct (current_lap (s_session w) >=? total_laps (config (s_session w))) eqn:Hge;
      [trivial |].
    cbn [current_lap laps lap_start_ms workout_start_ms].
    intros (Hsum & Hnum).
    replace (current_lap (s_session w) + 1 - 1) with (current_lap (s_session w)) by lia.
    rewrite recorded_snoc by (exact Hidx || lia).
    split.
    + rewrite sum_lap_times_app. unfold sum_lap_times at 2. cbn [foldr lap_time_ms].
      revert Hsum. generalize (sum_lap_times
        (take (Z.to_nat (current_lap (s_session w) - 1)) (laps (s_session w)))).
      intros S. wrap32_lia.
    + apply numbered_from_one_snoc; [exact Hnum |].
      cbn [lap_number]. rewrite length_take. lia.
  - unfold Workout_RecordLap.
    destruct (decide (state (s_session w) <> STATE_RUNNING)); [exact Hled | contradiction].
Qed.

Lemma lap_ledger_exec (o : Op) (T : Z) (w : Workout) :
  lap_layout w -> lap_ledger w -> lap_ledger (snd (exec o T w)).
Proof.
  intros Hlay Hled. destruct o as [m | | | | | |]; cbn [exec snd].
  - unfold Workout_SetMode. destruct (decide _) as [Hne | He]; [exact Hled |].
    apply dec_stable in He. cbn [snd]. unfold lap_ledger. cbn [s_session].
    destruct (setModeConfig_fields m (s_session w)) as (-> & _). rewrite He. exact I.
  - unfold Workout_CycleMode. destruct (decide _) as [Hne | He]; [exact Hled |].
    apply dec_stable in He. cbn [snd]. unfold lap_ledger. cbn [s_session].
    match goal with |- context [setModeConfig ?m ?s] =>
      destruct (setModeConfig_fields m s) as (-> & _) end.
    rewrite He. exact I.
  - revert Hled. unfold Workout_Start, lap_ledger, recorded.
    destruct (state (s_session w)) eqn:Hst; cbn [snd s_session state]; try rewrite Hst;
      try (intros H; exact H).
    + intros _. cbn [current_lap laps lap_start_ms workout_start_ms].
      replace (1 - 1) with 0 by lia. change (Z.to_nat 0) with 0%nat. rewrite take_0. split.
      * unfold sum_lap_times. cbn [foldr]. f_equal. lia.
      * intros i l Hl. rewrite lookup_nil in Hl. discriminate Hl.
  - apply lap_ledger_recordlap; assumption.
  - revert Hled. unfold Workout_Pause, lap_ledger, recorded.
    destruct (decide _) as [Hne | He]; [intros H; exact H |].
    apply dec_stable in He. cbn [snd s_session]. rewrite He. intros H; exact H.
  - revert Hled. unfold Workout_Stop, lap_ledger.
    destruct (decide _) as [Hne | He]; [intros H; exact H |].
    intros _. exact I.
  - unfold Workout_Reset, lap_ledger. cbn [s_session].
    match goal with |- context [setModeConfig ?m ?s] =>
      destruct (setModeConfig_fields m s) as (-> & _) end.
    exact I.
Qed.

Lemma reachable_lap_ledger (w : Workout) : reachable w -> lap_ledger w.
Proof.
  induction 1 as [| o T w Hw IH].
  - exact I.
  - apply lap_ledger_exec; [apply reachable_lap_layout, Hw | exact IH].
Qed.

(** X8.  In every reachable running session, [Workout_RecordLap] succeeds
    and the record it returns continues the ledger of the laps recorded so
    far: its number is the next one, the records are numbered 1, 2, ... in
    array order, it is appended to them in the array, and its split time plus
    the accumulated paused time equals the sum of all lap times up to and
    including it, modulo 2^32 (lap times include the pauses, split times do
    not).  The record holds what [Workout_GetCurrentLapMs] and
    [Workout_GetElapsedMs] report at that moment. *)
Theorem lap_times_add_up_to_split (w : Workout) (T : Z) :
  reachable w -> Workout_GetState w = STATE_RUNNING ->
  exists lap,
    fst (Workout_RecordLap T w) = Some lap /\
    lap_number lap = Z.of_nat (length (recorded w)) + 1 /\
    numbered_from_one (recorded w ++ [lap]) /\
    take (Z.to_nat (current_lap (s_session w)))
         (laps (s_session (snd (Workout_RecordLap T w)))) = recorded w ++ [lap] /\
    wrap32 (split_time_ms lap + s_totalPausedMs w)
    = wrap32 (sum_lap_times (recorded w ++ [lap])) /\
    lap_time_ms lap = Workout_GetCurrentLapMs T w /\
    split_time_ms lap = Workout_GetElapsedMs T T w.
Proof.
  intros Hreach Hrun. unfold Workout_GetState in Hrun.
  pose proof (reachable_lap_layout w Hreach) as Hlay.
  pose proof (reachable_lap_ledger w Hreach) as Hled.
  destruct (record_lap_running T w Hlay Hrun) as (Hcur & Hidx & ->). cbn [fst snd].
  unfold lap_ledger in Hled. rewrite Hrun in Hled. destruct Hled as (Hsum & Hnum).
  assert (Hlen : length (recorded w) = Z.to_nat (current_lap (s_session w) - 1)).
  { unfold recorded. rewrite length_take. lia. }
  eexists. split; [reflexivity |]. cbn [lap_number lap_time_ms split_time_ms s_session laps].
  split_ands.
  - rewrite Hlen. lia.
  - apply numbered_from_one_snoc; [exact Hnum |]. cbn [lap_number]. rewrite Hlen. lia.
  - unfold recorded. apply recorded_snoc; [lia | exact Hidx].
  - rewrite sum_lap_times_app. unfold sum_lap_times at 2. cbn [foldr lap_time_ms].
    revert Hsum. generalize (sum_lap_times (recorded w)). intros S. wrap32_lia.
  - unfold Workout_GetCurrentLapMs. rewrite Hrun.
    destruct (decide (STATE_RUNNING <> STATE_RUNNING)); [congruence | reflexivity].
  - unfold Workout_GetElapsedMs. rewrite Hrun.
    destruct (decide (STATE_RUNNING = STATE_IDLE)); [congruence |].
    destruct (decide (STATE_RUNNING = STATE_PAUSED)); [congruence | reflexivity].
Qed.

Lemma lap_times_add_up_to_split_witness :
  exists lap,
    fst (Workout_RecordLap 2500
           (run [(0, OpStart); (1000, OpRecordLap); (1200, OpPause); (1500, OpStart)]
                Workout_Init)) = Some lap /\
    lap_number lap = 2 /\ lap_time_ms lap = 1500 /\ split_time_ms lap = 2200.
Proof.
  destruct (lap_times_add_up_to_split
              (run [(0, OpStart); (1000, OpRecordLap); (1200, OpPause); (1500, OpStart)]
                   Workout_Init) 2500)
    as (lap & Hlap & _).
  - apply reachable_run, reach_init.
  - reflexivity.
  - exists lap. split; [exact Hlap |].
    vm_compute in Hlap. injection Hlap as <-. vm_compute. auto.
Defined.

(** ** Mode selection *)

Lemma mode_to_of_Z (z : Z) : 0 <= z < 4 -> mode_to_Z (mode_of_Z z) = z.
Proof.
  intros H. assert (z = 0 \/ z = 1 \/ z = 2 \/ z = 3) as [-> | [-> | [-> | ->]]] by lia;
    reflexivity.
Qed.

Lemma mode_of_to_Z (m : WorkoutMode_t) : mode_of_Z (mode_to_Z m) = m.
Proof. destruct m; reflexivity. Qed.

Lemma config_setModeConfig (m : WorkoutMode_t) (s : WorkoutSession_t) :
  config (setModeConfig m s) = config_of_mode m.
Proof. destruct m; reflexivity. Qed.

Lemma config_of_mode_mode (m : WorkoutMode_t) : mode (config_of_mode m) = m.
Proof. destruct m; reflexivity. Qed.

Lemma setModeConfig_set_config (m : WorkoutMode_t) (s : WorkoutSession_t) :
  setModeConfig m s = set_config (config_of_mode m) s.
Proof. destruct m; reflexivity. Qed.

(** The configuration always belongs to the mode it names. *)
Lemma reachable_config (w : Workout) :
  reachable w -> config (s_session w) = config_of_mode (mode (config (s_session w))).
Proof.
  induction 1 as [| o T w Hw IH]; [reflexivity |].
  destruct o as [m | | | | | |]; cbn [exec snd].
  - unfold Workout_SetMode. destruct (decide _); [exact IH |]. cbn [snd s_session].
    rewrite config_setModeConfig, config_of_mode_mode. reflexivity.
  - unfold Workout_CycleMode. destruct (decide _); [exact IH |]. cbn [snd s_session].
    rewrite config_setModeConfig, config_of_mode_mode. reflexivity.
  - unfold Workout_Start. destruct (state (s_session w)); exact IH.
  - unfold Workout_RecordLap. destruct (decide _); [exact IH |].
    destruct (_ >=? _); exact IH.
  - unfold Workout_Pause. destruct (decide _); exact IH.
  - unfold Workout_Stop. destruct (decide _); exact IH.
  - unfold Workout_Reset. cbn [s_session].
    rewrite config_setModeConfig, config_of_mode_mode. reflexivity.
Qed.

Lemma cycle_script_run (Ts : list Z) :
  forall w : Workout,
    state (s_session w) = STATE_IDLE ->
    config (s_session w) = config_of_mode (mode (config (s_session w))) ->
    run (cycle_script Ts) w
    = mkWorkout
        (set_config (config_of_mode (mode_after (length Ts) (mode (config (s_session w)))))
                    (s_session w))
        (s_pauseStartMs w) (s_totalPausedMs w).
Proof.
  induction Ts as [| T Ts IH]; intros w Hidle Hcfg.
  - cbn [cycle_script map run length]. unfold mode_after.
    replace (mode_to_Z (mode (config (s_session w))) + Z.of_nat 0)
      with (mode_to_Z (mode (config (s_session w)))) by lia.
    rewrite Z.mod_small by (destruct (mode (config (s_session w))); simpl; lia).
    rewrite mode_of_to_Z, <- Hcfg. destruct w as [[c st cl ws ls lp] p tp]. reflexivity.
  - cbn [cycle_script map run exec]. fold (cycle_script Ts).
    unfold Workout_CycleMode at 1.
    destruct (decide (state (s_session w) <> STATE_IDLE)) as [Hne | _]; [contradiction |].
    cbn [snd]. rewrite IH.
    + cbn [s_session s_pauseStartMs s_totalPausedMs]. f_equal.
      rewrite config_setModeConfig, config_of_mode_mode, setModeConfig_set_config.
      unfold set_config. cbn [state current_lap workout_start_ms lap_start_ms laps].
      f_equal. f_equal. unfold mode_after.
      rewrite mode_to_of_Z by (apply Z.mod_pos_bound; lia).
      f_equal. cbn [length]. rewrite Nat2Z.inj_succ.
      rewrite Zplus_mod_idemp_l. f_equal. lia.
    + cbn [s_session]. rewrite setModeConfig_set_config. exact Hidle.
    + cbn [s_session]. rewrite config_setModeConfig, config_of_mode_mode. reflexivity.
Qed.

(** X9.  In every reachable idle session, pressing the mode button [k] times
    moves [k] modes along the cycle 4x500m, 5x1000m, 2x2000m, 1x4000m and
    installs that mode's lap count, distance and rest time, leaving all else
    alone; four presses give the session back unchanged. *)
Theorem mode_button_cycles_modes (w : Workout) (Ts : list Z) :
  reachable w -> Workout_GetState w = STATE_IDLE ->
  run (cycle_script Ts) w
  = mkWorkout
      (set_config (config_of_mode (mode_after (length Ts) (mode (config (s_session w)))))
                  (s_session w))
      (s_pauseStartMs w) (s_totalPausedMs w) /\
  (length Ts = 4%nat -> run (cycle_script Ts) w = w).
Proof.
  intros Hreach Hidle. pose proof (reachable_config w Hreach) as Hcfg.
  pose proof (cycle_script_run Ts w Hidle Hcfg) as Hrun.
  split; [exact Hrun |].
  intros H4. rewrite Hrun, H4. unfold mode_after.
  replace ((mode_to_Z (mode (config (s_session w))) + Z.of_nat 4) mod 4)
    with (mode_to_Z (mode (config (s_session w))))
    by (destruct (mode (config (s_session w))); reflexivity).
  rewrite mode_of_to_Z, <- Hcfg. destruct w as [[c st cl ws ls lp] p tp]. reflexivity.
Qed.

Lemma mode_button_cycles_modes_witness :
  mode (config (s_session (run (cycle_script [10; 20; 30]) Workout_Init))) = MODE_1x4000M /\
  run (cycle_script [10; 20; 30; 40]) Workout_Init = Workout_Init.
Proof.
  split.
  - destruct (mode_button_cycles_modes Workout_Init [10; 20; 30]) as (-> & _);
      [apply reach_init | reflexivity | reflexivity].
  - destruct (mode_button_cycles_modes Workout_Init [10; 20; 30; 40]) as (_ & H);
      [apply reach_init | reflexivity | apply H; reflexivity].
Defined.

(** X10.  Whatever the session held, [Workout_Reset] leaves the module as
    [Workout_Init] followed by [Workout_SetMode] of the mode that was
    selected: idle, no current lap, all lap slots and both pause accumulators
    zero. *)
Theorem reset_is_init_with_mode (w : Workout) :
  Workout_Reset w = snd (Workout_SetMode (mode (config (s_session w))) Workout_Init) /\
  Workout_GetState (Workout_Reset w) = STATE_IDLE /\
  mode (config (s_session (Workout_Reset w))) = mode (config (s_session w)) /\
  laps (s_session (Workout_Reset w)) = replicate MAX_LAPS lap_zero.
Proof.
  unfold Workout_Reset, Workout_GetState.
  destruct (mode (config (s_session w))); split_ands; reflexivity.
Qed.

End LedgerFacts.

(** * More of the coordinator with the HR-confirmation wait *)

Module CoordinatorFacts.

Import Lifecycle LifecycleSpec BleTx Control ControlSpec ControlFacts CoordinatorSpec.

Lemma quiet_refl (c : Ctrl) : quiet_step c c.
Proof. unfold quiet_step. auto. Qed.

Lemma quiet_trans (c1 c2 c3 : Ctrl) : quiet_step c1 c2 -> quiet_step c2 c3 -> quiet_step c1 c3.
Proof.
  unfold quiet_step. intros (A1 & B1 & C1) (A2 & B2 & C2).
  split_ands; [auto | congruence | auto].
Qed.

Lemma quiet_exit (env : Env) (confirmed : bool) (c : Ctrl) :
  Workout_GetState (workout c) = STATE_PAUSED ->
  quiet_step c (exitHrWaitState env confirmed c).
Proof.
  intros Hp. rewrite exit_while_paused by exact Hp.
  rewrite resume_from_pause by exact Hp.
  unfold quiet_step, nothing_recorded, Workout_GetState. cbn.
  split_ands; try reflexivity; try discriminate.
  intros (_ & Hl & Hc & _). split_ands; try assumption; try discriminate.
  split; discriminate.
Qed.

Lemma quiet_pause (T : Z) (c : Ctrl) :
  s_currentState c = CTRL_STATE_RUNNING ->
  quiet_step c (set_workout (snd (Workout_Pause T (workout c))) c).
Proof.
  intros Hst. unfold quiet_step, nothing_recorded, Workout_GetState, Workout_Pause.
  destruct (decide _) as [Hn | Hr]; cbn; [tauto |].
  split_ands; try reflexivity; try tauto.
  intros (Ha & Hl & Hc & _). split_ands; try assumption. discriminate.
Qed.

Lemma quiet_enter (env : Env) (c : Ctrl) :
  quiet_step c (enterHrWaitState env c).
Proof.
  unfold quiet_step, nothing_recorded, Workout_GetState, enterHrWaitState, sendHrRequest,
    Workout_Pause.
  destruct (decide _) as [Hn | Hr]; destruct (connected env); cbn;
    (split_ands; try reflexivity; try discriminate;
     intros (Ha & Hl & Hc & Hs); split_ands; try assumption; try discriminate;
     split; reflexivity).
Qed.

Lemma quiet_button (env : Env) (evt : ButtonEvent_t) (c : Ctrl) :
  ctrl_inv c -> quiet_step c (handleButtonEvent env evt c).
Proof.
  unfold ctrl_inv, handleButtonEvent.
  destruct (s_currentState c) eqn:Hst.
  - intros Hidle. destruct (decide _) as [_ | _]; [| apply quiet_refl].
    unfold Workout_GetState in Hidle. unfold Workout_Start. rewrite Hidle. cbn [fst snd].
    unfold quiet_step, nothing_recorded, Workout_GetState. cbn. rewrite Hst.
    split_ands; try reflexivity; try congruence.
    intros (Ha & Hl & Hc & _). split_ands; try assumption; try lia; try discriminate.
    split; [intros H; apply Ha in H; discriminate H | discriminate].
  - intros Hact. destruct (decide _) as [_ | _]; [apply quiet_enter |].
    destruct (decide _) as [_ | _]; [apply quiet_pause, Hst | apply quiet_refl].
  - intros [Hp Hactive]. destruct (decide _) as [_ | _];
      [apply quiet_exit, Hp | apply quiet_refl].
Qed.

Lemma quiet_ble (env : Env) (evt : BleCtrlEvent_t) (c : Ctrl) :
  ctrl_inv c -> quiet_step c (handleBleCtrlEvent env evt c).
Proof.
  intros Hinv. unfold handleBleCtrlEvent.
  destruct (bool_decide (ble_type evt = BLE_CTRL_EVT_HR_DONE)); simpl; [| apply quiet_refl].
  destruct (bool_decide (s_currentState c = CTRL_STATE_HR_MEASUREMENT)) eqn:Hhr;
    simpl; [| apply quiet_refl].
  destruct (active (s_hrWait c)); [| apply quiet_refl].
  apply bool_decide_eq_true in Hhr. unfold ctrl_inv in Hinv. rewrite Hhr in Hinv.
  apply quiet_exit, Hinv.
Qed.

Lemma quiet_iteration (it : Iteration) (c : Ctrl) :
  ctrl_inv c -> quiet_step c (ControlTask_iteration it c).
Proof.
  intros Hinv. unfold ControlTask_iteration.
  set (c1 := match btn it with Some e => _ | None => c end).
  assert (H1 : ctrl_inv c1)
    by (unfold c1; destruct (btn it); [apply ctrl_inv_button |]; exact Hinv).
  assert (Q1 : quiet_step c c1)
    by (unfold c1; destruct (btn it); [apply quiet_button, Hinv | apply quiet_refl]).
  set (c2 := match ble it with Some e => _ | None => c1 end).
  assert (H2 : ctrl_inv c2)
    by (unfold c2; destruct (ble it); [apply ctrl_inv_ble |]; exact H1).
  assert (Q2 : quiet_step c c2).
  { apply (quiet_trans _ c1); [exact Q1 |].
    unfold c2; destruct (ble it); [apply quiet_ble, H1 | apply quiet_refl]. }
  destruct (bool_decide (s_currentState c2 = CTRL_STATE_HR_MEASUREMENT)) eqn:Hhr;
    simpl; [| exact Q2].
  destruct (active (s_hrWait c2)); [| exact Q2].
  destruct (_ >? _); [| exact Q2].
  apply bool_decide_eq_true in Hhr. unfold ctrl_inv in H2. rewrite Hhr in H2.
  apply (quiet_trans _ c2); [exact Q2 | apply quiet_exit, H2].
Qed.

Lemma quiet_run (its : list Iteration) :
  forall c : Ctrl, ctrl_inv c -> quiet_step c (ControlTask_Run its c).
Proof.
  induction its as [| it its IH]; intros c Hinv; cbn [ControlTask_Run].
  - apply quiet_refl.
  - apply (quiet_trans _ (ControlTask_iteration it c)).
    + apply quiet_iteration, Hinv.
    + apply IH, ctrl_inv_iteration, Hinv.
Qed.

Lemma reachable_nothing_recorded (c : Ctrl) : reachable c -> nothing_recorded c.
Proof.
  induction 1 as [qu | it c Hc IH | c e items _ IH Hq].
  - unfold nothing_recorded, Workout_GetState. cbn.
    split_ands; try reflexivity; try lia; try discriminate. split; discriminate.
  - apply (quiet_iteration it c); [apply reachable_ctrl_inv, Hc | exact IH].
  - exact IH.
Qed.

(** X11.  In every state the coordinator can reach, the wait flag
    [s_hrWait.active] is set exactly when the coordinator is in
    [CTRL_STATE_HR_MEASUREMENT]: [ControlTask_IsHrMeasurementActive] returns
    the flag, and the flag tests that accompany the state tests in the
    handlers never decide anything. *)
Theorem hr_flag_matches_state (c : Ctrl) :
  reachable c ->
  ControlTask_IsHrMeasurementActive c = active (s_hrWait c).
Proof.
  intros Hreach. destruct (reachable_nothing_recorded c Hreach) as (Hflag & _).
  unfold ControlTask_IsHrMeasurementActive.
  destruct (active (s_hrWait c)).
  - apply bool_decide_eq_true, Hflag. reflexivity.
  - apply bool_decide_eq_false. intros H. apply Hflag in H. discriminate H.
Qed.

Lemma hr_flag_matches_state_witness :
  ControlTask_IsHrMeasurementActive lap_pressed = active (s_hrWait lap_pressed).
Proof. apply (hr_flag_matches_state lap_pressed). apply reachable_lap_pressed. Defined.

(** X12.  The coordinator of rtos/control_task.c never records a lap and
    never announces anything: in every reachable state the lap array is all
    zero, the lifecycle is not completed, and any number of passes of
    [ControlTask_Run] leaves the transmission queue exactly as it was; once
    the coordinator has left [CTRL_STATE_IDLE] it does not come back to it. *)
Theorem coordinator_never_records (c : Ctrl) (its : list Iteration) :
  reachable c ->
  laps (s_session (workout c)) = replicate MAX_LAPS lap_zero /\
  Workout_GetState (workout c) <> STATE_COMPLETED /\
  g_eventQueue (ControlTask_Run its c) = g_eventQueue c /\
  (s_currentState c <> CTRL_STATE_IDLE ->
   s_currentState (ControlTask_Run its c) <> CTRL_STATE_IDLE).
Proof.
  intros Hreach.
  destruct (reachable_nothing_recorded c Hreach) as (_ & Hl & _ & Hs).
  destruct (quiet_run its c (reachable_ctrl_inv c Hreach)) as (_ & Hq & Hi).
  split_ands; assumption.
Qed.

Lemma coordinator_never_records_witness :
  g_eventQueue
    (ControlTask_Run [pass 2000 None (Some BLE_CTRL_EVT_HR_DONE); pass 3000 (Some BTN_LAP) None;
                      pass 9000 None None] lap_pressed)
  = g_eventQueue lap_pressed.
Proof.
  apply (coordinator_never_records lap_pressed
           [pass 2000 None (Some BLE_CTRL_EVT_HR_DONE); pass 3000 (Some BTN_LAP) None;
            pass 9000 None None]).
  apply reachable_lap_pressed.
Defined.

End CoordinatorFacts.

(** * The control task of workout_control.c *)

Module WorkoutControlFacts.

Import Lifecycle LifecycleSpec LifecycleFacts LedgerSpec LedgerFacts BleTx Control
       WorkoutControl SessionSpec.

Lemma send_event_queue (e : WorkoutEvent_t) (qu : EventQueue) :
  snd (BleTx_SendEvent (Some e) qu) = qu \/
  exists items, qu = Some items /\ (length items < EVENT_QUEUE_LENGTH)%nat /\
                snd (BleTx_SendEvent (Some e) qu) = Some (items ++ [e]).
Proof.
  unfold BleTx_SendEvent. destruct qu as [items |]; [| left; reflexivity].
  destruct (decide _) as [Hlt | _]; [| left; reflexivity].
  right. exists items. auto.
Qed.

Lemma send_event_room (e : WorkoutEvent_t) (items : list WorkoutEvent_t) :
  (length items < EVENT_QUEUE_LENGTH)%nat ->
  BleTx_SendEvent (Some e) (Some items) = (true, Some (items ++ [e])).
Proof.
  intros Hlt. unfold BleTx_SendEvent. destruct (decide _); [reflexivity | contradiction].
Qed.

(** X13.  A lap press while the workout runs records the lap and announces
    it: [Workout_RecordLap] succeeds, its record is stored in the session,
    and exactly one event carrying that record joins the transmission queue
    (when the queue has room): [EVENT_WORKOUT_DONE] if the lap was the last
    of the mode, else [EVENT_LAP_COMPLETE], with the lap counter as the
    lifecycle left it. *)
Theorem lap_press_records_and_announces
    (s : Sys) (btn : ButtonEvent_t) (clk : nat -> Z) (items : list WorkoutEvent_t) :
  btn_type btn = BTN_LAP ->
  Lifecycle.reachable (wk s) -> Workout_GetState (wk s) = STATE_RUNNING ->
  tx_queue s = Some items -> (length items < EVENT_QUEUE_LENGTH)%nat ->
  exists lap,
    Workout_RecordLap (clk 0%nat) (wk s) = (Some lap, wk (ControlTask_handle btn clk s)) /\
    lap_number lap = current_lap (s_session (wk s)) /\
    laps (s_session (wk (ControlTask_handle btn clk s)))
      !! Z.to_nat (current_lap (s_session (wk s)) - 1) = Some lap /\
    tx_queue (ControlTask_handle btn clk s)
    = Some (items ++
            [if current_lap (s_session (wk s)) >=? total_laps (config (s_session (wk s)))
             then mkEvent EVENT_WORKOUT_DONE (Time_GetMs (clk 1%nat))
                          (current_lap (s_session (wk s))) lap
             else mkEvent EVENT_LAP_COMPLETE (Time_GetMs (clk 1%nat))
                          (current_lap (s_session (wk s)) + 1) lap]).
Proof.
  intros Hbtn Hreach Hrun Hq Hroom.
  pose proof (reachable_lap_layout _ Hreach) as Hlay.
  destruct (record_lap_running (clk 0%nat) (wk s) Hlay Hrun) as (Hcur & Hidx & Hrec).
  unfold ControlTask_handle. rewrite Hbtn, Hrun.
  destruct (decide (STATE_RUNNING = STATE_RUNNING)) as [_ | Hn]; [| congruence].
  rewrite Hrec. cbn [fst snd wk tx_queue].
  eexists. split_ands.
  - unfold Workout_GetState. cbn [s_session state].
    destruct (current_lap (s_session (wk s)) >=? total_laps (config (s_session (wk s))));
      [destruct (decide (STATE_COMPLETED = STATE_COMPLETED)) as [_ | Hn]; [| congruence]
      | destruct (decide (STATE_RUNNING = STATE_COMPLETED)) as [Hn | _]; [congruence |]];
      reflexivity.
  - reflexivity.
  - unfold Workout_GetState. cbn [s_session state].
    destruct (current_lap (s_session (wk s)) >=? total_laps (config (s_session (wk s))));
      [destruct (decide (STATE_COMPLETED = STATE_COMPLETED)) as [_ | Hn]; [| congruence]
      | destruct (decide (STATE_RUNNING = STATE_COMPLETED)) as [Hn | _]; [congruence |]];
      cbn [sendWorkoutEvent wk s_session laps]; apply list_lookup_insert_eq; exact Hidx.
  - unfold Workout_GetState. cbn [s_session state].
    destruct (current_lap (s_session (wk s)) >=? total_laps (config (s_session (wk s))));
      [destruct (decide (STATE_COMPLETED = STATE_COMPLETED)) as [_ | Hn]; [| congruence]
      | destruct (decide (STATE_RUNNING = STATE_COMPLETED)) as [Hn | _]; [congruence |]];
      unfold sendWorkoutEvent, Workout_GetSession; cbn [wk tx_queue s_session current_lap];
      rewrite Hq, send_event_room by exact Hroom; reflexivity.
Qed.

Lemma lap_press_records_and_announces_witness :
  exists lap,
    lap_number lap = 1 /\
    tx_queue (ControlTask_handle (mkButtonEvent BTN_LAP 1000) (fun _ => 1000)
                (mkSys (run [(0, OpStart)] Workout_Init) (Some [])))
    = Some ([] ++ [mkEvent EVENT_LAP_COMPLETE (Time_GetMs 1000) (1 + 1) lap]).
Proof.
  destruct (lap_press_records_and_announces
              (mkSys (run [(0, OpStart)] Workout_Init) (Some []))
              (mkButtonEvent BTN_LAP 1000) (fun _ => 1000) [])
    as (lap & _ & Hnum & _ & Hq).
  - reflexivity.
  - apply reachable_run, reach_init.
  - reflexivity.
  - reflexivity.
  - unfold EVENT_QUEUE_LENGTH. simpl. lia.
  - exists lap. split; [exact Hnum | exact Hq].
Defined.

(** X14.  A start press on a completed workout starts a new one at once:
    the session is reset (all lap slots zero, pause accumulator zero, mode
    kept) and running on lap 1, and a single [EVENT_WORKOUT_START] event with
    lap counter 1 joins the transmission queue. *)
Theorem start_press_after_completion_restarts
    (s : Sys) (btn : ButtonEvent_t) (clk : nat -> Z) (items : list WorkoutEvent_t) :
  btn_type btn = BTN_START ->
  Workout_GetState (wk s) = STATE_COMPLETED ->
  tx_queue s = Some items -> (length items < EVENT_QUEUE_LENGTH)%nat ->
  wk (ControlTask_handle btn clk s)
  = snd (Workout_Start (clk 0%nat) (Workout_Reset (wk s))) /\
  Workout_GetState (wk (ControlTask_handle btn clk s)) = STATE_RUNNING /\
  current_lap (s_session (wk (ControlTask_handle btn clk s))) = 1 /\
  laps (s_session (wk (ControlTask_handle btn clk s))) = replicate MAX_LAPS lap_zero /\
  mode (config (s_session (wk (ControlTask_handle btn clk s))))
  = mode (config (s_session (wk s))) /\
  s_totalPausedMs (wk (ControlTask_handle btn clk s)) = 0 /\
  workout_start_ms (s_session (wk (ControlTask_handle btn clk s))) = Time_GetMs (clk 0%nat) /\
  tx_queue (ControlTask_handle btn clk s)
  = Some (items ++ [mkEvent EVENT_WORKOUT_START (Time_GetMs (clk 1%nat)) 1 lap_zero]).
Proof.
  intros Hbtn Hdone Hq Hroom.
  unfold ControlTask_handle. rewrite Hbtn, Hdone.
  destruct (decide (STATE_COMPLETED = STATE_COMPLETED)) as [_ | Hn]; [| congruence].
  cbn [wk tx_queue]. rewrite Hq.
  unfold Workout_Reset, Workout_Start, Workout_GetState, sendWorkoutEvent, Workout_GetSession.
  destruct (mode (config (s_session (wk s)))); cbn -[BleTx_SendEvent Time_GetMs];
    rewrite send_event_room by exact Hroom; split_ands; reflexivity.
Qed.

Lemma start_press_after_completion_restarts_witness :
  Workout_GetState
    (wk (ControlTask_handle (mkButtonEvent BTN_START 9000) (fun _ => 9000)
           (mkSys (run [(0, OpStart); (1000, OpStop)] Workout_Init) (Some []))))
  = STATE_RUNNING.
Proof.
  apply (start_press_after_completion_restarts
           (mkSys (run [(0, OpStart); (1000, OpStop)] Workout_Init) (Some []))
           (mkButtonEvent BTN_START 9000) (fun _ => 9000) []).
  - reflexivity.
  - reflexivity.
  - reflexivity.
  - unfold EVENT_QUEUE_LENGTH. simpl. lia.
Defined.

Lemma send_workout_event_wk (t : EventType_t) (l : option LapRecord_t) (T : Z) (s : Sys) :
  wk (sendWorkoutEvent t l T s) = wk s.
Proof. reflexivity. Qed.

Lemma send_workout_event_queue (t : EventType_t) (l : option LapRecord_t) (T : Z) (s : Sys) :
  tx_queue (sendWorkoutEvent t l T s) = tx_queue s \/
  exists items e, tx_queue s = Some items /\ (length items < EVENT_QUEUE_LENGTH)%nat /\
                  tx_queue (sendWorkoutEvent t l T s) = Some (items ++ [e]).
Proof.
  unfold sendWorkoutEvent. cbn [tx_queue].
  match goal with |- context [BleTx_SendEvent (Some ?e) ?qu] =>
    destruct (send_event_queue e qu) as [H | (items & Hq & Hlt & H)] end.
  - left. exact H.
  - right. eauto.
Qed.

(** One event handled: the lifecycle stays reachable and the queue gains at
    most one event. *)
Lemma handle_discipline (s : Sys) (btn : ButtonEvent_t) (clk : nat -> Z) :
  Lifecycle.reachable (wk s) ->
  Lifecycle.reachable (wk (ControlTask_handle btn clk s)) /\
  (tx_queue (ControlTask_handle btn clk s) = tx_queue s \/
   exists items e,
     tx_queue s = Some items /\ (length items < EVENT_QUEUE_LENGTH)%nat /\
     tx_queue (ControlTask_handle btn clk s) = Some (items ++ [e])) /\
  (btn_type btn = BTN_MODE_NEXT \/ btn_type btn = BTN_NONE \/
   (btn_type btn = BTN_STOP /\ Workout_GetState (wk s) = STATE_RUNNING) ->
   tx_queue (ControlTask_handle btn clk s) = tx_queue s).
Proof.
  intros Hreach.
  assert (Hstep : forall o T w, Lifecycle.reachable w -> Lifecycle.reachable (snd (exec o T w)))
    by (intros; apply reach_step; assumption).
  pose proof (Hstep OpReset 0 _ Hreach) as Hreset. cbn [exec snd] in Hreset.
  unfold ControlTask_handle.
  destruct (btn_type btn) eqn:Hbtn.
  - (* BTN_NONE *) split_ands; auto.
  - (* BTN_START *)
    set (s1 := if decide (Workout_GetState (wk s) = STATE_COMPLETED)
               then mkSys (Workout_Reset (wk s)) (tx_queue s) else s).
    assert (H1 : Lifecycle.reachable (wk s1) /\ tx_queue s1 = tx_queue s)
      by (unfold s1; destruct (decide _); cbn [wk tx_queue]; auto).
    destruct H1 as (H1 & Hq1).
    pose proof (Hstep OpStart (clk 0%nat) _ H1) as H2. cbn [exec] in H2.
    destruct (fst (Workout_Start (clk 0%nat) (wk s1))).
    + rewrite send_workout_event_wk. cbn [wk]. split_ands; [exact H2 | |].
      * match goal with |- context [sendWorkoutEvent ?t ?l ?T ?x] =>
          destruct (send_workout_event_queue t l T x) as [H | (its & ev & Hq & Hlt & H)] end;
          cbn [tx_queue] in *; rewrite ?Hq1 in *; [left; exact H | right; eauto].
      * intros [H | [H | [H _]]]; discriminate H.
    + cbn [wk tx_queue]. split_ands; [exact H2 | left; exact Hq1 |].
      intros [H | [H | [H _]]]; discriminate H.
  - (* BTN_LAP *)
    destruct (decide _) as [Hrun | _]; [| split_ands; auto; intros [H | [H | [H _]]]; discriminate H].
    pose proof (Hstep OpRecordLap (clk 0%nat) _ Hreach) as H2. cbn [exec snd] in H2.
    destruct (fst (Workout_RecordLap (clk 0%nat) (wk s))) as [lap |].
    + cbn [wk]. destruct (decide _); rewrite send_workout_event_wk; cbn [wk];
        (split_ands; [exact H2 | | intros [H | [H | [H _]]]; discriminate H]);
        match goal with |- context [sendWorkoutEvent ?t ?l ?T ?x] =>
          destruct (send_workout_event_queue t l T x) as [H | (its & ev & Hq & Hlt & H)] end;
        cbn [tx_queue] in *; [left; exact H | right; eauto | left; exact H | right; eauto].
    + cbn [wk tx_queue]. split_ands; [exact H2 | left; reflexivity |].
      intros [H | [H | [H _]]]; discriminate H.
  - (* BTN_STOP *)
    destruct (decide _) as [Hrun | Hnrun].
    + cbn [wk tx_queue]. split_ands; [apply (Hstep OpPause), Hreach | left; reflexivity | auto].
    + destruct (decide _) as [Hp | _]; [| split_ands; auto].
      pose proof (Hstep OpStop 0 _ Hreach) as H2. cbn [exec] in H2.
      destruct (fst (Workout_Stop (wk s))).
      * rewrite send_workout_event_wk. cbn [wk]. split_ands; [exact H2 | |].
        -- match goal with |- context [sendWorkoutEvent ?t ?l ?T ?x] =>
             destruct (send_workout_event_queue t l T x) as [H | (its & ev & Hq & Hlt & H)] end;
             cbn [tx_queue] in *; [left; exact H | right; eauto].
        -- intros [H | [H | [_ H]]]; congruence.
      * cbn [wk tx_queue]. split_ands; [exact H2 | left; reflexivity | auto].
  - (* BTN_MODE_NEXT *)
    destruct (decide _) as [Hok | _]; [| split_ands; auto].
    set (s1 := if decide (Workout_GetState (wk s) = STATE_COMPLETED)
               then mkSys (Workout_Reset (wk s)) (tx_queue s) else s).
    assert (H1 : Lifecycle.reachable (wk s1) /\ tx_queue s1 = tx_queue s)
      by (unfold s1; destruct (decide _); cbn [wk tx_queue]; auto).
    destruct H1 as (H1 & Hq1). cbn [wk tx_queue].
    split_ands; [apply (Hstep OpCycleMode 0), H1 | left; exact Hq1 | intros _; exact Hq1].
  - (* BTN_STATUS *)
    rewrite send_workout_event_wk. split_ands; [exact Hreach | |].
    + apply send_workout_event_queue.
    + intros [H | [H | [H _]]]; discriminate H.
Qed.

Lemma control_task_reachable (btns : list (ButtonEvent_t * (nat -> Z))) :
  forall s : Sys, Lifecycle.reachable (wk s) -> Lifecycle.reachable (wk (ControlTask btns s)).
Proof.
  induction btns as [| [btn clk] btns IH]; intros s Hs; cbn [ControlTask]; [exact Hs |].
  apply IH, handle_discipline, Hs.
Qed.

(** X15.  Whatever button events the control task handles, in whatever
    states, the workout module stays in a state the lifecycle's own calls can
    reach (so its layout invariants hold under the task); handling one event
    adds at most one event to the transmission queue and removes none, and
    mode presses and pauses announce nothing. *)
Theorem control_task_step_discipline
    (s : Sys) (btn : ButtonEvent_t) (clk : nat -> Z)
    (btns : list (ButtonEvent_t * (nat -> Z))) :
  Lifecycle.reachable (wk s) ->
  Lifecycle.reachable (wk (ControlTask btns s)) /\
  (tx_queue (ControlTask_handle btn clk s) = tx_queue s \/
   exists items e,
     tx_queue s = Some items /\ (length items < EVENT_QUEUE_LENGTH)%nat /\
     tx_queue (ControlTask_handle btn clk s) = Some (items ++ [e])) /\
  (btn_type btn = BTN_MODE_NEXT \/ btn_type btn = BTN_NONE \/
   (btn_type btn = BTN_STOP /\ Workout_GetState (wk s) = STATE_RUNNING) ->
   tx_queue (ControlTask_handle btn clk s) = tx_queue s).
Proof.
  intros Hreach. split; [apply control_task_reachable, Hreach |].
  apply (handle_discipline s btn clk Hreach).
Qed.

Lemma control_task_step_discipline_witness :
  Lifecycle.reachable
    (wk (ControlTask [press BTN_STOP 500; press BTN_STOP 900; press BTN_START 2000]
           (mkSys (run [(0, OpStart)] Workout_Init) (Some [])))).
Proof.
  apply (control_task_step_discipline
           (mkSys (run [(0, OpStart)] Workout_Init) (Some []))
           (mkButtonEvent BTN_STOP 500) (fun _ => 500)
           [press BTN_STOP 500; press BTN_STOP 900; press BTN_START 2000]).
  apply reachable_run, reach_init.
Defined.

(** ** A whole session through the buttons *)

(** The lap button on a running session of a reachable layout. *)
Lemma lap_press_running (T : Z) (w : Workout) :
  lap_layout w -> state (s_session w) = STATE_RUNNING ->
  exists lap,
    lap_number lap = current_lap (s_session w) /\
    fst (Workout_RecordLap T w) = Some lap /\
    ControlTask_handle (mkButtonEvent BTN_LAP (Time_GetMs T)) (fun _ => T) (mkSys w (Some []))
    = mkSys (snd (Workout_RecordLap T w))
            (Some [mkEvent (if current_lap (s_session w) >=? total_laps (config (s_session w))
                            then EVENT_WORKOUT_DONE else EVENT_LAP_COMPLETE)
                           (Time_GetMs T)
                           (current_lap (s_session (snd (Workout_RecordLap T w))))
                           lap]).
Proof.
  intros Hlay Hrun.
  destruct (record_lap_running T w Hlay Hrun) as (Hcur & Hidx & Hrec).
  unfold ControlTask_handle, Workout_GetState. cbn [btn_type wk tx_queue]. rewrite Hrun.
  destruct (decide (STATE_RUNNING = STATE_RUNNING)) as [_ | Hn]; [| congruence].
  rewrite Hrec. cbn [fst snd wk tx_queue s_session state].
  eexists. split; [| split; [reflexivity |];
    destruct (current_lap (s_session w) >=? total_laps (config (s_session w)));
    [destruct (decide (STATE_COMPLETED = STATE_COMPLETED)) as [_ | Hn]; [| congruence]
    | destruct (decide (STATE_RUNNING = STATE_COMPLETED)) as [Hn | _]; [congruence |]];
    reflexivity].
  reflexivity.
Qed.

Lemma lap_presses_drained (Ts : list Z) :
  forall w : Workout,
    lap_layout w -> state (s_session w) = STATE_RUNNING ->
    Z.of_nat (length Ts)
    = total_laps (config (s_session w)) - current_lap (s_session w) + 1 ->
    snd (ControlTask_drained (lap_presses Ts) (mkSys w (Some [])))
    = mkSys (run (lap_script Ts) w) (Some []) /\
    map type (fst (ControlTask_drained (lap_presses Ts) (mkSys w (Some []))))
    = replicate (length Ts - 1) EVENT_LAP_COMPLETE ++ [EVENT_WORKOUT_DONE] /\
    map (fun e => lap_number (lap_data e))
        (fst (ControlTask_drained (lap_presses Ts) (mkSys w (Some []))))
    = map (fun i : nat => current_lap (s_session w) + Z.of_nat i) (seq 0 (length Ts)) /\
    map timestamp_ms (fst (ControlTask_drained (lap_presses Ts) (mkSys w (Some []))))
    = map Time_GetMs Ts.
Proof.
  induction Ts as [| T Ts IH]; intros w Hlay Hrun Hlen.
  - pose proof Hlay as (_ & _ & Hst). rewrite Hrun in Hst. cbn [length] in Hlen. lia.
  - destruct (lap_press_running T w Hlay Hrun) as (lap & Hnum & _ & Hstep).
    destruct (record_lap_running T w Hlay Hrun) as (Hcur & Hidx & Hrec).
    pose proof (lap_layout_recordlap T w Hlay) as Hlay'.
    cbn [lap_presses map ControlTask_drained press]. fold (lap_presses Ts).
    rewrite Hstep. cbn [wk tx_queue default from_option id].
    cbn [lap_script map run exec snd]. fold (lap_script Ts).
    destruct (current_lap (s_session w) >=? total_laps (config (s_session w))) eqn:Hge.
    + assert (Ts = []) as -> by (destruct Ts; [reflexivity | cbn [length] in Hlen; lia]).
      cbn -[Time_GetMs Workout_RecordLap Z.add].
      rewrite Hnum. split_ands; try reflexivity. f_equal. lia.
    + assert (Hrun' : state (s_session (snd (Workout_RecordLap T w))) = STATE_RUNNING)
        by (rewrite Hrec, ?Hge; reflexivity).
      assert (Hcur' : current_lap (s_session (snd (Workout_RecordLap T w)))
                      = current_lap (s_session w) + 1)
        by (rewrite Hrec, ?Hge; reflexivity).
      assert (Hcfg' : config (s_session (snd (Workout_RecordLap T w))) = config (s_session w))
        by (rewrite Hrec; reflexivity).
      destruct (IH (snd (Workout_RecordLap T w)) Hlay' Hrun') as (Hs & Hty & Hno & Hts).
      { rewrite Hcur', Hcfg'. cbn [length] in Hlen. lia. }
      cbn [fst snd]. rewrite Hs.
      assert (HTs : (1 <= length Ts)%nat) by (cbn [length] in Hlen; lia).
      split_ands.
      * reflexivity.
      * cbn [app map type]. rewrite Hty. cbn [length].
        replace (S (length Ts) - 1)%nat with (S (length Ts - 1)) by lia. reflexivity.
      * cbn [app map lap_data length seq]. rewrite Hno, Hnum, Hcur'. f_equal; [lia |].
        rewrite <- seq_shift, map_map. apply map_ext. intros i. lia.
      * cbn [app map timestamp_ms]. rewrite Hts. reflexivity.
Qed.

Lemma lap_script_completes (Ts : list Z) :
  forall w : Workout,
    lap_layout w -> state (s_session w) = STATE_RUNNING ->
    Z.of_nat (length Ts)
    = total_laps (config (s_session w)) - current_lap (s_session w) + 1 ->
    state (s_session (run (lap_script Ts) w)) = STATE_COMPLETED.
Proof.
  induction Ts as [| T Ts IH]; intros w Hlay Hrun Hl.
  - pose proof Hlay as (_ & _ & Hst). rewrite Hrun in Hst. cbn [length] in Hl. lia.
  - destruct (record_lap_running T w Hlay Hrun) as (Hcur & Hidx & Hrec).
    cbn [lap_script map run exec snd]. fold (lap_script Ts).
    destruct (current_lap (s_session w) >=? total_laps (config (s_session w))) eqn:Hge.
    + assert (Ts = []) as -> by (destruct Ts; [reflexivity | cbn [length] in Hl; lia]).
      cbn [lap_script map run]. rewrite Hrec. reflexivity.
    + apply IH.
      * apply lap_layout_recordlap, Hlay.
      * rewrite Hrec. reflexivity.
      * rewrite Hrec. cbn [snd s_session config current_lap]. cbn [length] in Hl. lia.
Qed.

(** X16.  A whole session through the buttons, the transmit task keeping up:
    from any reachable idle session, a start press followed by as many lap
    presses as the mode has laps produces, in this order, one
    [EVENT_WORKOUT_START], an [EVENT_LAP_COMPLETE] for every lap but the last
    and one [EVENT_WORKOUT_DONE]; the lap events carry the lap numbers
    1, 2, ... and all events the time of their press; the session ends
    completed, in the state the lifecycle calls themselves produce. *)
Theorem full_session_is_announced (w : Workout) (T0 : Z) (Ts : list Z) :
  Lifecycle.reachable w -> Workout_GetState w = STATE_IDLE ->
  Z.of_nat (length Ts) = total_laps (config (s_session w)) ->
  map type (fst (ControlTask_drained (press BTN_START T0 :: lap_presses Ts)
                                     (mkSys w (Some []))))
  = EVENT_WORKOUT_START :: replicate (length Ts - 1) EVENT_LAP_COMPLETE
    ++ [EVENT_WORKOUT_DONE] /\
  map (fun e => lap_number (lap_data e))
      (tail (fst (ControlTask_drained (press BTN_START T0 :: lap_presses Ts)
                                      (mkSys w (Some [])))))
  = map Z.of_nat (seq 1 (length Ts)) /\
  map timestamp_ms (fst (ControlTask_drained (press BTN_START T0 :: lap_presses Ts)
                                             (mkSys w (Some []))))
  = map Time_GetMs (T0 :: Ts) /\
  snd (ControlTask_drained (press BTN_START T0 :: lap_presses Ts) (mkSys w (Some [])))
  = mkSys (run ((T0, OpStart) :: lap_script Ts) w) (Some []) /\
  Workout_GetState (run ((T0, OpStart) :: lap_script Ts) w) = STATE_COMPLETED.
Proof.
  intros Hreach Hidle Hlen. unfold Workout_GetState in Hidle.
  pose proof (reachable_lap_layout w Hreach) as Hlay.
  destruct (reachable_idle_start T0 w Hlay Hidle) as (Hlay1 & Hrun1 & Hcur1 & Hcfg1 & _).
  assert (Hstart : ControlTask_handle (mkButtonEvent BTN_START (Time_GetMs T0)) (fun _ => T0)
                     (mkSys w (Some []))
                   = mkSys (snd (Workout_Start T0 w))
                           (Some [mkEvent EVENT_WORKOUT_START (Time_GetMs T0) 1 lap_zero])).
  { unfold ControlTask_handle, Workout_GetState. cbn [btn_type wk tx_queue]. rewrite Hidle.
    destruct (decide (STATE_IDLE = STATE_COMPLETED)) as [Hn | _]; [congruence |].
    cbn [wk tx_queue]. unfold Workout_Start. rewrite Hidle. reflexivity. }
  destruct (lap_presses_drained Ts (snd (Workout_Start T0 w)) Hlay1 Hrun1)
    as (Hs & Hty & Hno & Hts).
  { rewrite Hcur1, Hcfg1. lia. }
  cbn [ControlTask_drained press]. rewrite Hstart. cbn [wk tx_queue default from_option id fst snd].
  cbn [run exec]. split_ands.
  - cbn [app map type]. rewrite Hty. reflexivity.
  - cbn [app tail]. rewrite Hno, Hcur1. rewrite <- seq_shift, map_map.
    apply map_ext. intros i. lia.
  - cbn [app map timestamp_ms]. rewrite Hts. reflexivity.
  - exact Hs.
  - apply lap_script_completes; [exact Hlay1 | exact Hrun1 | rewrite Hcur1, Hcfg1; lia].
Qed.

Lemma full_session_is_announced_witness :
  map type (fst (ControlTask_drained
                   (press BTN_START 0 :: lap_presses [1000; 2500; 4000; 5200])
                   (mkSys Workout_Init (Some []))))
  = [EVENT_WORKOUT_START; EVENT_LAP_COMPLETE; EVENT_LAP_COMPLETE; EVENT_LAP_COMPLETE;
     EVENT_WORKOUT_DONE].
Proof.
  destruct (full_session_is_announced Workout_Init 0 [1000; 2500; 4000; 5200]) as (H & _).
  - apply reach_init.
  - reflexivity.
  - reflexivity.
  - exact H.
Defined.

End WorkoutControlFacts.

(** * The link to the ESP32 *)

Module LinkFacts.

Import Control BleManager LinkSpec ProtocolFacts CodecFacts.

Lemma prefix_substring_self (n : nat) (s : string) :
  String.prefix (substring 0 n s) s = true.
Proof.
  revert n. induction s as [| c s IH]; intros [| n]; simpl; try reflexivity.
  destruct (ascii_dec c c); [apply IH | congruence].
Qed.

Lemma data_send_result (pData : string) (len : Z) (cb : BleCb) (ccc : bool) :
  DataSend pData len cb ccc
  = if link_up cb ccc
    then (true, Some (substring 0 (Z.to_nat (Z.min len CUSTOM_MAX_DATA_LEN)) pData))
    else (false, None).
Proof.
  unfold DataSend, link_up.
  destruct (bleCb_connected cb), (bleCb_connId cb =? DM_CONN_ID_NONE), ccc; cbn;
    try reflexivity.
  unfold CUSTOM_MAX_DATA_LEN. destruct (len >? 128) eqn:Hgt; do 3 f_equal; lia.
Qed.

(** X17.  [DataSend] notifies only over a usable link and never more than
    [CUSTOM_MAX_DATA_LEN] bytes: it returns [TRUE] exactly when the
    application is connected with a connection id and the peer enabled
    notifications; otherwise nothing is notified; what is notified is the
    first [len] bytes of the data, cut to 128 if [len] is larger. *)
Theorem data_send_gated_and_capped (pData : string) (len : Z) (cb : BleCb) (ccc : bool) :
  0 <= len <= Z.of_nat (String.length pData) ->
  (fst (DataSend pData len cb ccc) = true <->
   bleCb_connected cb = true /\ bleCb_connId cb <> DM_CONN_ID_NONE /\ ccc = true) /\
  (fst (DataSend pData len cb ccc) = false -> snd (DataSend pData len cb ccc) = None) /\
  (forall v,
      snd (DataSend pData len cb ccc) = Some v ->
      fst (DataSend pData len cb ccc) = true /\
      String.prefix v pData = true /\
      Z.of_nat (String.length v) = Z.min len CUSTOM_MAX_DATA_LEN).
Proof.
  intros Hlen. rewrite data_send_result. unfold link_up.
  destruct (bleCb_connected cb) eqn:Hc; cbn [andb negb fst snd];
    [| split_ands; [split; [discriminate | intros (H & _); discriminate H] | reflexivity
                   | discriminate]].
  destruct (bleCb_connId cb =? DM_CONN_ID_NONE) eqn:Hid; cbn [andb negb fst snd];
    [split_ands; [split; [discriminate | intros (_ & H & _); lia] | reflexivity | discriminate]
    |].
  destruct ccc; cbn [fst snd];
    [| split_ands; [split; [discriminate | intros (_ & _ & H); discriminate H] | reflexivity
                   | discriminate]].
  split_ands.
  - split; [intros _; split_ands; [reflexivity | lia | reflexivity] | reflexivity].
  - discriminate.
  - intros v [= <-]. split_ands; [reflexivity | apply prefix_substring_self |].
    rewrite substring_0_length. unfold CUSTOM_MAX_DATA_LEN in *. lia.
Qed.

Lemma data_send_gated_and_capped_witness :
  fst (DataSend (Protocol.q "{'cmd':'hr_req'}") 16 (mkBleCb 1 true) true) = true <->
  bleCb_connected (mkBleCb 1 true) = true /\
  bleCb_connId (mkBleCb 1 true) <> DM_CONN_ID_NONE /\ true = true.
Proof.
  apply (data_send_gated_and_capped (Protocol.q "{'cmd':'hr_req'}") 16 (mkBleCb 1 true) true).
  vm_compute. split; discriminate.
Defined.

Lemma strstr_found_occurs (haystack needle : string) :
  needle <> EmptyString ->
  (strstr_found haystack needle = true <-> occurs needle haystack).
Proof.
  intros Hne. unfold strstr_found, occurs.
  destruct (String.index 0 needle haystack) as [m |] eqn:Hi.
  - split; [intros _ | reflexivity]. exists m. apply (index_correct1 0), Hi.
  - split; [discriminate |]. intros (m & Hm). exfalso.
    apply (index_correct3 0 m needle haystack Hi Hne); [lia | exact Hm].
Qed.

Lemma send_ble_event_room (t : BleCtrlEventType_t) (T : Z) (items : list BleCtrlEvent_t) :
  (length items < BLE_CTRL_QUEUE_LENGTH)%nat ->
  ControlTask_SendBleEvent t T (Some items)
  = (true, Some (items ++ [mkBleCtrlEvent t (Time_GetMs T)])).
Proof.
  intros Hlt. unfold ControlTask_SendBleEvent.
  destruct (decide _); [reflexivity | contradiction].
Qed.

(** X18.  A write to the RX characteristic reaches the coordinator as
    [BLE_CTRL_EVT_HR_DONE] exactly when it carries the text
    ["cmd":"hr_done"]: a write to another handle, an empty write or one of
    128 bytes or more is ignored whatever it holds; a write of 1 to 127
    bytes without NUL queues one event (when the control queue has room) if
    the text occurs anywhere in it, and nothing otherwise. *)
Theorem hr_done_write_detection
    (handle len : Z) (pValue : string) (T : Z) (qu : BleCtrlQueue)
    (items : list BleCtrlEvent_t) :
  (handle <> CUSTOM_RX_HDL \/ len <= 0 \/ CUSTOM_MAX_DATA_LEN <= len ->
   customWriteCback handle len pValue T qu = qu) /\
  (0 < len < CUSTOM_MAX_DATA_LEN -> len = Z.of_nat (String.length pValue) ->
   c_string pValue = pValue -> (length items < BLE_CTRL_QUEUE_LENGTH)%nat ->
   (occurs hr_done_marker pValue ->
    customWriteCback CUSTOM_RX_HDL len pValue T (Some items)
    = Some (items ++ [mkBleCtrlEvent BLE_CTRL_EVT_HR_DONE (Time_GetMs T)])) /\
   (~ occurs hr_done_marker pValue ->
    customWriteCback CUSTOM_RX_HDL len pValue T (Some items) = Some items)).
Proof.
  split.
  - unfold customWriteCback. intros [H | [H | H]].
    + replace (handle =? CUSTOM_RX_HDL) with false by lia. reflexivity.
    + destruct (handle =? CUSTOM_RX_HDL); [| reflexivity].
      replace (len >? 0) with false by lia. reflexivity.
    + destruct (handle =? CUSTOM_RX_HDL); [| reflexivity].
      replace (len <? CUSTOM_MAX_DATA_LEN) with false by lia.
      rewrite andb_false_r. reflexivity.
  - intros Hlen Hall Hnul Hroom. unfold customWriteCback.
    rewrite Z.eqb_refl.
    replace (len >? 0) with true by lia.
    replace (len <? CUSTOM_MAX_DATA_LEN) with true by lia. cbn [andb].
    rewrite substring_all by lia. rewrite Hnul.
    fold hr_done_marker.
    pose proof (strstr_found_occurs pValue hr_done_marker) as Hocc.
    destruct (strstr_found pValue hr_done_marker).
    + split; [intros _ | intros Hn; exfalso; apply Hn, Hocc; [discriminate | reflexivity]].
      rewrite send_ble_event_room by exact Hroom. reflexivity.
    + split; [intros Ho; apply Hocc in Ho; [discriminate Ho | discriminate] | reflexivity].
Qed.

Lemma hr_done_write_detection_witness :
  customWriteCback CUSTOM_RX_HDL 17 (Protocol.q "{'cmd':'hr_done'}") 5000 (Some [])
  = Some ([] ++ [mkBleCtrlEvent BLE_CTRL_EVT_HR_DONE (Time_GetMs 5000)]).
Proof.
  destruct (hr_done_write_detection CUSTOM_RX_HDL 17 (Protocol.q "{'cmd':'hr_done'}") 5000
              (Some []) []) as (_ & H).
  apply H.
  - unfold CUSTOM_MAX_DATA_LEN. lia.
  - reflexivity.
  - reflexivity.
  - unfold BLE_CTRL_QUEUE_LENGTH. simpl. lia.
  - exists 1%nat. reflexivity.
Defined.

End LinkFacts.

(** * The transmit task *)

Module TxFacts.

Import Lifecycle Buffer BufferSpec BufferFacts Protocol ProtocolSpec ProtocolFacts
       CodecSpec CodecFacts BleManager LinkSpec LinkFacts BleTxTask TxSpec TxTaskSpec.

Lemma expansion_nonempty (w : Workout) (T1 T2 : Z) (e : WorkoutEvent_t) :
  (0 < String.length (expansion w T1 T2 e))%nat.
Proof.
  unfold expansion. destruct (type e);
    repeat match goal with
           | |- context [q ?s] => let v := eval vm_compute in (q s) in change (q s) with v
           end;
    cbn [format String.length]; lia.
Qed.

(** The serialise step of the task, by whether the record fits. *)
Lemma serialize_env (env : TxEnv) (e : WorkoutEvent_t) (msgBuf : string) :
  serialize env e msgBuf
  = (if fits env e then Z.of_nat (String.length (wire_text env e)) else 0,
     if fits env e then wire_text env e
     else substring 0 (Z.to_nat (PROTOCOL_MAX_MSG_LEN - 1)) (wire_text env e)).
Proof.
  unfold serialize. rewrite serialize_expansion by (unfold PROTOCOL_MAX_MSG_LEN; lia).
  unfold fits, wire_text. cbn [fst snd default from_option id].
  generalize (expansion (tx_workout env) (tx_T1 env) (tx_T2 env) e). intros out.
  unfold PROTOCOL_MAX_MSG_LEN.
  destruct (Z.of_nat (String.length out) <? 128) eqn:Hlt.
  - replace (Z.of_nat (String.length out) >=? 128) with false by lia.
    rewrite substring_all by lia. unfold wrap16. rewrite Z.mod_small by lia. reflexivity.
  - replace (Z.of_nat (String.length out) >=? 128) with true by lia. reflexivity.
Qed.

(** The send step on a record that fits. *)
Lemma send_fitting (env : TxEnv) (e : WorkoutEvent_t) (log : list string) :
  fits env e = true ->
  send env (wire_text env e) (Z.of_nat (String.length (wire_text env e))) log
  = if link_up (tx_cb env) (tx_ccc env) then (true, log ++ [wire_text env e])
    else (false, log).
Proof.
  unfold fits, PROTOCOL_MAX_MSG_LEN. intros Hfit. unfold send.
  rewrite data_send_result. destruct (link_up (tx_cb env) (tx_ccc env)); [| reflexivity].
  cbn [fst snd]. unfold CUSTOM_MAX_DATA_LEN.
  rewrite substring_all by lia. reflexivity.
Qed.

Lemma flush_loop_spec (fuel : nat) :
  forall (envs : nat -> TxEnv) (k : nat) (count : Z) (tx : Tx),
    ring_ok (ring tx) -> (Z.to_nat (s_count (ring tx)) < fuel)%nat ->
    0 <= count -> count + s_count (ring tx) < 256 ->
    fst (flush_loop fuel envs k count tx)
    = count + Z.of_nat (length (flush_sent envs k (contents (ring tx)))) /\
    notified (snd (flush_loop fuel envs k count tx))
    = notified tx ++ flush_sent envs k (contents (ring tx)) /\
    ring_ok (ring (snd (flush_loop fuel envs k count tx))) /\
    s_count (ring (snd (flush_loop fuel envs k count tx))) = 0 /\
    s_wasConnected (snd (flush_loop fuel envs k count tx)) = s_wasConnected tx.
Proof.
  induction fuel as [| fuel IH]; intros envs k count tx Hok Hfuel Hc0 Hc255; [lia |].
  cbn [flush_loop].
  destruct (decide (s_count (ring tx) = 0)) as [Hz | Hnz].
  - rewrite (pop_empty _ Hz). cbn [fst snd ring notified s_wasConnected].
    rewrite (contents_empty _ Hz). cbn [flush_sent length]. rewrite app_nil_r.
    split_ands; [lia | reflexivity | exact Hok | exact Hz | reflexivity].
  - pose proof Hok as (_ & _ & Hcnt & _).
    destruct (pop_contents (ring tx) Hok) as (Hfst & Hok' & Hcnt' & Hcont); [lia |].
    destruct (Buffer_Pop (ring tx)) as [[e |] b'] eqn:Hpop; cbn [fst snd] in *;
      [| discriminate Hfst].
    injection Hfst as He. rewrite Hcont, <- He. cbn [flush_sent].
    rewrite serialize_env. cbn [fst snd]. unfold accepted.
    destruct (fits (envs k) e) eqn:Hfit; cbn [andb].
    + pose proof (expansion_nonempty (tx_workout (envs k)) (tx_T1 (envs k)) (tx_T2 (envs k)) e)
        as Hne. fold (wire_text (envs k) e) in Hne.
      replace (Z.of_nat (String.length (wire_text (envs k) e)) >? 0) with true by lia.
      rewrite send_fitting by exact Hfit.
      destruct (link_up (tx_cb (envs k)) (tx_ccc (envs k))); cbn [fst snd].
      * assert (Hw : wrap8 (count + 1) = count + 1) by (apply wrap8_small; lia).
        rewrite Hw.
        destruct (IH envs (S k) (count + 1)
                    (mkTx b' (s_wasConnected tx) (wire_text (envs k) e)
                          (notified tx ++ [wire_text (envs k) e])))
          as (H1 & H2 & H3 & H4 & H5); cbn [ring notified s_wasConnected];
          try first [exact Hok' | lia].
        rewrite H1, H2. cbn [ring notified s_wasConnected].
        cbn [app length]. rewrite <- app_assoc.
        split_ands; [lia | reflexivity | exact H3 | exact H4 | exact H5].
      * destruct (IH envs (S k) count
                    (mkTx b' (s_wasConnected tx) (wire_text (envs k) e) (notified tx)))
          as (H1 & H2 & H3 & H4 & H5); cbn [ring notified s_wasConnected];
          try first [exact Hok' | lia].
        rewrite H1, H2. cbn [ring notified s_wasConnected app].
        split_ands; [lia | reflexivity | exact H3 | exact H4 | exact H5].
    + cbn [Z.gtb Z.compare].
      match goal with |- context [mkTx b' ?a ?b ?c] =>
        destruct (IH envs (S k) count (mkTx b' a b c)) as (H1 & H2 & H3 & H4 & H5) end;
        cbn [ring notified s_wasConnected]; try first [exact Hok' | lia].
      rewrite H1, H2. cbn [ring notified s_wasConnected app].
      split_ands; [lia | reflexivity | exact H3 | exact H4 | exact H5].
Qed.

Lemma flush_spec (envs : nat -> TxEnv) (tx : Tx) :
  ring_ok (ring tx) ->
  fst (BleTx_FlushBuffer envs tx)
  = Z.of_nat (length (flush_sent envs 0 (contents (ring tx)))) /\
  notified (snd (BleTx_FlushBuffer envs tx))
  = notified tx ++ flush_sent envs 0 (contents (ring tx)) /\
  ring_ok (ring (snd (BleTx_FlushBuffer envs tx))) /\
  s_count (ring (snd (BleTx_FlushBuffer envs tx))) = 0 /\
  s_wasConnected (snd (BleTx_FlushBuffer envs tx)) = s_wasConnected tx.
Proof.
  intros Hok. pose proof Hok as (_ & _ & Hcnt & _). unfold BUFFER_MAX_EVENTS in Hcnt.
  unfold BleTx_FlushBuffer.
  destruct (flush_loop_spec (S (Z.to_nat (s_count (ring tx)))) envs 0 0 tx Hok)
    as (H1 & H2 & H3 & H4 & H5); try lia.
  split_ands; assumption.
Qed.

Lemma flush_sent_all (envs : nat -> TxEnv) (es : list WorkoutEvent_t) :
  forall k : nat,
    (forall (i : nat) (e : WorkoutEvent_t),
        es !! i = Some e -> accepted (envs (k + i)%nat) e = true) ->
    flush_sent envs k es = imap (fun i e => wire_text (envs (k + i)%nat) e) es.
Proof.
  induction es as [| e es IH]; intros k Hall; [reflexivity |].
  cbn [flush_sent imap].
  pose proof (Hall 0%nat e eq_refl) as H0. rewrite Nat.add_0_r in *. rewrite H0.
  cbn [app]. f_equal. rewrite IH.
  - apply imap_ext. intros i x _. cbn. f_equal. f_equal. lia.
  - intros i x Hx. replace (S k + i)%nat with (k + S i)%nat by lia. apply Hall. exact Hx.
Qed.

(** X19.  [BleTx_FlushBuffer] empties the offline buffer whatever the link
    does: every buffered event is popped, oldest first; the records that fit
    the message buffer and that the link takes are notified in that order,
    the others are discarded, not kept; the count returned is the number
    notified.  If every event is taken, the notifications are the records of
    all buffered events in buffer order. *)
Theorem flush_empties_buffer_in_order (envs : nat -> TxEnv) (tx : Tx) :
  BufferSpec.reachable (ring tx) ->
  fst (BleTx_FlushBuffer envs tx)
  = Z.of_nat (length (flush_sent envs 0 (contents (ring tx)))) /\
  notified (snd (BleTx_FlushBuffer envs tx))
  = notified tx ++ flush_sent envs 0 (contents (ring tx)) /\
  contents (ring (snd (BleTx_FlushBuffer envs tx))) = [] /\
  Buffer_IsEmpty (ring (snd (BleTx_FlushBuffer envs tx))) = true /\
  ((forall (i : nat) (e : WorkoutEvent_t),
       contents (ring tx) !! i = Some e -> accepted (envs i) e = true) ->
   flush_sent envs 0 (contents (ring tx))
   = imap (fun i e => wire_text (envs i) e) (contents (ring tx))).
Proof.
  intros Hreach. pose proof (ring_ok_reachable _ Hreach) as Hok.
  destruct (flush_spec envs tx Hok) as (H1 & H2 & H3 & H4 & H5).
  split_ands; try assumption.
  - apply contents_empty, H4.
  - unfold Buffer_IsEmpty. rewrite H4. reflexivity.
  - intros Hall. apply (flush_sent_all envs (contents (ring tx)) 0). exact Hall.
Qed.

Lemma flush_empties_buffer_in_order_witness :
  contents (ring (snd (BleTx_FlushBuffer
                         (fun _ => mkTxEnv Workout_Init 0 0 (mkBleCb 0 false) false)
                         (mkTx (snd (Buffer_Push (Some lap_event) Buffer_Init))
                               false EmptyString [])))) = [].
Proof.
  apply (flush_empties_buffer_in_order
           (fun _ => mkTxEnv Workout_Init 0 0 (mkBleCb 0 false) false)
           (mkTx (snd (Buffer_Push (Some lap_event) Buffer_Init)) false EmptyString [])).
  cbn [ring]. apply ring_push, ring_init.
Defined.

(** An event with fields of their C types fits the message buffer. *)
Lemma fits_in_range (env : TxEnv) (e : WorkoutEvent_t) :
  event_in_range e ->
  0 <= total_laps (config (s_session (tx_workout env))) < 2 ^ 8 ->
  fits env e = true.
Proof.
  intros He Htl. unfold fits, wire_text, PROTOCOL_MAX_MSG_LEN.
  pose proof (expansion_length (tx_workout env) (tx_T1 env) (tx_T2 env) e He Htl). lia.
Qed.

Lemma after_flush_ok (connected : bool) (flush_envs : nat -> TxEnv) (tx : Tx) :
  ring_ok (ring tx) ->
  ring_ok (ring (after_flush connected flush_envs tx)) /\
  s_wasConnected (after_flush connected flush_envs tx) = s_wasConnected tx.
Proof.
  intros Hok. unfold after_flush.
  destruct (connected && negb (s_wasConnected tx)); [| auto].
  destruct (flush_spec flush_envs tx Hok) as (_ & _ & H3 & _ & H5). auto.
Qed.

(** The handling of an event whose record fits. *)
Lemma handle_fitting (event : WorkoutEvent_t) (connected : bool)
    (flush_envs : nat -> TxEnv) (env : TxEnv) (tx : Tx) :
  fits env event = true ->
  BleTxTask_handle event connected flush_envs env tx
  = if connected && link_up (tx_cb env) (tx_ccc env)
    then mkTx (ring (after_flush connected flush_envs tx)) connected (wire_text env event)
              (notified (after_flush connected flush_envs tx) ++ [wire_text env event])
    else mkTx (snd (Buffer_Push (Some event) (ring (after_flush connected flush_envs tx))))
              connected (wire_text env event)
              (notified (after_flush connected flush_envs tx)).
Proof.
  intros Hfit. unfold BleTxTask_handle. fold (after_flush connected flush_envs tx).
  cbn [ring s_wasConnected s_msgBuf notified].
  rewrite serialize_env, Hfit. cbn [fst snd].
  pose proof (expansion_nonempty (tx_workout env) (tx_T1 env) (tx_T2 env) event) as Hne.
  fold (wire_text env event) in Hne.
  replace (Z.of_nat (String.length (wire_text env event)) >? 0) with true by lia.
  destruct connected; cbn [andb]; [| reflexivity].
  rewrite send_fitting by exact Hfit.
  destruct (link_up (tx_cb env) (tx_ccc env)); reflexivity.
Qed.



(** X21.  Reconnection delivers the backlog in order: when the task, having
    last seen the link down, handles an event with the link up, and the link
    takes every record, the records of all buffered events are notified
    oldest first, followed by the record of the new event; the offline
    buffer is empty afterwards. *)
Theorem reconnect_delivers_backlog_in_order (event : WorkoutEvent_t)
    (flush_envs : nat -> TxEnv) (env : TxEnv) (tx : Tx) :
  BufferSpec.reachable (ring tx) ->
  s_wasConnected tx = false ->
  (forall (i : nat) (e : WorkoutEvent_t),
      contents (ring tx) !! i = Some e -> accepted (flush_envs i) e = true) ->
  accepted env event = true ->
  notified (BleTxTask_handle event true flush_envs env tx)
  = notified tx
    ++ imap (fun i e => wire_text (flush_envs i) e) (contents (ring tx))
    ++ [wire_text env event] /\
  contents (ring (BleTxTask_handle event true flush_envs env tx)) = [] /\
  s_wasConnected (BleTxTask_handle event true flush_envs env tx) = true.
Proof.
  intros Hreach Hwas Hall Hacc. pose proof (ring_ok_reachable _ Hreach) as Hok.
  unfold accepted in Hacc. apply andb_true_iff in Hacc as (Hfit & Hup).
  rewrite (handle_fitting event true flush_envs env tx Hfit). rewrite Hup. cbn [andb].
  unfold after_flush. rewrite Hwas. cbn [andb negb notified ring s_wasConnected].
  destruct (flush_spec flush_envs tx Hok) as (_ & H2 & _ & H4 & _).
  rewrite H2, (flush_sent_all flush_envs (contents (ring tx)) 0 Hall), <- app_assoc.
  split_ands; [reflexivity | apply contents_empty, H4 | reflexivity].
Qed.

Lemma reconnect_delivers_backlog_in_order_witness :
  notified
    (BleTxTask_handle lap_event true
       (fun _ => mkTxEnv Workout_Init 0 0 (mkBleCb 1 true) true)
       (mkTxEnv Workout_Init 0 0 (mkBleCb 1 true) true)
       (mkTx (snd (Buffer_Push (Some start_event) Buffer_Init)) false EmptyString []))
  = [q "{'event':'start','mode':'4x500m','laps':4,'ts':0}";
     q "{'event':'lap','lap':4,'lap_ms':1200,'split_ms':5200,'ts':5200}"].
Proof.
  destruct (reconnect_delivers_backlog_in_order lap_event
              (fun _ => mkTxEnv Workout_Init 0 0 (mkBleCb 1 true) true)
              (mkTxEnv Workout_Init 0 0 (mkBleCb 1 true) true)
              (mkTx (snd (Buffer_Push (Some start_event) Buffer_Init)) false EmptyString []))
    as (H & _).
  - cbn [ring]. apply ring_push, ring_init.
  - reflexivity.
  - intros i e He. vm_compute in He. destruct i as [| i]; [| discriminate He].
    injection He as <-. vm_compute. reflexivity.
  - vm_compute. reflexivity.
  - rewrite H. vm_compute. reflexivity.
Defined.

End TxFacts.

(** * The buttons on the I/O expander *)

Module ButtonFacts.

Import Control Buttons Max7325 ButtonSpec.

Lemma land_pow2 (a k : Z) :
  0 <= k -> Z.land a (2 ^ k) = if Z.testbit a k then 2 ^ k else 0.
Proof.
  intros Hk. apply Z.bits_inj'. intros n Hn.
  rewrite Z.land_spec, Z.pow2_bits_eqb by exact Hk.
  destruct (Z.eqb_spec k n) as [-> | Hne].
  - rewrite andb_true_r. destruct (Z.testbit a n);
      [rewrite Z.pow2_bits_true by exact Hn | rewrite Z.bits_0]; reflexivity.
  - rewrite andb_false_r. destruct (Z.testbit a k);
      [rewrite Z.pow2_bits_false by exact Hne | rewrite Z.bits_0]; reflexivity.
Qed.

(** The mask tests of the driver read single port lines. *)
Lemma mask_test (a k : Z) :
  0 <= k -> (Z.land a (Z.shiftl 1 k) =? 0) = negb (Z.testbit a k).
Proof.
  intros Hk. rewrite Z.shiftl_1_l, land_pow2 by exact Hk.
  destruct (Z.testbit a k); [| reflexivity].
  apply Z.eqb_neq. apply Z.pow_nonzero; lia.
Qed.

Lemma edge_test (mask_bit current previous : Z) :
  0 <= mask_bit ->
  negb (Z.land previous (Z.shiftl 1 mask_bit) =? 0)
  && (Z.land current (Z.shiftl 1 mask_bit) =? 0)
  = newly_pressed mask_bit current previous.
Proof.
  intros Hk. rewrite !mask_test by exact Hk. unfold newly_pressed.
  rewrite negb_involutive. reflexivity.
Qed.

Lemma button_send_room (t : ButtonEventType_t) (T : Z) (items : list ButtonEvent_t) :
  (length items < BUTTON_QUEUE_LENGTH)%nat ->
  Button_SendEvent t T (Some items) = (true, Some (items ++ [mkButtonEvent t (Time_GetMs T)])).
Proof.
  intros Hlt. unfold Button_SendEvent. destruct (decide _); [reflexivity | contradiction].
Qed.

(** X22.  [processButtonChange] reports exactly the buttons that went from
    released to pressed between the two port readings: with room in the
    button queue, the queue gains a START, LAP and STOP event, in this order,
    for each of the lines 0, 1 and 2 that read 1 before and 0 now, and
    nothing else; the other five lines play no part.  A reading of 0xFF, which
    [Max7325_ReadRaw] also returns when the bus fails, reports nothing. *)
Theorem button_change_reports_new_presses
    (current previous : Z) (clk : nat -> Z) (items : list ButtonEvent_t) :
  (length items + 3 <= BUTTON_QUEUE_LENGTH)%nat ->
  processButtonChange current previous clk (Some items)
  = Some (items ++ press_events current previous clk) /\
  processButtonChange (Max7325_ReadRaw (mkDriver true true) None) previous clk (Some items)
  = Some items.
Proof.
  intros Hroom. unfold BUTTON_QUEUE_LENGTH in Hroom.
  assert (Hgen : forall cur,
             processButtonChange cur previous clk (Some items)
             = Some (items ++ press_events cur previous clk)).
  { intros cur. unfold processButtonChange, press_events,
      MAX7325_SW1_MASK, MAX7325_SW2_MASK, MAX7325_SW3_MASK.
    rewrite !edge_test by lia.
    destruct (newly_pressed 0 cur previous), (newly_pressed 1 cur previous),
      (newly_pressed 2 cur previous);
      repeat (rewrite button_send_room
                by (rewrite ?length_app; cbn [length]; unfold BUTTON_QUEUE_LENGTH; lia);
              cbn [snd]);
      cbn [app]; rewrite <- ?app_assoc, ?app_nil_r; reflexivity. }
  split; [apply Hgen |].
  rewrite Hgen. cbn [Max7325_ReadRaw s_initialized s_i2c negb orb].
  unfold press_events, newly_pressed.
  change (Z.testbit 255 0) with true. change (Z.testbit 255 1) with true.
  change (Z.testbit 255 2) with true. cbn [negb]. rewrite !andb_false_r.
  cbn [app]. rewrite app_nil_r. reflexivity.
Qed.

Lemma button_change_reports_new_presses_witness :
  processButtonChange 250 255 (fun _ => 700) (Some [])
  = Some ([] ++ press_events 250 255 (fun _ => 700)).
Proof.
  apply (button_change_reports_new_presses 250 255 (fun _ => 700) []).
  unfold BUTTON_QUEUE_LENGTH. simpl. lia.
Defined.

(** ** Debouncing *)

Lemma poll_other (x : Z) (clk : nat -> Z) (p : Poll) (qu : ButtonQueue) :
  x <> lastRead p ->
  pollingTask_iteration x clk p qu = (mkPoll (stableState p) 0 x, qu).
Proof.
  intros Hne. unfold pollingTask_iteration.
  replace (x =? lastRead p) with false by lia. reflexivity.
Qed.

Lemma poll_first_repeat (x : Z) (clk : nat -> Z) (p : Poll) (qu : ButtonQueue) :
  x = lastRead p -> readCount p = 0 ->
  pollingTask_iteration x clk p qu = (mkPoll (stableState p) 1 x, qu).
Proof.
  intros Heq H0. unfold pollingTask_iteration.
  replace (x =? lastRead p) with true by lia. rewrite H0. reflexivity.
Qed.

Lemma poll_stable (x : Z) (clk : nat -> Z) (p : Poll) (qu : ButtonQueue) :
  x = lastRead p -> 1 <= readCount p <= 2 ->
  pollingTask_iteration x clk p qu
  = (settled x,
     if x =? stableState p then qu else processButtonChange x (stableState p) clk qu).
Proof.
  intros Heq Hrc. unfold pollingTask_iteration, settled, DEBOUNCE_COUNT.
  replace (x =? lastRead p) with true by lia.
  rewrite wrap8_small by lia.
  replace (readCount p + 1 >=? 2) with true by lia.
  destruct (Z.eqb_spec x (stableState p)) as [<- | Hne]; reflexivity.
Qed.

Lemma poll_settled (x : Z) (clks : list (nat -> Z)) (qu : ButtonQueue) :
  pollingTask (steady x clks) (settled x) qu = (settled x, qu).
Proof.
  induction clks as [| clk clks IH]; [reflexivity |].
  cbn [steady map pollingTask]. fold (steady x clks).
  rewrite poll_stable by (unfold settled, DEBOUNCE_COUNT; cbn; lia).
  cbn [fst snd settled stableState]. rewrite Z.eqb_refl. exact IH.
Qed.

(** X23.  A press is reported only after three consecutive polls read the
    same level: whatever the polling state, if three polls in a row do not
    all read the same value, the third of them leaves the button queue as it
    was.  (A level seen on one or two polls only, 50 ms apart, is never
    reported.) *)
Theorem press_needs_three_equal_reads
    (a b c : Z) (ca cb cc : nat -> Z) (p : Poll) (qu : ButtonQueue) :
  a <> b \/ b <> c ->
  snd (pollingTask [(a, ca); (b, cb); (c, cc)] p qu)
  = snd (pollingTask [(a, ca); (b, cb)] p qu).
Proof.
  cbn [pollingTask].
  set (r1 := pollingTask_iteration a ca p qu).
  assert (H1 : lastRead (fst r1) = a).
  { unfold r1, pollingTask_iteration.
    destruct (a =? lastRead p); [| reflexivity].
    destruct (_ >=? _); [| reflexivity]. destruct (negb _); reflexivity. }
  set (r2 := pollingTask_iteration b cb (fst r1) (snd r1)).
  assert (H2 : lastRead (fst r2) = b /\ (b <> a -> readCount (fst r2) = 0)).
  { unfold r2. split.
    - unfold pollingTask_iteration.
      destruct (b =? lastRead (fst r1)); [| reflexivity].
      destruct (_ >=? _); [| reflexivity]. destruct (negb _); reflexivity.
    - intros Hne. rewrite poll_other by (rewrite H1; exact Hne). reflexivity. }
  destruct H2 as (H2 & H2').
  intros Hdiff.
  destruct (decide (c = b)) as [-> | Hcb].
  - destruct Hdiff as [Hab | Hbb]; [| congruence].
    rewrite poll_first_repeat; [reflexivity | congruence | apply H2'; congruence].
  - rewrite poll_other by (rewrite H2; exact Hcb). reflexivity.
Qed.

Lemma press_needs_three_equal_reads_witness :
  snd (pollingTask [(254, fun _ => 50); (254, fun _ => 100); (255, fun _ => 150)]
                   (settled 255) (Some []))
  = snd (pollingTask [(254, fun _ => 50); (254, fun _ => 100)] (settled 255) (Some [])).
Proof.
  apply (press_needs_three_equal_reads 254 254 255
           (fun _ => 50) (fun _ => 100) (fun _ => 150) (settled 255) (Some [])).
  right. lia.
Defined.

(** X24.  A held level is reported once: from any polling state (read
    counter at most 2, as the task keeps it), three polls and more that all
    read the level [x] leave [x] as the stable level; if [x] was the stable
    level already nothing is queued, and otherwise [processButtonChange] runs
    exactly once, in one of the first three polls, however long the level is
    held. *)
Theorem held_level_reported_once
    (x : Z) (c1 c2 c3 : nat -> Z) (clks : list (nat -> Z)) (p : Poll) (qu : ButtonQueue) :
  0 <= readCount p <= 2 ->
  fst (pollingTask (steady x (c1 :: c2 :: c3 :: clks)) p qu) = settled x /\
  (x = stableState p ->
   snd (pollingTask (steady x (c1 :: c2 :: c3 :: clks)) p qu) = qu) /\
  (x <> stableState p ->
   exists clk,
     In clk [c1; c2; c3] /\
     snd (pollingTask (steady x (c1 :: c2 :: c3 :: clks)) p qu)
     = processButtonChange x (stableState p) clk qu).
Proof.
  intros Hrc. cbn [steady map pollingTask]. fold (steady x clks).
  destruct (decide (x = lastRead p)) as [Hl | Hl].
  - destruct (decide (readCount p = 0)) as [H0 | H0].
    + rewrite (poll_first_repeat x c1 p qu Hl H0). cbn [fst snd].
      rewrite (poll_stable x c2) by (unfold settled, DEBOUNCE_COUNT; cbn; lia). cbn [fst snd stableState].
      rewrite (poll_stable x c3 (settled x)) by (unfold settled, DEBOUNCE_COUNT; cbn; lia). cbn [fst snd settled stableState].
      rewrite Z.eqb_refl. fold (settled x). rewrite poll_settled. cbn [fst snd].
      destruct (Z.eqb_spec x (stableState p)) as [He | Hne].
      * split_ands; [reflexivity | reflexivity | contradiction].
      * split_ands; [reflexivity | contradiction |].
        intros _. exists c2. split; [simpl; auto | reflexivity].
    + rewrite (poll_stable x c1 p qu Hl) by lia. cbn [fst snd].
      rewrite (poll_stable x c2 (settled x)) by (unfold settled, DEBOUNCE_COUNT; cbn; lia). cbn [fst snd settled stableState].
      rewrite Z.eqb_refl. fold (settled x).
      rewrite (poll_stable x c3 (settled x)) by (unfold settled, DEBOUNCE_COUNT; cbn; lia). cbn [fst snd settled stableState].
      rewrite Z.eqb_refl. fold (settled x). rewrite poll_settled. cbn [fst snd].
      destruct (Z.eqb_spec x (stableState p)) as [He | Hne].
      * split_ands; [reflexivity | reflexivity | contradiction].
      * split_ands; [reflexivity | contradiction |].
        intros _. exists c1. split; [simpl; auto | reflexivity].
  - rewrite (poll_other x c1 p qu Hl). cbn [fst snd].
    rewrite (poll_first_repeat x c2) by reflexivity. cbn [fst snd stableState].
    rewrite (poll_stable x c3) by (unfold settled, DEBOUNCE_COUNT; cbn; lia). cbn [fst snd stableState].
    rewrite poll_settled. cbn [fst snd].
    destruct (Z.eqb_spec x (stableState p)) as [He | Hne].
    + split_ands; [reflexivity | reflexivity | contradiction].
    + split_ands; [reflexivity | contradiction |].
      intros _. exists c3. split; [simpl; auto | reflexivity].
Qed.

Lemma held_level_reported_once_witness :
  fst (pollingTask (steady 254 [(fun _ => 50); (fun _ => 100); (fun _ => 150);
                                (fun _ => 200); (fun _ => 250)]) poll_start (Some []))
  = settled 254.
Proof.
  apply (held_level_reported_once 254 (fun _ => 50) (fun _ => 100) (fun _ => 150)
           [(fun _ => 200); (fun _ => 250)] poll_start (Some [])).
  simpl. lia.
Defined.

(** X25.  The buttons are active low, and a read that cannot be made reads
    as "nothing pressed": [Max7325_IsButtonPressed] answers for port line [k]
    whether the line reads 0, [Max7325_ReadButtons] reports START, LAP and
    STOP from the lines 0, 1 and 2 of the raw value it returns, and with the
    driver uninitialised or the bus transaction failed the raw value is 0xFF
    and no button reads pressed. *)
Theorem buttons_read_active_low (d : Driver) (i2c : option Z) (k : Z) :
  0 <= k < 8 ->
  Max7325_IsButtonPressed (Z.shiftl 1 k) d i2c = negb (Z.testbit (Max7325_ReadRaw d i2c) k) /\
  (forall st,
      Max7325_ReadButtons d i2c = Some st ->
      raw st = Max7325_ReadRaw d i2c /\
      sw1_start st = negb (Z.testbit (raw st) 0) /\
      sw2_lap st = negb (Z.testbit (raw st) 1) /\
      sw3_stop st = negb (Z.testbit (raw st) 2)) /\
  (s_initialized d = false \/ s_i2c d = false \/ i2c = None ->
   Max7325_ReadRaw d i2c = 255 /\
   Max7325_IsButtonPressed (Z.shiftl 1 k) d i2c = false).
Proof.
  intros Hk.
  assert (Hp : Max7325_IsButtonPressed (Z.shiftl 1 k) d i2c
               = negb (Z.testbit (Max7325_ReadRaw d i2c) k))
    by (unfold Max7325_IsButtonPressed; apply mask_test; lia).
  split_ands.
  - exact Hp.
  - unfold Max7325_ReadButtons. intros st. destruct (negb (s_initialized d)); [discriminate |].
    intros [= <-]. cbn [raw sw1_start sw2_lap sw3_stop].
    unfold MAX7325_SW1_MASK, MAX7325_SW2_MASK, MAX7325_SW3_MASK.
    rewrite !mask_test by lia. auto.
  - intros Hfail.
    assert (Hraw : Max7325_ReadRaw d i2c = 255).
    { unfold Max7325_ReadRaw. destruct Hfail as [-> | [-> | ->]]; cbn [negb orb];
        rewrite ?orb_true_r; try reflexivity.
      destruct (negb (s_initialized d) || negb (s_i2c d)); reflexivity. }
    split; [exact Hraw |]. rewrite Hp, Hraw.
    assert (k = 0 \/ k = 1 \/ k = 2 \/ k = 3 \/ k = 4 \/ k = 5 \/ k = 6 \/ k = 7)
      as [-> | [-> | [-> | [-> | [-> | [-> | [-> | ->]]]]]]] by lia; reflexivity.
Qed.

Lemma buttons_read_active_low_witness :
  Max7325_IsButtonPressed (Z.shiftl 1 1) (mkDriver true true) (Some 253)
  = negb (Z.testbit (Max7325_ReadRaw (mkDriver true true) (Some 253)) 1).
Proof.
  apply (buttons_read_active_low (mkDriver true true) (Some 253) 1). lia.
Defined.

End ButtonFacts.

(** * The simulated heart-rate sensor *)

Module SensorFacts.

Import SensorTask.

(** X26.  Every simulated sample is plausible and consistently flagged:
    the rate lies between 69 and 75 BPM, the confidence is 45 or between 85
    and 94, and the sample is marked valid exactly when its confidence is at
    least 50, which fails exactly when the 8-bit sample counter, after its
    increment, is a multiple of 8; the sample carries the clock value. *)
Theorem simulated_sample_ranges (T : Z) (s : Sensor) :
  69 <= bpm (fst (sensorSimulateSample T s)) <= 75 /\
  (confidence (fst (sensorSimulateSample T s)) = 45 \/
   85 <= confidence (fst (sensorSimulateSample T s)) <= 94) /\
  (valid (fst (sensorSimulateSample T s)) = true <->
   50 <= confidence (fst (sensorSimulateSample T s))) /\
  (valid (fst (sensorSimulateSample T s)) = false <->
   s_simSampleCount (snd (sensorSimulateSample T s)) mod 8 = 0) /\
  s_simSampleCount (snd (sensorSimulateSample T s)) = wrap8 (s_simSampleCount s + 1) /\
  hr_timestamp_ms (fst (sensorSimulateSample T s)) = Time_GetMs T.
Proof.
  unfold sensorSimulateSample. cbn [fst snd s_simSampleCount].
  set (count := wrap8 (s_simSampleCount s + 1)).
  pose proof (Z.mod_pos_bound count 7 ltac:(lia)).
  pose proof (Z.mod_pos_bound count 10 ltac:(lia)).
  destruct (Z.eqb_spec (count mod 8) 0) as [H8 | H8];
    cbn [bpm confidence valid hr_timestamp_ms];
    split_ands; try reflexivity; try lia; split; try discriminate; try lia; try congruence.
Qed.

Lemma wrap8_mod8 (z : Z) : wrap8 z mod 8 = z mod 8.
Proof. unfold wrap8. change (2 ^ 8) with 256. Z.div_mod_to_equations; lia. Qed.

Lemma samples_validity (Ts : list Z) :
  forall (s : Sensor) (i : nat) (sample : HrSample_t),
    samples Ts s !! i = Some sample ->
    (valid sample = false <-> (s_simSampleCount s + Z.of_nat i + 1) mod 8 = 0).
Proof.
  induction Ts as [| T Ts IH]; intros s i sample Hi; [destruct i; discriminate Hi |].
  destruct i as [| i]; cbn [samples] in Hi.
  - injection Hi as <-. unfold sensorSimulateSample. cbn [fst].
    replace (s_simSampleCount s + Z.of_nat 0 + 1) with (s_simSampleCount s + 1) by lia.
    rewrite wrap8_mod8.
    destruct (Z.eqb_spec ((s_simSampleCount s + 1) mod 8) 0) as [H8 | H8]; cbn [valid].
    + split; [intros _; exact H8 | reflexivity].
    + split; [discriminate | contradiction].
  - apply IH in Hi. rewrite Hi. unfold sensorSimulateSample. cbn [snd s_simSampleCount].
    replace (wrap8 (s_simSampleCount s + 1) + Z.of_nat i + 1)
      with (wrap8 (s_simSampleCount s + 1) + (Z.of_nat i + 1)) by lia.
    rewrite <- Zplus_mod_idemp_l, wrap8_mod8, Zplus_mod_idemp_l.
    replace (s_simSampleCount s + 1 + (Z.of_nat i + 1))
      with (s_simSampleCount s + Z.of_nat (S i) + 1) by lia.
    reflexivity.
Qed.

(** X27.  Counting from [SensorTask_StartHrMeasurement], which resets the
    sample counter, exactly every eighth simulated sample is invalid: the
    sample with 0-based index [i] is marked invalid if and only if [i + 1]
    is a multiple of 8, also after the 8-bit counter has wrapped. *)
Theorem every_eighth_sample_invalid
    (Ts : list Z) (s : Sensor) (i : nat) (sample : HrSample_t) :
  samples Ts (SensorTask_StartHrMeasurement s) !! i = Some sample ->
  (valid sample = false <-> (Z.of_nat i + 1) mod 8 = 0).
Proof.
  intros Hi. apply samples_validity in Hi. cbn [SensorTask_StartHrMeasurement s_simSampleCount] in Hi.
  exact Hi.
Qed.

Lemma every_eighth_sample_invalid_witness :
  valid (mkHrSample 70 45 false 800) = false <-> (Z.of_nat 7 + 1) mod 8 = 0.
Proof.
  apply (every_eighth_sample_invalid [100; 200; 300; 400; 500; 600; 700; 800]
           (mkSensor false 0) 7 (mkHrSample 70 45 false 800)).
  reflexivity.
Defined.

End SensorFacts.

(** * From a button press to the peer *)

Module SessionFacts.

Import Lifecycle LifecycleSpec LifecycleFacts LedgerFacts BleTx Control WorkoutControl
       WorkoutControlFacts Buffer BufferSpec BufferFacts Protocol ProtocolSpec ProtocolFacts
       CodecSpec CodecFacts BleManager LinkSpec BleTxTask TxSpec TxTaskSpec TxFacts.

Local Open Scope string_scope.

(** X28.  A lap press reaches the peer: in a reachable running session that
    is not on its last lap, a lap press at uptime [T] queues one event, and
    when the transmit task handles that event over a usable link the record
    notified is the [lap] record with the number of the lap just finished,
    [lap_ms] and [split_ms] as [Workout_GetCurrentLapMs] and
    [Workout_GetElapsedMs] stood at the press, and the clock value of the
    press. *)
Theorem lap_press_reaches_peer
    (w : Workout) (T : Z) (flush_envs : nat -> TxEnv) (env : TxEnv) (tx : Tx) :
  Lifecycle.reachable w -> Workout_GetState w = STATE_RUNNING ->
  current_lap (s_session w) < total_laps (config (s_session w)) ->
  Lifecycle.reachable (tx_workout env) ->
  BufferSpec.reachable (ring tx) ->
  link_up (tx_cb env) (tx_ccc env) = true ->
  exists e,
    tx_queue (ControlTask_handle (mkButtonEvent BTN_LAP (Time_GetMs T)) (fun _ => T)
                                 (mkSys w (Some [])))
    = Some [e] /\
    notified (BleTxTask_handle e true flush_envs env tx)
    = (notified (after_flush true flush_envs tx)
       ++ [format (q "{'event':'lap','lap':%d,'lap_ms':%lu,'split_ms':%lu,'ts':%lu}")
             [ArgD (current_lap (s_session w));
              ArgLU (Workout_GetCurrentLapMs T w);
              ArgLU (Workout_GetElapsedMs T T w);
              ArgLU (Time_GetMs T)]])%list.
Proof.
  intros Hreach Hrun Hlast Henv Hring Hup. unfold Workout_GetState in Hrun.
  pose proof (reachable_lap_layout w Hreach) as Hlay.
  pose proof (reachable_lap_layout _ Henv) as (_ & Htl & _). unfold MAX_LAPS in Htl.
  pose proof Hlay as (_ & Htlw & _). unfold MAX_LAPS in Htlw.
  destruct (lap_press_running T w Hlay Hrun) as (lap & Hnum & Hfst & Hstep).
  destruct (record_lap_running T w Hlay Hrun) as (Hcur & _ & Hrec).
  rewrite Hrec in Hfst. cbn [fst] in Hfst. injection Hfst as Hlap.
  rewrite Hstep. cbn [tx_queue].
  replace (current_lap (s_session w) >=? total_laps (config (s_session w))) with false by lia.
  eexists. split; [reflexivity |].
  match goal with |- context [BleTxTask_handle ?e _ _ _ _] => set (ev := e) end.
  assert (Hin : event_in_range ev).
  { unfold event_in_range, u32, ev. cbn [timestamp_ms ev_current_lap lap_data].
    rewrite Hrec. cbn [snd s_session current_lap]. rewrite <- Hlap.
    cbn [lap_number lap_time_ms split_time_ms].
    replace (current_lap (s_session w) >=? total_laps (config (s_session w)))
      with false by lia.
    pose proof (wrap32_range T). unfold Time_GetMs.
    split_ands; try apply wrap32_range; lia. }
  rewrite (handle_fitting ev true flush_envs env tx) by (apply fits_in_range; [exact Hin | lia]).
  rewrite Hup. cbn [andb notified]. f_equal. f_equal.
  unfold wire_text, expansion, ev. cbn [type lap_data timestamp_ms]. rewrite <- Hlap.
  cbn [lap_number lap_time_ms split_time_ms].
  unfold Workout_GetCurrentLapMs, Workout_GetElapsedMs. rewrite Hrun.
  destruct (decide (STATE_RUNNING <> STATE_RUNNING)); [congruence |].
  destruct (decide (STATE_RUNNING = STATE_IDLE)); [congruence |].
  destruct (decide (STATE_RUNNING = STATE_PAUSED)); [congruence |].
  reflexivity.
Qed.

Lemma lap_press_reaches_peer_witness :
  exists e,
    tx_queue (ControlTask_handle (mkButtonEvent BTN_LAP (Time_GetMs 1000)) (fun _ => 1000)
                                 (mkSys (run [(0, OpStart)] Workout_Init) (Some [])))
    = Some [e] /\
    notified (BleTxTask_handle e true
                (fun _ => mkTxEnv Workout_Init 0 0 (mkBleCb 1 true) true)
                (mkTxEnv Workout_Init 0 0 (mkBleCb 1 true) true) tx_start)
    = [q "{'event':'lap','lap':1,'lap_ms':1000,'split_ms':1000,'ts':1000}"].
Proof.
  destruct (lap_press_reaches_peer (run [(0, OpStart)] Workout_Init) 1000
              (fun _ => mkTxEnv Workout_Init 0 0 (mkBleCb 1 true) true)
              (mkTxEnv Workout_Init 0 0 (mkBleCb 1 true) true) tx_start)
    as (e & Hq & Hn).
  - apply reachable_run, reach_init.
  - reflexivity.
  - vm_compute. reflexivity.
  - apply reach_init.
  - apply ring_init.
  - reflexivity.
  - exists e. split; [exact Hq |]. rewrite Hn. vm_compute. reflexivity.
Defined.

(** X29.  Two stop presses end a running workout: the first pauses it and
    announces nothing; the second completes it, records no lap, and queues
    one [EVENT_WORKOUT_STOP] event whose lap counter is the number of the lap
    in progress.  Serialised, that event is the [stop] record with this lap
    number as [laps] and, as [total_ms], the clock time from the start of the
    workout to the second press, pauses included. *)
Theorem two_stop_presses_end_the_workout (w : Workout) (T1 T2 : Z) (old : string) :
  Lifecycle.reachable w -> Workout_GetState w = STATE_RUNNING ->
  Workout_GetState
    (wk (ControlTask_handle (mkButtonEvent BTN_STOP (Time_GetMs T1)) (fun _ => T1)
                            (mkSys w (Some [])))) = STATE_PAUSED /\
  tx_queue (ControlTask_handle (mkButtonEvent BTN_STOP (Time_GetMs T1)) (fun _ => T1)
                               (mkSys w (Some []))) = Some [] /\
  Workout_GetState
    (wk (ControlTask_handle (mkButtonEvent BTN_STOP (Time_GetMs T2)) (fun _ => T2)
           (ControlTask_handle (mkButtonEvent BTN_STOP (Time_GetMs T1)) (fun _ => T1)
                               (mkSys w (Some []))))) = STATE_COMPLETED /\
  laps (s_session
    (wk (ControlTask_handle (mkButtonEvent BTN_STOP (Time_GetMs T2)) (fun _ => T2)
           (ControlTask_handle (mkButtonEvent BTN_STOP (Time_GetMs T1)) (fun _ => T1)
                               (mkSys w (Some []))))))
  = laps (s_session w) /\
  tx_queue (ControlTask_handle (mkButtonEvent BTN_STOP (Time_GetMs T2)) (fun _ => T2)
              (ControlTask_handle (mkButtonEvent BTN_STOP (Time_GetMs T1)) (fun _ => T1)
                                  (mkSys w (Some []))))
  = Some [mkEvent EVENT_WORKOUT_STOP (Time_GetMs T2) (current_lap (s_session w)) lap_zero] /\
  snd (Protocol_SerializeEvent
         (wk (ControlTask_handle (mkButtonEvent BTN_STOP (Time_GetMs T2)) (fun _ => T2)
                (ControlTask_handle (mkButtonEvent BTN_STOP (Time_GetMs T1)) (fun _ => T1)
                                    (mkSys w (Some [])))))
         T2 T2
         (Some (mkEvent EVENT_WORKOUT_STOP (Time_GetMs T2) (current_lap (s_session w))
                        lap_zero))
         (Some old) PROTOCOL_MAX_MSG_LEN)
  = Some (format (q "{'event':'stop','laps':%d,'total_ms':%lu,'ts':%lu}")
            [ArgD (current_lap (s_session w));
             ArgLU (wrap32 (Time_GetMs T2 - workout_start_ms (s_session w)));
             ArgLU (Time_GetMs T2)]).
Proof.
  intros Hreach Hrun. unfold Workout_GetState in Hrun.
  pose proof (reachable_lap_layout w Hreach) as Hlay.
  pose proof Hlay as (_ & Htl & Hst). unfold MAX_LAPS in Htl. rewrite Hrun in Hst.
  destruct Hst as (Hcur & _).
  assert (H1 : ControlTask_handle (mkButtonEvent BTN_STOP (Time_GetMs T1)) (fun _ => T1)
                 (mkSys w (Some []))
               = mkSys (mkWorkout (set_state STATE_PAUSED (s_session w)) (Time_GetMs T1)
                                  (s_totalPausedMs w)) (Some [])).
  { unfold ControlTask_handle, Workout_GetState. cbn [btn_type wk tx_queue]. rewrite Hrun.
    destruct (decide (STATE_RUNNING = STATE_RUNNING)) as [_ | Hn]; [| congruence].
    unfold Workout_Pause. rewrite Hrun.
    destruct (decide (STATE_RUNNING <> STATE_RUNNING)); [congruence | reflexivity]. }
  rewrite H1.
  assert (H2 : ControlTask_handle (mkButtonEvent BTN_STOP (Time_GetMs T2)) (fun _ => T2)
                 (mkSys (mkWorkout (set_state STATE_PAUSED (s_session w)) (Time_GetMs T1)
                                   (s_totalPausedMs w)) (Some []))
               = mkSys (mkWorkout (set_state STATE_COMPLETED (s_session w)) (Time_GetMs T1)
                                  (s_totalPausedMs w))
                       (Some [mkEvent EVENT_WORKOUT_STOP (Time_GetMs T2)
                                      (current_lap (s_session w)) lap_zero])).
  { reflexivity. }
  rewrite H2. cbn [wk tx_queue]. unfold Workout_GetState. cbn [s_session set_state state laps].
  split_ands; try reflexivity.
  match goal with |- context [Protocol_SerializeEvent ?w' ?a ?b (Some ?e) _ _] =>
    destruct (serialize_in_range w' a b e old) as (-> & _) end.
  - unfold event_in_range, u32. cbn [timestamp_ms ev_current_lap lap_data lap_zero
      lap_number lap_time_ms split_time_ms].
    pose proof (wrap32_range T2). unfold Time_GetMs. split_ands; lia.
  - cbn [s_session set_state config]. lia.
  - reflexivity.
Qed.

Lemma two_stop_presses_end_the_workout_witness :
  snd (Protocol_SerializeEvent
         (wk (ControlTask_handle (mkButtonEvent BTN_STOP (Time_GetMs 3000)) (fun _ => 3000)
                (ControlTask_handle (mkButtonEvent BTN_STOP (Time_GetMs 2000)) (fun _ => 2000)
                   (mkSys (run [(0, OpStart); (1000, OpRecordLap)] Workout_Init) (Some [])))))
         3000 3000
         (Some (mkEvent EVENT_WORKOUT_STOP (Time_GetMs 3000)
                  (current_lap (s_session (run [(0, OpStart); (1000, OpRecordLap)] Workout_Init)))
                  lap_zero))
         (Some EmptyString) PROTOCOL_MAX_MSG_LEN)
  = Some (q "{'event':'stop','laps':2,'total_ms':3000,'ts':3000}").
Proof.
  destruct (two_stop_presses_end_the_workout
              (run [(0, OpStart); (1000, OpRecordLap)] Workout_Init) 2000 3000 EmptyString)
    as (_ & _ & _ & _ & _ & H).
  - apply reachable_run, reach_init.
  - reflexivity.
  - rewrite H. vm_compute. reflexivity.
Defined.

End SessionFacts.
